(** * DUI frontend: DSL pretty-printer, dashboard renderer and DSL workbench

    A shallow embedding of the TypeScript sources
      - [frontend/src/dslText.ts]  (the DUI-Lang pretty-printer),
      - [frontend/src/types.ts]    (the wire types),
      - [frontend/src/App.tsx]     (dashboard renderer and DSL workbench),
      - [frontend/src/api.ts]      (the envelope requests the workbench sends),
    together with the properties the specification states about them. *)

From Stdlib Require Import Ascii DecimalString DecimalPos DecimalZ QArith Qminmax.
From stdpp Require Import gmap strings list fin_maps.

Set Warnings "-clear-no-such-hyp".

Local Open Scope stdpp_scope.
Local Open Scope Z_scope.
Local Open Scope nat_scope.

(** ** The JavaScript runtime pieces the sources rely on *)

Module Js.

(** Strings are sequences of code units; the model covers code units below
    256, which [ascii] represents one to one. *)
Definition dquote : string := String "034"%char EmptyString.
Definition backslash : string := String "092"%char EmptyString.
Definition newline : string := String "010"%char EmptyString.

(** [String.prototype.repeat]. *)
Fixpoint String_repeat (s : string) (count : nat) : string :=
  match count with
  | O => EmptyString
  | S n => s +:+ String_repeat s n
  end.

(** [Array.prototype.join] on an array of strings. *)
Fixpoint Array_join (sep : string) (parts : list string) : string :=
  match parts with
  | [] => EmptyString
  | [x] => x
  | x :: rest => x +:+ sep +:+ Array_join sep rest
  end.

(** [String(b)] for a boolean. *)
Definition String_of_boolean (b : bool) : string :=
  if b then "true" else "false".

Definition hex_digit (n : nat) : ascii :=
  if n <? 10 then ascii_of_nat (48 + n) else ascii_of_nat (87 + n).

(** [QuoteJSONString], per code unit: the two-character escapes, [\u00xx]
    for the other control characters, the code unit itself otherwise. *)
Definition JSON_escape (c : ascii) : string :=
  let n := nat_of_ascii c in
  if n =? 8 then backslash +:+ "b"
  else if n =? 9 then backslash +:+ "t"
  else if n =? 10 then backslash +:+ "n"
  else if n =? 12 then backslash +:+ "f"
  else if n =? 13 then backslash +:+ "r"
  else if n =? 34 then backslash +:+ dquote
  else if n =? 92 then backslash +:+ backslash
  else if n <? 32 then
    backslash +:+ "u00" +:+ String (hex_digit (n / 16)) (String (hex_digit (n mod 16)) EmptyString)
  else String c EmptyString.

Fixpoint JSON_escape_all (s : string) : string :=
  match s with
  | EmptyString => EmptyString
  | String c rest => JSON_escape c +:+ JSON_escape_all rest
  end.

(** [JSON.stringify] applied to a string. *)
Definition JSON_stringify (s : string) : string :=
  dquote +:+ JSON_escape_all s +:+ dquote.

(** *** Regular expressions

    The fragment of the pattern language that [IDENTIFIER_RE] uses: the two
    anchors, a character class, and a greedy star of a character class. *)
Inductive ClassItem :=
| CRange (lo hi : ascii)
| CChar (c : ascii).

Definition CharClass := list ClassItem.

Inductive Atom :=
| AssertStart
| AssertEnd
| AClass (cls : CharClass)
| AClassStar (cls : CharClass).

Definition Pattern := list Atom.

Definition in_item (c : ascii) (it : ClassItem) : bool :=
  match it with
  | CRange lo hi => (nat_of_ascii lo <=? nat_of_ascii c) && (nat_of_ascii c <=? nat_of_ascii hi)
  | CChar d => nat_of_ascii c =? nat_of_ascii d
  end.

Definition in_class (cls : CharClass) (c : ascii) : bool :=
  existsb (in_item c) cls.

(** Backtracking match of [p] against the input suffix [s]; [at_start] says
    whether the suffix begins at index 0.  The result is the number of code
    units the match consumed. *)
Fixpoint match_here (p : Pattern) (at_start : bool) (s : string) : option nat :=
  match p with
  | [] => Some 0
  | AssertStart :: p' => if at_start then match_here p' at_start s else None
  | AssertEnd :: p' =>
      match s with
      | EmptyString => match_here p' at_start s
      | String _ _ => None
      end
  | AClass cls :: p' =>
      match s with
      | String c s' => if in_class cls c then S <$> match_here p' false s' else None
      | EmptyString => None
      end
  | AClassStar cls :: p' =>
      (fix star (at_start : bool) (s : string) {struct s} : option nat :=
         match s with
         | String c s' =>
             if in_class cls c then
               match star false s' with
               | Some n => Some (S n)
               | None => match_here p' at_start s
               end
             else match_here p' at_start s
         | EmptyString => match_here p' at_start s
         end) at_start s
  end.

(** A regular-expression object: its pattern, the [g] and [y] flags, and the
    mutable [lastIndex] property. *)
Record RegExp := {
  source : Pattern;
  global : bool;
  sticky : bool;
  lastIndex : nat;
}.

Definition set_lastIndex (R : RegExp) (i : nat) : RegExp :=
  {| source := source R; global := global R; sticky := sticky R; lastIndex := i |}.

Fixpoint string_drop (n : nat) (s : string) : string :=
  match n, s with
  | O, _ => s
  | S n', String _ s' => string_drop n' s'
  | S _, EmptyString => EmptyString
  end.

(** The search loop of [RegExpBuiltinExec]: try index [i]; unless the
    expression is sticky, move on to the next index on failure.  The result
    is the end index of the match. *)
Fixpoint search (p : Pattern) (is_sticky : bool) (i : nat) (s : string) : option nat :=
  match match_here p (i =? 0) s with
  | Some n => Some (i + n)
  | None =>
      if is_sticky then None
      else match s with
           | EmptyString => None
           | String _ s' => search p is_sticky (S i) s'
           end
  end.

(** [RegExp.prototype.test]: the boolean outcome and the object afterwards.
    Only a global or sticky expression reads and writes [lastIndex]. *)
Definition RegExp_test (R : RegExp) (S : string) : bool * RegExp :=
  let stateful := global R || sticky R in
  let start := if stateful then lastIndex R else 0 in
  if String.length S <? start then
    (false, if stateful then set_lastIndex R 0 else R)
  else
    match search (source R) (sticky R) start (string_drop start S) with
    | Some e => (true, if stateful then set_lastIndex R e else R)
    | None => (false, if stateful then set_lastIndex R 0 else R)
    end.

(** [String(n)] for an integer-valued number of magnitude below 1e21: its
    decimal digits, after a minus sign when it is negative. *)
Definition String_of_integer (n : Q) : string :=
  NilZero.string_of_int (Z.to_int (Qnum n / Z.pos (Qden n))).

(** Whether [s.trim()] is the empty string: every code unit is white space
    or a line terminator. *)
Definition is_white_space (c : ascii) : bool :=
  let n := nat_of_ascii c in
  (n =? 9) || (n =? 10) || (n =? 11) || (n =? 12) || (n =? 13) || (n =? 32) || (n =? 160).

Fixpoint trim_is_empty (s : string) : bool :=
  match s with
  | EmptyString => true
  | String c rest => is_white_space c && trim_is_empty rest
  end.

End Js.

(** ** Wire types ([types.ts]) *)

(** A JSON value as [JSON.parse] delivers it ([unknown] in the sources).  A
    number is a rational: every finite double is one. *)
Unset Elimination Schemes.
Inductive JsonValue :=
| JNull
| JString (s : string)
| JNumber (n : Q)
| JBoolean (b : bool)
| JArray (values : list JsonValue)
| JObject (entries : list (string * JsonValue)).
Set Elimination Schemes.

(** The induction principle that reaches through the nested lists. *)
Fixpoint JsonValue_ind (P : JsonValue -> Prop)
    (HNull : P JNull)
    (HString : forall s, P (JString s))
    (HNumber : forall n, P (JNumber n))
    (HBoolean : forall b, P (JBoolean b))
    (HArray : forall values, Forall P values -> P (JArray values))
    (HObject : forall entries, Forall (fun kv => P kv.2) entries -> P (JObject entries))
    (value : JsonValue) {struct value} : P value :=
  let rec_ := JsonValue_ind P HNull HString HNumber HBoolean HArray HObject in
  match value with
  | JNull => HNull
  | JString s => HString s
  | JNumber n => HNumber n
  | JBoolean b => HBoolean b
  | JArray values =>
      HArray values
        ((fix all (l : list JsonValue) : Forall P l :=
            match l with
            | [] => Forall_nil_2 P
            | v :: l' => Forall_cons_2 P v l' (rec_ v) (all l')
            end) values)
  | JObject entries =>
      HObject entries
        ((fix all (l : list (string * JsonValue)) : Forall (fun kv => P kv.2) l :=
            match l with
            | [] => Forall_nil_2 _
            | kv :: l' => Forall_cons_2 (fun kv => P kv.2) kv l' (rec_ kv.2) (all l')
            end) entries)
  end.

(** [Record<string, unknown>]: the own properties of an object in the order
    [Object.entries] enumerates them. *)
Definition JsObject := list (string * JsonValue).

Definition Object_entries (o : JsObject) : list (string * JsonValue) := o.
Definition Object_keys {V : Type} (o : list (string * V)) : list string := o.*1.

Inductive Zone := header | sidebar | content | footer.
Inductive WidgetKind := kpi | table | activity | chart | card | list_kind | panel | tabs | form.
Inductive ThemeProfile := profile_default | minimal | liquid_glass.
Inductive Density := comfortable | compact.
Inductive DuiMode := safe | extended | experimental.

Global Instance Zone_eq_dec : EqDecision Zone.
Proof. solve_decision. Defined.

(** The string a value of a string-literal union type is at run time. *)
Definition ThemeProfile_string (p : ThemeProfile) : string :=
  match p with
  | profile_default => "default"
  | minimal => "minimal"
  | liquid_glass => "liquid_glass"
  end.

Definition Density_string (d : Density) : string :=
  match d with
  | comfortable => "comfortable"
  | compact => "compact"
  end.

Record ThemeConfig := {
  tc_profile : ThemeProfile;
  tc_density : Density;
  tc_tokens : list (string * string);
}.

Record WidgetConfig := {
  w_id : string;
  w_title : string;
  w_kind : WidgetKind;
  w_zone : Zone;
  w_capability_id : string;
  w_protected : bool;
  w_template_id : option string;
  w_props : JsObject;
}.

Record SectionConfig := {
  s_id : string;
  s_title : string;
  s_zone : Zone;
  s_child_widget_ids : list string;
  s_layout : JsObject;
}.

Record UiManifest := {
  manifest_id : string;
  m_revision : Q;
  m_created_at : string;
  m_theme : ThemeConfig;
  m_widgets : list WidgetConfig;
  m_sections : list SectionConfig;
  m_layout_constraints : JsObject;
  m_metadata : list (string * string);
}.

Record DuiDslSurface := {
  surface_id : string;
  surface_title : string;
  surface_route : string;
}.

Record DuiDslMeta := {
  document_id : string;
  revision : Q;
  created_at : string;
  created_by : string;
}.

Record DuiDslTheme := {
  profile : ThemeProfile;
  density : Density;
  tokens : list (string * string);
}.

Record DuiDslState := {
  locals : JsObject;
}.

Record DuiDslNode := {
  node_id : string;
  node_type : string;
  props : JsObject;
  style : JsObject;
  layout : JsObject;
  a11y : JsObject;
  visible_when : option JsObject;
  enabled_when : option JsObject;
  children : list string;
  slots : list (string * list string);
  on : list (string * string);
}.

Record DuiDslBinding := {
  binding_id : string;
  binding_source : string;
  select : string;
  args : JsObject;
  cache : JsObject;
}.

Record DuiDslAction := {
  action_id : string;
  action_type : string;
  params : JsObject;
}.

Record DuiDslDocument := {
  dsl_version : string;
  surface : DuiDslSurface;
  meta : DuiDslMeta;
  theme : DuiDslTheme;
  state : DuiDslState;
  nodes : list DuiDslNode;
  bindings : list DuiDslBinding;
  actions : list DuiDslAction;
  layout_constraints : JsObject;
}.

Inductive DuiIssueSeverity := severity_error | severity_warning.

Record DuiDslValidationIssue := {
  severity : DuiIssueSeverity;
  code : string;
  message : string;
  path : string;
}.

Record DuiDslValidationResult := {
  valid : bool;
  errors : list DuiDslValidationIssue;
  warnings : list DuiDslValidationIssue;
  stats : list (string * Q);
}.

(** A typed field seen as the [unknown] value it is at run time. *)
Definition strings_value (l : list string) : JsonValue := JArray (JString <$> l).
Definition string_record (o : list (string * string)) : JsObject := prod_map id JString <$> o.
Definition slots_record (o : list (string * list string)) : JsObject := prod_map id strings_value <$> o.

(** ** The pretty-printer ([dslText.ts]) *)

Module DslText.

Definition INDENT : string := "  ".

(** [/^[A-Za-z_][A-Za-z0-9_.-]*$/] *)
Definition IDENTIFIER_RE_source : Js.Pattern :=
  [ Js.AssertStart;
    Js.AClass [Js.CRange "A" "Z"; Js.CRange "a" "z"; Js.CChar "_"];
    Js.AClassStar [Js.CRange "A" "Z"; Js.CRange "a" "z"; Js.CRange "0" "9";
                   Js.CChar "_"; Js.CChar "."; Js.CChar "-"];
    Js.AssertEnd ]%char.

Definition RESERVED_WORDS : gset string := {[ "true"; "false"; "null" ]}.

(** What of the module outlives a call: the [lastIndex] property of the
    regular-expression object [IDENTIFIER_RE] is bound to. *)
Record ModuleState := {
  IDENTIFIER_RE_lastIndex : nat;
}.

Definition IDENTIFIER_RE (σ : ModuleState) : Js.RegExp :=
  {| Js.source := IDENTIFIER_RE_source;
     Js.global := false;
     Js.sticky := false;
     Js.lastIndex := IDENTIFIER_RE_lastIndex σ |}.

(** Computations that run against the module state. *)
Definition M (A : Type) : Type := ModuleState -> A * ModuleState.

Definition ret {A : Type} (a : A) : M A := fun σ => (a, σ).

Definition bind {A B : Type} (m : M A) (k : A -> M B) : M B :=
  fun σ => let (a, σ') := m σ in k a σ'.

#[local] Notation "x <- m ;; k" := (bind m (fun x => k))
  (at level 100, m at next level, right associativity).

(** [Array.prototype.map] with an effectful callback, left to right. *)
Definition mapM {A B : Type} (f : A -> M B) : list A -> M (list B) :=
  fix go (l : list A) : M (list B) :=
    match l with
    | [] => ret []
    | x :: l' => y <- f x ;; ys <- go l' ;; ret (y :: ys)
    end.

Definition isIdentifier (value : string) : M bool :=
  fun σ =>
    let (matched, R) := Js.RegExp_test (IDENTIFIER_RE σ) value in
    (matched && negb (bool_decide (value ∈ RESERVED_WORDS)),
     {| IDENTIFIER_RE_lastIndex := Js.lastIndex R |}).

Definition formatIdentifier (value : string) : M string :=
  b <- isIdentifier value ;;
  if b then ret value else ret (Js.JSON_stringify value).

Definition formatKey (value : string) : M string :=
  b <- isIdentifier value ;;
  if b then ret value else ret (Js.JSON_stringify value).

(** [typeof value !== 'object' || value === null] *)
Definition not_object_or_null (value : JsonValue) : bool :=
  match value with
  | JArray _ | JObject _ => false
  | _ => true
  end.

Section Printer.

(** [String(n)] for a number: the shortest decimal that reads back as the
    same double.  The printer only passes its result on. *)
Variable String_of_number : Q -> string.

Section Bodies.
Variable formatValue : JsonValue -> nat -> M string.

Definition formatArray_body (values : list JsonValue) (indentLevel : nat) : M string :=
  if length values =? 0 then ret "[]"
  else
    inlineValues <- mapM (fun value => formatValue value indentLevel) values ;;
    let inline := "[" +:+ Js.Array_join ", " inlineValues +:+ "]" in
    if (String.length inline <=? 88) && forallb not_object_or_null values then ret inline
    else
      let indent := Js.String_repeat INDENT indentLevel in
      let innerIndent := Js.String_repeat INDENT (indentLevel + 1) in
      rows <- mapM (fun value =>
                      text <- formatValue value (indentLevel + 1) ;;
                      ret (innerIndent +:+ text)) values ;;
      ret ("[" +:+ Js.newline +:+ Js.Array_join ("," +:+ Js.newline) rows
           +:+ Js.newline +:+ indent +:+ "]").

Definition formatObject_body (input : JsObject) (indentLevel : nat) : M string :=
  let entries := Object_entries input in
  if length entries =? 0 then ret "{}"
  else
    inlineParts <- mapM (fun entry : string * JsonValue =>
                           key <- formatKey entry.1 ;;
                           text <- formatValue entry.2 indentLevel ;;
                           ret (key +:+ ": " +:+ text)) entries ;;
    let inline := "{ " +:+ Js.Array_join ", " inlineParts +:+ " }" in
    if (String.length inline <=? 100)
       && forallb (fun entry : string * JsonValue => not_object_or_null entry.2) entries
    then ret inline
    else
      let indent := Js.String_repeat INDENT indentLevel in
      let innerIndent := Js.String_repeat INDENT (indentLevel + 1) in
      rows <- mapM (fun entry : string * JsonValue =>
                      key <- formatKey entry.1 ;;
                      text <- formatValue entry.2 (indentLevel + 1) ;;
                      ret (innerIndent +:+ key +:+ ": " +:+ text)) entries ;;
      ret ("{" +:+ Js.newline +:+ Js.Array_join ("," +:+ Js.newline) rows
           +:+ Js.newline +:+ indent +:+ "}").
End Bodies.

Fixpoint formatValue (value : JsonValue) (indentLevel : nat) {struct value} : M string :=
  match value with
  | JNull => ret "null"
  | JString s =>
      b <- isIdentifier s ;;
      if b then ret s else ret (Js.JSON_stringify s)
  | JNumber n => ret (String_of_number n)
  | JBoolean b => ret (Js.String_of_boolean b)
  | JArray values => formatArray_body formatValue values indentLevel
  | JObject input => formatObject_body formatValue input indentLevel
  end.
(* The closing [return JSON.stringify(String(value))] of the source serves
   [undefined], functions, symbols and bigints, none of which is a
   [JsonValue]. *)

Definition formatArray : list JsonValue -> nat -> M string :=
  formatArray_body formatValue.

Definition formatObject : JsObject -> nat -> M string :=
  formatObject_body formatValue.

Definition pushOptionalObjectBlock
    (lines : list string) (label : string) (value : JsObject) (indentLevel : nat)
  : M (list string) :=
  if length (Object_keys value) =? 0 then ret lines
  else
    let indent := Js.String_repeat INDENT indentLevel in
    text <- formatObject value indentLevel ;;
    ret (lines ++ [indent +:+ label +:+ " " +:+ text]).

(** The body of [for (const action of document.actions)]. *)
Definition push_action (lines : list string) (action : DuiDslAction) : M (list string) :=
  let lines := lines ++ [EmptyString] in
  id_text <- formatIdentifier (action_id action) ;;
  let lines := lines ++ [INDENT +:+ "action " +:+ id_text +:+ " {"] in
  type_text <- formatValue (JString (action_type action)) 2 ;;
  let lines := lines ++ [INDENT +:+ INDENT +:+ "type: " +:+ type_text] in
  lines <- pushOptionalObjectBlock lines "params" (params action) 2 ;;
  ret (lines ++ [INDENT +:+ "}"]).

(** The body of [for (const node of document.nodes)]. *)
Definition push_node (lines : list string) (node : DuiDslNode) : M (list string) :=
  let lines := lines ++ [EmptyString] in
  id_text <- formatIdentifier (node_id node) ;;
  type_text <- formatIdentifier (node_type node) ;;
  let lines := lines ++ [INDENT +:+ "node " +:+ id_text +:+ ": " +:+ type_text +:+ " {"] in
  lines <- pushOptionalObjectBlock lines "props" (props node) 2 ;;
  lines <- pushOptionalObjectBlock lines "style" (style node) 2 ;;
  lines <- pushOptionalObjectBlock lines "layout" (layout node) 2 ;;
  lines <- pushOptionalObjectBlock lines "a11y" (a11y node) 2 ;;
  lines <- match visible_when node with
           | Some cond => pushOptionalObjectBlock lines "visible_when" cond 2
           | None => ret lines
           end ;;
  lines <- match enabled_when node with
           | Some cond => pushOptionalObjectBlock lines "enabled_when" cond 2
           | None => ret lines
           end ;;
  lines <- (if 0 <? length (children node) then
              text <- formatArray (JString <$> children node) 2 ;;
              ret (lines ++ [INDENT +:+ INDENT +:+ "children: " +:+ text])
            else ret lines) ;;
  lines <- (if 0 <? length (Object_keys (slots node)) then
              text <- formatObject (slots_record (slots node)) 2 ;;
              ret (lines ++ [INDENT +:+ INDENT +:+ "slots " +:+ text])
            else ret lines) ;;
  lines <- (if 0 <? length (Object_keys (on node)) then
              text <- formatObject (string_record (on node)) 2 ;;
              ret (lines ++ [INDENT +:+ INDENT +:+ "on " +:+ text])
            else ret lines) ;;
  ret (lines ++ [INDENT +:+ "}"]).

(** The body of [for (const binding of document.bindings)]. *)
Definition push_binding (lines : list string) (binding : DuiDslBinding) : M (list string) :=
  let lines := lines ++ [EmptyString] in
  id_text <- formatIdentifier (binding_id binding) ;;
  let lines := lines ++ [INDENT +:+ "binding " +:+ id_text +:+ " {"] in
  source_text <- formatValue (JString (binding_source binding)) 2 ;;
  let lines := lines ++ [INDENT +:+ INDENT +:+ "source: " +:+ source_text] in
  select_text <- formatValue (JString (select binding)) 2 ;;
  let lines := lines ++ [INDENT +:+ INDENT +:+ "select: " +:+ select_text] in
  lines <- pushOptionalObjectBlock lines "args" (args binding) 2 ;;
  lines <- pushOptionalObjectBlock lines "cache" (cache binding) 2 ;;
  ret (lines ++ [INDENT +:+ "}"]).

(** A [for ... of] loop that pushes onto [lines]. *)
Definition for_of {A : Type} (body : list string -> A -> M (list string))
  : list A -> list string -> M (list string) :=
  fix go (items : list A) (lines : list string) : M (list string) :=
    match items with
    | [] => ret lines
    | item :: rest => lines <- body lines item ;; go rest lines
    end.

(** The array [lines] the function fills, before it is joined. *)
Definition serialize_lines (document : DuiDslDocument) : M (list string) :=
  let lines : list string := [] in
  surface_text <- formatIdentifier (surface_id (surface document)) ;;
  let lines := lines ++ ["surface " +:+ surface_text +:+ " {"] in
  title_text <- formatValue (JString (surface_title (surface document))) 1 ;;
  route_text <- formatValue (JString (surface_route (surface document))) 1 ;;
  let lines := lines ++
    [INDENT +:+ "surface_meta { title: " +:+ title_text +:+ ", route: " +:+ route_text +:+ " }"] in
  document_id_text <- formatValue (JString (document_id (meta document))) 1 ;;
  created_by_text <- formatValue (JString (created_by (meta document))) 1 ;;
  let lines := lines ++
    [INDENT +:+ "meta { document_id: " +:+ document_id_text
       +:+ ", revision: " +:+ String_of_number (revision (meta document))
       +:+ ", created_by: " +:+ created_by_text +:+ " }"] in
  lines <- (if length (Object_keys (tokens (theme document))) =? 0 then
              profile_text <- formatValue (JString (ThemeProfile_string (profile (theme document)))) 1 ;;
              density_text <- formatValue (JString (Density_string (density (theme document)))) 1 ;;
              ret (lines ++
                [INDENT +:+ "theme { profile: " +:+ profile_text
                   +:+ " density: " +:+ density_text +:+ " }"])
            else
              profile_text <- formatValue (JString (ThemeProfile_string (profile (theme document)))) 1 ;;
              density_text <- formatValue (JString (Density_string (density (theme document)))) 1 ;;
              tokens_text <- formatObject (string_record (tokens (theme document))) 1 ;;
              ret (lines ++
                [INDENT +:+ "theme { profile: " +:+ profile_text
                   +:+ " density: " +:+ density_text
                   +:+ " tokens " +:+ tokens_text +:+ " }"])) ;;
  lines <- pushOptionalObjectBlock lines "layout_constraints" (layout_constraints document) 1 ;;
  lines <- pushOptionalObjectBlock lines "state" (locals (state document)) 1 ;;
  lines <- for_of push_action (actions document) lines ;;
  lines <- for_of push_node (nodes document) lines ;;
  lines <- for_of push_binding (bindings document) lines ;;
  ret (lines ++ ["}"]).

Definition serializeDuiDslDocument (document : DuiDslDocument) : M string :=
  lines <- serialize_lines document ;;
  ret (Js.Array_join Js.newline lines +:+ Js.newline).

End Printer.

End DslText.

(** ** The dashboard renderer ([DashboardView] in [App.tsx]) *)

Module Dashboard.

Definition ZONES : list Zone := [header; sidebar; content; footer].

(** Reading the property [key] of an object. *)
Fixpoint Object_get (o : JsObject) (key : string) : option JsonValue :=
  match o with
  | [] => None
  | (k, v) :: rest => if decide (k = key) then Some v else Object_get rest key
  end.

(** [typeof raw === 'number' ? Math.max(1, Math.min(4, raw)) : 2] *)
Definition maxColumns (manifest : UiManifest) : Q :=
  match Object_get (m_layout_constraints manifest) "max_columns" with
  | Some (JNumber maxColumnsRaw) => Qmax 1 (Qmin 4 maxColumnsRaw)
  | _ => 2
  end.

(** [new Map(widgets.map((widget) => [widget.id, widget]))]: a later entry
    with the same key replaces the earlier one. *)
Definition new_Map (widgets : list WidgetConfig) : gmap string WidgetConfig :=
  foldl (fun m widget => <[w_id widget := widget]> m) ∅ widgets.

(** What one [SectionBlock] element receives. *)
Record SectionBlockProps := {
  sb_section : SectionConfig;
  sb_children : list WidgetConfig;
}.

(** [section.child_widget_ids.map((id) => widgetMap.get(id)).filter(Boolean)] *)
Definition section_children
    (widgetMap : gmap string WidgetConfig) (section : SectionConfig) : list WidgetConfig :=
  omap (fun widgetId => widgetMap !! widgetId) (s_child_widget_ids section).

(** [children.forEach((widget) => usedWidgetIds.add(widget.id))] *)
Definition add_used (usedWidgetIds : gset string) (children : list WidgetConfig) : gset string :=
  foldl (fun used widget => used ∪ {[ w_id widget ]}) usedWidgetIds children.

(** [sections.map(...)], which fills [usedWidgetIds] as it goes. *)
Fixpoint section_blocks
    (widgetMap : gmap string WidgetConfig) (sections : list SectionConfig)
    (usedWidgetIds : gset string) : list SectionBlockProps * gset string :=
  match sections with
  | [] => ([], usedWidgetIds)
  | section :: rest =>
      let children := section_children widgetMap section in
      let usedWidgetIds := add_used usedWidgetIds children in
      let (blocks, usedWidgetIds) := section_blocks widgetMap rest usedWidgetIds in
      ({| sb_section := section; sb_children := children |} :: blocks, usedWidgetIds)
  end.

(** What is rendered for one zone: the section blocks, the "No widgets"
    note, the loose widgets. *)
Record ZoneView := {
  zv_zone : Zone;
  zv_sectionBlocks : list SectionBlockProps;
  zv_no_widgets_note : bool;
  zv_looseWidgets : list WidgetConfig;
}.

Definition render_zone (manifest : UiManifest) (zone : Zone) : ZoneView :=
  let widgets := filter (fun widget => w_zone widget = zone) (m_widgets manifest) in
  let sections := filter (fun section => s_zone section = zone) (m_sections manifest) in
  let widgetMap := new_Map widgets in
  let (sectionBlocks, usedWidgetIds) := section_blocks widgetMap sections ∅ in
  let looseWidgets := filter (fun widget => w_id widget ∉ usedWidgetIds) widgets in
  {| zv_zone := zone;
     zv_sectionBlocks := sectionBlocks;
     zv_no_widgets_note := (length looseWidgets =? 0) && (length sectionBlocks =? 0);
     zv_looseWidgets := looseWidgets |}.

(** The rendered dashboard: the value of [--zone-columns] (before [String]
    turns it into text) and the four zones. *)
Record DashboardElement := {
  zone_columns : Q;
  zones : list ZoneView;
}.

Definition DashboardView (manifest : UiManifest) : DashboardElement :=
  {| zone_columns := maxColumns manifest;
     zones := render_zone manifest <$> ZONES |}.

End Dashboard.

(** ** The DSL workbench ([App] in [App.tsx], requests of [api.ts]) *)

Module Workbench.

Record DuiDslValidateResponse := {
  vr_result : DuiDslValidationResult;
  vr_compiled_manifest : option UiManifest;
}.

Record DuiDslParseResponse := {
  pr_document : DuiDslDocument;
  pr_validation_result : DuiDslValidationResult;
  pr_compiled_manifest : option UiManifest;
}.

Record DuiDslIntentResponse := {
  ir_document : DuiDslDocument;
  ir_validation_result : DuiDslValidationResult;
  ir_preview_manifest : option UiManifest;
  ir_warnings : list string;
}.

Record DuiDslCommitResponse := {
  cr_document : DuiDslDocument;
  cr_manifest : UiManifest;
}.

(** The envelopes the button handlers send, by message type and payload. *)
Inductive Request :=
| dsl_intent_request (user_prompt : string) (mode : DuiMode)
| dsl_parse_request (source_text : string)
| dsl_validate_request (document : DuiDslDocument)
| dsl_commit_request (document : DuiDslDocument) (approved_by : string)
| dsl_current_request
| dsl_revisions_request
| manifest_revisions_request
| revert_request (target_revision : Q) (approved_by : string).

(** The [await] a handler is suspended at. *)
Inductive Pending :=
| AwaitIntent
| AwaitParse
| AwaitValidate
| AwaitCommit
| AwaitCommitHistory
| AwaitLoadCurrent
| AwaitRevert
| AwaitRevertHistory.

(** The [useState] cells of [App] (of the dashboard and lesson data only
    whether they have arrived), the suspended handler, the requests sent so
    far, and the state of the [dslText] module. *)
Record AppState := {
  manifest : option UiManifest;
  previewManifest : option UiManifest;
  prompt : string;
  duiMode : DuiMode;
  error : option string;
  busy : bool;
  revisions : list UiManifest;
  dslRevisions : list DuiDslDocument;
  dslSource : string;
  dslSourceDirty : bool;
  dslDraft : option DuiDslDocument;
  dslWarnings : list string;
  dslValidationErrors : list DuiDslValidationIssue;
  dslValidationWarnings : list DuiDslValidationIssue;
  dslValidationValid : option bool;
  dashboard : bool;
  activeLesson : bool;
  pending : option Pending;
  sent : list Request;
  dslText : DslText.ModuleState;
}.

Definition setManifest (v : option UiManifest) (s : AppState) : AppState :=
  {| manifest := v; previewManifest := previewManifest s; prompt := prompt s;
     duiMode := duiMode s; error := error s; busy := busy s;
     revisions := revisions s; dslRevisions := dslRevisions s;
     dslSource := dslSource s; dslSourceDirty := dslSourceDirty s;
     dslDraft := dslDraft s; dslWarnings := dslWarnings s;
     dslValidationErrors := dslValidationErrors s;
     dslValidationWarnings := dslValidationWarnings s;
     dslValidationValid := dslValidationValid s; dashboard := dashboard s;
     activeLesson := activeLesson s; pending := pending s; sent := sent s;
     dslText := dslText s |}.

Definition setPreviewManifest (v : option UiManifest) (s : AppState) : AppState :=
  {| manifest := manifest s; previewManifest := v; prompt := prompt s;
     duiMode := duiMode s; error := error s; busy := busy s;
     revisions := revisions s; dslRevisions := dslRevisions s;
     dslSource := dslSource s; dslSourceDirty := dslSourceDirty s;
     dslDraft := dslDraft s; dslWarnings := dslWarnings s;
     dslValidationErrors := dslValidationErrors s;
     dslValidationWarnings := dslValidationWarnings s;
     dslValidationValid := dslValidationValid s; dashboard := dashboard s;
     activeLesson := activeLesson s; pending := pending s; sent := sent s;
     dslText := dslText s |}.

Definition setPrompt (v : string) (s : AppState) : AppState :=
  {| manifest := manifest s; previewManifest := previewManifest s;
     prompt := v; duiMode := duiMode s; error := error s; busy := busy s;
     revisions := revisions s; dslRevisions := dslRevisions s;
     dslSource := dslSource s; dslSourceDirty := dslSourceDirty s;
     dslDraft := dslDraft s; dslWarnings := dslWarnings s;
     dslValidationErrors := dslValidationErrors s;
     dslValidationWarnings := dslValidationWarnings s;
     dslValidationValid := dslValidationValid s; dashboard := dashboard s;
     activeLesson := activeLesson s; pending := pending s; sent := sent s;
     dslText := dslText s |}.

Definition setDuiMode (v : DuiMode) (s : AppState) : AppState :=
  {| manifest := manifest s; previewManifest := previewManifest s;
     prompt := prompt s; duiMode := v; error := error s; busy := busy s;
     revisions := revisions s; dslRevisions := dslRevisions s;
     dslSource := dslSource s; dslSourceDirty := dslSourceDirty s;
     dslDraft := dslDraft s; dslWarnings := dslWarnings s;
     dslValidationErrors := dslValidationErrors s;
     dslValidationWarnings := dslValidationWarnings s;
     dslValidationValid := dslValidationValid s; dashboard := dashboard s;
     activeLesson := activeLesson s; pending := pending s; sent := sent s;
     dslText := dslText s |}.

Definition setError (v : option string) (s : AppState) : AppState :=
  {| manifest := manifest s; previewManifest := previewManifest s;
     prompt := prompt s; duiMode := duiMode s; error := v; busy := busy s;
     revisions := revisions s; dslRevisions := dslRevisions s;
     dslSource := dslSource s; dslSourceDirty := dslSourceDirty s;
     dslDraft := dslDraft s; dslWarnings := dslWarnings s;
     dslValidationErrors := dslValidationErrors s;
     dslValidationWarnings := dslValidationWarnings s;
     dslValidationValid := dslValidationValid s; dashboard := dashboard s;
     activeLesson := activeLesson s; pending := pending s; sent := sent s;
     dslText := dslText s |}.

Definition setBusy (v : bool) (s : AppState) : AppState :=
  {| manifest := manifest s; previewManifest := previewManifest s;
     prompt := prompt s; duiMode := duiMode s; error := error s; busy := v;
     revisions := revisions s; dslRevisions := dslRevisions s;
     dslSource := dslSource s; dslSourceDirty := dslSourceDirty s;
     dslDraft := dslDraft s; dslWarnings := dslWarnings s;
     dslValidationErrors := dslValidationErrors s;
     dslValidationWarnings := dslValidationWarnings s;
     dslValidationValid := dslValidationValid s; dashboard := dashboard s;
     activeLesson := activeLesson s; pending := pending s; sent := sent s;
     dslText := dslText s |}.

Definition setRevisions (v : list UiManifest) (s : AppState) : AppState :=
  {| manifest := manifest s; previewManifest := previewManifest s;
     prompt := prompt s; duiMode := duiMode s; error := error s;
     busy := busy s; revisions := v; dslRevisions := dslRevisions s;
     dslSource := dslSource s; dslSourceDirty := dslSourceDirty s;
     dslDraft := dslDraft s; dslWarnings := dslWarnings s;
     dslValidationErrors := dslValidationErrors s;
     dslValidationWarnings := dslValidationWarnings s;
     dslValidationValid := dslValidationValid s; dashboard := dashboard s;
     activeLesson := activeLesson s; pending := pending s; sent := sent s;
     dslText := dslText s |}.

Definition setDslRevisions (v : list DuiDslDocument) (s : AppState) : AppState :=
  {| manifest := manifest s; previewManifest := previewManifest s;
     prompt := prompt s; duiMode := duiMode s; error := error s;
     busy := busy s; revisions := revisions s; dslRevisions := v;
     dslSource := dslSource s; dslSourceDirty := dslSourceDirty s;
     dslDraft := dslDraft s; dslWarnings := dslWarnings s;
     dslValidationErrors := dslValidationErrors s;
     dslValidationWarnings := dslValidationWarnings s;
     dslValidationValid := dslValidationValid s; dashboard := dashboard s;
     activeLesson := activeLesson s; pending := pending s; sent := sent s;
     dslText := dslText s |}.

Definition setDslSource (v : string) (s : AppState) : AppState :=
  {| manifest := manifest s; previewManifest := previewManifest s;
     prompt := prompt s; duiMode := duiMode s; error := error s;
     busy := busy s; revisions := revisions s;
     dslRevisions := dslRevisions s; dslSource := v;
     dslSourceDirty := dslSourceDirty s; dslDraft := dslDraft s;
     dslWarnings := dslWarnings s;
     dslValidationErrors := dslValidationErrors s;
     dslValidationWarnings := dslValidationWarnings s;
     dslValidationValid := dslValidationValid s; dashboard := dashboard s;
     activeLesson := activeLesson s; pending := pending s; sent := sent s;
     dslText := dslText s |}.

Definition setDslSourceDirty (v : bool) (s : AppState) : AppState :=
  {| manifest := manifest s; previewManifest := previewManifest s;
     prompt := prompt s; duiMode := duiMode s; error := error s;
     busy := busy s; revisions := revisions s;
     dslRevisions := dslRevisions s; dslSource := dslSource s;
     dslSourceDirty := v; dslDraft := dslDraft s;
     dslWarnings := dslWarnings s;
     dslValidationErrors := dslValidationErrors s;
     dslValidationWarnings := dslValidationWarnings s;
     dslValidationValid := dslValidationValid s; dashboard := dashboard s;
     activeLesson := activeLesson s; pending := pending s; sent := sent s;
     dslText := dslText s |}.

Definition setDslDraft (v : option DuiDslDocument) (s : AppState) : AppState :=
  {| manifest := manifest s; previewManifest := previewManifest s;
     prompt := prompt s; duiMode := duiMode s; error := error s;
     busy := busy s; revisions := revisions s;
     dslRevisions := dslRevisions s; dslSource := dslSource s;
     dslSourceDirty := dslSourceDirty s; dslDraft := v;
     dslWarnings := dslWarnings s;
     dslValidationErrors := dslValidationErrors s;
     dslValidationWarnings := dslValidationWarnings s;
     dslValidationValid := dslValidationValid s; dashboard := dashboard s;
     activeLesson := activeLesson s; pending := pending s; sent := sent s;
     dslText := dslText s |}.

Definition setDslWarnings (v : list string) (s : AppState) : AppState :=
  {| manifest := manifest s; previewManifest := previewManifest s;
     prompt := prompt s; duiMode := duiMode s; error := error s;
     busy := busy s; revisions := revisions s;
     dslRevisions := dslRevisions s; dslSource := dslSource s;
     dslSourceDirty := dslSourceDirty s; dslDraft := dslDraft s;
     dslWarnings := v; dslValidationErrors := dslValidationErrors s;
     dslValidationWarnings := dslValidationWarnings s;
     dslValidationValid := dslValidationValid s; dashboard := dashboard s;
     activeLesson := activeLesson s; pending := pending s; sent := sent s;
     dslText := dslText s |}.

Definition setDslValidationErrors (v : list DuiDslValidationIssue) (s : AppState) : AppState :=
  {| manifest := manifest s; previewManifest := previewManifest s;
     prompt := prompt s; duiMode := duiMode s; error := error s;
     busy := busy s; revisions := revisions s;
     dslRevisions := dslRevisions s; dslSource := dslSource s;
     dslSourceDirty := dslSourceDirty s; dslDraft := dslDraft s;
     dslWarnings := dslWarnings s; dslValidationErrors := v;
     dslValidationWarnings := dslValidationWarnings s;
     dslValidationValid := dslValidationValid s; dashboard := dashboard s;
     activeLesson := activeLesson s; pending := pending s; sent := sent s;
     dslText := dslText s |}.

Definition setDslValidationWarnings (v : list DuiDslValidationIssue) (s : AppState) : AppState :=
  {| manifest := manifest s; previewManifest := previewManifest s;
     prompt := prompt s; duiMode := duiMode s; error := error s;
     busy := busy s; revisions := revisions s;
     dslRevisions := dslRevisions s; dslSource := dslSource s;
     dslSourceDirty := dslSourceDirty s; dslDraft := dslDraft s;
     dslWarnings := dslWarnings s;
     dslValidationErrors := dslValidationErrors s;
     dslValidationWarnings := v; dslValidationValid := dslValidationValid s;
     dashboard := dashboard s; activeLesson := activeLesson s;
     pending := pending s; sent := sent s; dslText := dslText s |}.

Definition setDslValidationValid (v : option bool) (s : AppState) : AppState :=
  {| manifest := manifest s; previewManifest := previewManifest s;
     prompt := prompt s; duiMode := duiMode s; error := error s;
     busy := busy s; revisions := revisions s;
     dslRevisions := dslRevisions s; dslSource := dslSource s;
     dslSourceDirty := dslSourceDirty s; dslDraft := dslDraft s;
     dslWarnings := dslWarnings s;
     dslValidationErrors := dslValidationErrors s;
     dslValidationWarnings := dslValidationWarnings s;
     dslValidationValid := v; dashboard := dashboard s;
     activeLesson := activeLesson s; pending := pending s; sent := sent s;
     dslText := dslText s |}.

Definition setDashboard (v : bool) (s : AppState) : AppState :=
  {| manifest := manifest s; previewManifest := previewManifest s;
     prompt := prompt s; duiMode := duiMode s; error := error s;
     busy := busy s; revisions := revisions s;
     dslRevisions := dslRevisions s; dslSource := dslSource s;
     dslSourceDirty := dslSourceDirty s; dslDraft := dslDraft s;
     dslWarnings := dslWarnings s;
     dslValidationErrors := dslValidationErrors s;
     dslValidationWarnings := dslValidationWarnings s;
     dslValidationValid := dslValidationValid s; dashboard := v;
     activeLesson := activeLesson s; pending := pending s; sent := sent s;
     dslText := dslText s |}.

Definition setActiveLesson (v : bool) (s : AppState) : AppState :=
  {| manifest := manifest s; previewManifest := previewManifest s;
     prompt := prompt s; duiMode := duiMode s; error := error s;
     busy := busy s; revisions := revisions s;
     dslRevisions := dslRevisions s; dslSource := dslSource s;
     dslSourceDirty := dslSourceDirty s; dslDraft := dslDraft s;
     dslWarnings := dslWarnings s;
     dslValidationErrors := dslValidationErrors s;
     dslValidationWarnings := dslValidationWarnings s;
     dslValidationValid := dslValidationValid s; dashboard := dashboard s;
     activeLesson := v; pending := pending s; sent := sent s;
     dslText := dslText s |}.

Definition setPending (v : option Pending) (s : AppState) : AppState :=
  {| manifest := manifest s; previewManifest := previewManifest s;
     prompt := prompt s; duiMode := duiMode s; error := error s;
     busy := busy s; revisions := revisions s;
     dslRevisions := dslRevisions s; dslSource := dslSource s;
     dslSourceDirty := dslSourceDirty s; dslDraft := dslDraft s;
     dslWarnings := dslWarnings s;
     dslValidationErrors := dslValidationErrors s;
     dslValidationWarnings := dslValidationWarnings s;
     dslValidationValid := dslValidationValid s; dashboard := dashboard s;
     activeLesson := activeLesson s; pending := v; sent := sent s;
     dslText := dslText s |}.

Definition setSent (v : list Request) (s : AppState) : AppState :=
  {| manifest := manifest s; previewManifest := previewManifest s;
     prompt := prompt s; duiMode := duiMode s; error := error s;
     busy := busy s; revisions := revisions s;
     dslRevisions := dslRevisions s; dslSource := dslSource s;
     dslSourceDirty := dslSourceDirty s; dslDraft := dslDraft s;
     dslWarnings := dslWarnings s;
     dslValidationErrors := dslValidationErrors s;
     dslValidationWarnings := dslValidationWarnings s;
     dslValidationValid := dslValidationValid s; dashboard := dashboard s;
     activeLesson := activeLesson s; pending := pending s; sent := v;
     dslText := dslText s |}.

Definition setDslText (v : DslText.ModuleState) (s : AppState) : AppState :=
  {| manifest := manifest s; previewManifest := previewManifest s;
     prompt := prompt s; duiMode := duiMode s; error := error s;
     busy := busy s; revisions := revisions s;
     dslRevisions := dslRevisions s; dslSource := dslSource s;
     dslSourceDirty := dslSourceDirty s; dslDraft := dslDraft s;
     dslWarnings := dslWarnings s;
     dslValidationErrors := dslValidationErrors s;
     dslValidationWarnings := dslValidationWarnings s;
     dslValidationValid := dslValidationValid s; dashboard := dashboard s;
     activeLesson := activeLesson s; pending := pending s; sent := sent s;
     dslText := v |}.

Definition update (s : AppState) (setters : list (AppState -> AppState)) : AppState :=
  foldl (fun s setter => setter s) s setters.

(** The state [App] starts in; [defaultPrompt] is the text the prompt box is
    preset to. *)
Definition initial (defaultPrompt : string) : AppState :=
  {| manifest := None;
     previewManifest := None;
     prompt := defaultPrompt;
     duiMode := extended;
     error := None;
     busy := false;
     revisions := [];
     dslRevisions := [];
     dslSource := EmptyString;
     dslSourceDirty := false;
     dslDraft := None;
     dslWarnings := [];
     dslValidationErrors := [];
     dslValidationWarnings := [];
     dslValidationValid := None;
     dashboard := false;
     activeLesson := false;
     pending := None;
     sent := [];
     dslText := {| DslText.IDENTIFIER_RE_lastIndex := 0 |} |}.

(** [if (!manifest || !dashboard || !activeLesson) return Loading]: the
    buttons and the editor exist only once all three have arrived. *)
Definition rendered (s : AppState) : bool :=
  match manifest s with
  | Some _ => dashboard s && activeLesson s
  | None => false
  end.

Definition olderRevision (s : AppState) : option Q :=
  match manifest s with
  | None => None
  | Some _ =>
      if length (revisions s) <? 2 then None
      else m_revision <$> (revisions s !! (length (revisions s) - 2))
  end.

(** [!olderRevision]: [null] and the number 0 are falsy. *)
Definition no_olderRevision (s : AppState) : bool :=
  match olderRevision s with
  | None => true
  | Some n => Qeq_bool n 0
  end.

(** The [disabled] attribute of each button. *)
Definition generate_disabled (s : AppState) : bool := busy s.

Definition parse_disabled (s : AppState) : bool :=
  busy s || Js.trim_is_empty (dslSource s).

Definition validate_disabled (s : AppState) : bool :=
  busy s || negb (bool_decide (is_Some (dslDraft s))) || dslSourceDirty s.

Definition commit_disabled (s : AppState) : bool :=
  busy s || negb (bool_decide (is_Some (dslDraft s)))
  || bool_decide (dslValidationValid s = Some false) || dslSourceDirty s.

Definition load_disabled (s : AppState) : bool := busy s.

Definition revert_disabled (s : AppState) : bool := busy s || no_olderRevision s.

Definition resetDslValidationState (s : AppState) : AppState :=
  update s [setDslValidationValid None; setDslValidationErrors []; setDslValidationWarnings []].

Definition applyDslValidationState
    (valid : bool) (errors warnings : list DuiDslValidationIssue) (s : AppState) : AppState :=
  update s [setDslValidationValid (Some valid);
            setDslValidationErrors errors;
            setDslValidationWarnings warnings].

(** [setBusy(true); setError(null);] and the requests sent up to the first
    [await]. *)
Definition start (handler : Pending) (requests : list Request) (s : AppState) : AppState :=
  update s [setBusy true; setError None; setPending (Some handler);
            setSent (sent s ++ requests)].

(** The [finally] block. *)
Definition finish (s : AppState) : AppState :=
  update s [setBusy false; setPending None].

Section Handlers.

Variable String_of_number : Q -> string.

(** [setDslSource(serializeDuiDslDocument(document))] *)
Definition setDslSource_serialized (document : DuiDslDocument) (s : AppState) : AppState :=
  let (text, σ) := DslText.serializeDuiDslDocument String_of_number document (dslText s) in
  update s [setDslSource text; setDslText σ].

Definition handleGenerateDslFromPrompt (s : AppState) : AppState :=
  if Js.trim_is_empty (prompt s) then s
  else start AwaitIntent [dsl_intent_request (prompt s) (duiMode s)] s.

Definition handleParseDslSource (s : AppState) : AppState :=
  if Js.trim_is_empty (dslSource s) then s
  else start AwaitParse [dsl_parse_request (dslSource s)] s.

Definition handleValidateDslDocument (s : AppState) : AppState :=
  match dslDraft s with
  | None => s
  | Some draft => start AwaitValidate [dsl_validate_request draft] s
  end.

Definition handleCommitDslDocument (s : AppState) : AppState :=
  match dslDraft s with
  | None => s
  | Some draft => start AwaitCommit [dsl_commit_request draft "poc-user"] s
  end.

Definition handleLoadCurrentDsl (s : AppState) : AppState :=
  start AwaitLoadCurrent [dsl_current_request; dsl_revisions_request] s.

Definition handleRevertManifest (s : AppState) : AppState :=
  if no_olderRevision s then s
  else
    match olderRevision s with
    | Some target => start AwaitRevert [revert_request target "poc-user"] s
    | None => s
    end.

(** What happens to [App]: a click or an edit, or the promise a handler is
    suspended at settles. *)
Inductive Event :=
| InitialLoadResolved (current : UiManifest) (history : list UiManifest)
    (currentDsl : DuiDslDocument) (dslHistory : list DuiDslDocument)
| InitialLoadRejected (message : string)
| LessonResolved
| ChangePrompt (text : string)
| ChangeMode (mode : DuiMode)
| ChangeDslSource (text : string)
| ClickGenerateDsl
| ClickParseSource
| ClickValidateDsl
| ClickCommitDsl
| ClickLoadCurrentDsl
| ClickRevert
| ClickClearPreview
| IntentResolved (response : DuiDslIntentResponse)
| ParseResolved (response : DuiDslParseResponse)
| ValidateResolved (response : DuiDslValidateResponse)
| CommitResolved (response : DuiDslCommitResponse)
| CommitHistoryResolved (manifestHistory : list UiManifest) (dslHistory : list DuiDslDocument)
| LoadCurrentResolved (currentDsl : DuiDslDocument) (dslHistory : list DuiDslDocument)
| RevertResolved (revertedManifest : UiManifest)
| RevertHistoryResolved (history : list UiManifest)
| Rejected (message : string).

(** A click reaches its handler only when the button is on the page and
    not disabled. *)
Definition click (disabled : AppState -> bool) (handler : AppState -> AppState)
    (s : AppState) : AppState :=
  if rendered s && negb (disabled s) then handler s else s.

Definition step (s : AppState) (e : Event) : AppState :=
  match e, pending s with
  | InitialLoadResolved current history currentDsl dslHistory, _ =>
      match manifest s with
      | Some _ => s
      | None =>
          update s [setManifest (Some current); setRevisions history;
                    setDslDraft (Some currentDsl); setDslSource_serialized currentDsl;
                    setDslSourceDirty false; setDslRevisions dslHistory;
                    setDashboard true]
      end
  | InitialLoadRejected message, _ =>
      match manifest s with
      | Some _ => s
      | None => setError (Some message) s
      end
  | LessonResolved, _ => setActiveLesson true s
  | ChangePrompt text, _ => if rendered s then setPrompt text s else s
  | ChangeMode mode, _ => if rendered s then setDuiMode mode s else s
  | ChangeDslSource text, _ =>
      if rendered s then update s [setDslSource text; setDslSourceDirty true] else s
  | ClickGenerateDsl, _ => click generate_disabled handleGenerateDslFromPrompt s
  | ClickParseSource, _ => click parse_disabled handleParseDslSource s
  | ClickValidateDsl, _ => click validate_disabled handleValidateDslDocument s
  | ClickCommitDsl, _ => click commit_disabled handleCommitDslDocument s
  | ClickLoadCurrentDsl, _ => click load_disabled handleLoadCurrentDsl s
  | ClickRevert, _ => click revert_disabled handleRevertManifest s
  | ClickClearPreview, _ =>
      click (fun _ => false)
        (fun s => update s [setDslWarnings []; resetDslValidationState;
                            setPreviewManifest None]) s
  | IntentResolved response, Some AwaitIntent =>
      update s [setDslDraft (Some (ir_document response));
                setDslSource_serialized (ir_document response);
                setDslSourceDirty false;
                setDslWarnings (ir_warnings response);
                applyDslValidationState
                  (valid (ir_validation_result response))
                  (errors (ir_validation_result response))
                  (warnings (ir_validation_result response));
                setPreviewManifest (ir_preview_manifest response);
                finish]
  | ParseResolved response, Some AwaitParse =>
      update s [setDslDraft (Some (pr_document response));
                setDslSourceDirty false;
                setDslWarnings [];
                applyDslValidationState
                  (valid (pr_validation_result response))
                  (errors (pr_validation_result response))
                  (warnings (pr_validation_result response));
                setPreviewManifest (pr_compiled_manifest response);
                finish]
  | ValidateResolved response, Some AwaitValidate =>
      update s [applyDslValidationState
                  (valid (vr_result response))
                  (errors (vr_result response))
                  (warnings (vr_result response));
                (fun s => match vr_compiled_manifest response with
                          | Some compiled => setPreviewManifest (Some compiled) s
                          | None => s
                          end);
                finish]
  | CommitResolved response, Some AwaitCommit =>
      update s [setManifest (Some (cr_manifest response));
                setPreviewManifest None;
                setDslDraft (Some (cr_document response));
                setDslSource_serialized (cr_document response);
                setDslSourceDirty false;
                setDslWarnings [];
                resetDslValidationState;
                setPending (Some AwaitCommitHistory);
                (fun s => setSent (sent s ++ [manifest_revisions_request; dsl_revisions_request]) s)]
  | CommitHistoryResolved manifestHistory dslHistory, Some AwaitCommitHistory =>
      update s [setRevisions manifestHistory; setDslRevisions dslHistory; finish]
  | LoadCurrentResolved currentDsl dslHistory, Some AwaitLoadCurrent =>
      update s [setDslDraft (Some currentDsl);
                setDslSource_serialized currentDsl;
                setDslSourceDirty false;
                setDslWarnings [];
                resetDslValidationState;
                setDslRevisions dslHistory;
                setPreviewManifest None;
                finish]
  | RevertResolved revertedManifest, Some AwaitRevert =>
      update s [setManifest (Some revertedManifest);
                setPreviewManifest None;
                setPending (Some AwaitRevertHistory);
                (fun s => setSent (sent s ++ [manifest_revisions_request]) s)]
  | RevertHistoryResolved history, Some AwaitRevertHistory =>
      update s [setRevisions history; finish]
  | Rejected message, Some _ =>
      update s [setError (Some message); finish]
  | _, _ => s
  end.

(** The state after a sequence of events. *)
Definition run (s : AppState) (events : list Event) : AppState :=
  foldl step s events.

End Handlers.

End Workbench.

(** ** The Patch/Revision Engine

    The engine runs in the backend; the frontend only sends it envelopes
    ([revertRevision], [commitDslDocument] in [api.ts]). *)

Module RevisionEngine.

(** Modelled from the spec: the status of a Revision, section 3,
    "status: draft|committed|rejected"; the backend type is not among the
    sources. *)
Inductive RevisionStatus := draft | committed | rejected.

(** Modelled from the spec: the Revision record of section 3, "an immutable
    snapshot {document, compiled_manifest_hash?, status, created_at} keyed
    by (surface_id, revision_number)"; the backend type is not among the
    sources. *)
Record Revision := {
  rev_document : DuiDslDocument;
  rev_compiled_manifest_hash : option string;
  rev_status : RevisionStatus;
  rev_created_at : string;
}.

(** Modelled from the spec: the RevisionStore of section 9, "arena of
    immutable revisions + an index of current pointer per surface key"; the
    backend store is not among the sources. *)
Record RevisionStore := {
  arena : gmap (string * nat) Revision;
  current : gmap string nat;
}.

(** Modelled from the spec: section 3, "document_id is stable across
    revisions of the same lineage, revision is the version axis"; the backend
    code that renumbers a document is not among the sources.  The document
    with its [meta.revision] replaced. *)
Definition with_revision (n : nat) (d : DuiDslDocument) : DuiDslDocument :=
  {| dsl_version := dsl_version d;
     surface := surface d;
     meta := {| document_id := document_id (meta d);
                revision := inject_Z (Z.of_nat n);
                created_at := created_at (meta d);
                created_by := created_by (meta d) |};
     theme := theme d;
     state := state d;
     nodes := nodes d;
     bindings := bindings d;
     actions := actions d;
     layout_constraints := layout_constraints d |}.

(** Modelled from the spec: the "Document content" that section 4.4
    compares across revisions, which the backend does not expose to the
    sources: the document without its revision number. *)
Definition content (d : DuiDslDocument) : DuiDslDocument := with_revision 0 d.

(** Modelled from the spec: section 5, "reads of historical revisions";
    the backend query is not among the sources. *)
Definition get_revision (store : RevisionStore) (surface_id : string) (n : nat) : option Revision :=
  arena store !! (surface_id, n).

(** Modelled from the spec: section 3, "meta.revision strictly increases
    per surface", as a property of the store the backend keeps: every stored
    revision of a surface is numbered at most its current revision, which is
    stored. *)
Definition well_formed (store : RevisionStore) : Prop :=
  (forall surface_id n revision,
      arena store !! (surface_id, n) = Some revision ->
      exists N, current store !! surface_id = Some N /\ n <= N)
  /\ (forall surface_id N,
      current store !! surface_id = Some N -> is_Some (arena store !! (surface_id, N))).

(** Modelled from the spec: section 4.4, "commit(document, approved_by) ->
    Revision stores the new immutable revision, incrementing meta.revision";
    the backend function is not among the sources.  On a surface without a
    document the first revision is number 1. *)
Definition commit (store : RevisionStore) (surface_id : string)
    (document : DuiDslDocument) (now : string) : Revision * RevisionStore :=
  let N := default 0 (current store !! surface_id) in
  let revision :=
    {| rev_document := with_revision (S N) document;
       rev_compiled_manifest_hash := None;
       rev_status := committed;
       rev_created_at := now |} in
  (revision,
   {| arena := <[(surface_id, S N) := revision]> (arena store);
      current := <[surface_id := S N]> (current store) |}).

(** Modelled from the spec: section 4.4, "revert(target_revision) ->
    Revision creates a new revision whose Document content equals
    target_revision's; it never deletes intervening history"; the backend
    function is not among the sources. *)
Definition revert (store : RevisionStore) (surface_id : string)
    (target_revision : nat) (now : string) : option (Revision * RevisionStore) :=
  target ← arena store !! (surface_id, target_revision);
  Some (commit store surface_id (rev_document target) now).

(** *** Patch application *)

(** Modelled from the spec: the reasons of section 4.4, "unresolved
    reference, deleting a protected node, exceeding a catalog limit", and
    the rejection by the Validator; the backend type is not among the
    sources. *)
Inductive PatchReason :=
| UnresolvedReference
| ProtectedNode
| LimitExceeded
| ValidationFailed.

(** Modelled from the spec: the failures of [apply] in sections 4.4 and 7,
    [PatchError{op_index, reason}] and [ConcurrencyConflict]; the backend
    type is not among the sources. *)
Inductive ApplyFailure :=
| PatchError (op_index : nat) (reason : PatchReason)
| ConcurrencyConflict.

(** Modelled from the spec: section 9, the "current pointer" of a surface
    with the document it points to; the backend state is not among the
    sources. *)
Record SurfaceState := {
  current_document : DuiDslDocument;
  current_revision : nat;
}.

Section Apply.

(** The patch operations, what one of them does to a document (or why it
    cannot be applied), and the Validator's verdict come from the backend. *)
Variable PatchOp : Type.
Variable apply_op : DuiDslDocument -> PatchOp -> DuiDslDocument + PatchReason.
Variable validate : DuiDslDocument -> bool.

(** Modelled from the spec: section 4.4, "any op failing ... aborts the
    whole batch with PatchError{op_index, reason}"; the backend function is
    not among the sources.  The operations run in order on a working copy. *)
Fixpoint apply_ops (working : DuiDslDocument) (ops : list PatchOp) (op_index : nat)
  : DuiDslDocument + ApplyFailure :=
  match ops with
  | [] => inl working
  | op :: rest =>
      match apply_op working op with
      | inl working' => apply_ops working' rest (S op_index)
      | inr reason => inr (PatchError op_index reason)
      end
  end.

(** Modelled from the spec: section 4.4, "apply(current_document, ops,
    expected_base_revision) -> Result<Document, PatchError>" with its
    guarantees of atomicity, post-condition re-validation and optimistic
    concurrency; the backend function is not among the sources.  A batch the
    Validator rejects as a unit is reported at the index after its last
    operation. *)
Definition apply (stored : SurfaceState) (ops : list PatchOp) (expected_base_revision : nat)
  : (DuiDslDocument + ApplyFailure) * SurfaceState :=
  if negb (expected_base_revision =? current_revision stored) then
    (inr ConcurrencyConflict, stored)
  else
    match apply_ops (current_document stored) ops 0 with
    | inl result =>
        if validate result then (inl result, stored)
        else (inr (PatchError (length ops) ValidationFailed), stored)
    | inr failure => (inr failure, stored)
    end.

End Apply.

End RevisionEngine.

(** * Properties *)

(** ** The regular expression behind [isIdentifier] *)

Section IdentifierPattern.

(** The pattern [^[A-Za-z_][A-Za-z0-9_.-]*$] read out in words: a first
    code unit that is a letter or an underscore, then letters, digits,
    underscores, dots and hyphens up to the end. *)
Definition name_start (c : ascii) : Prop :=
  let n := nat_of_ascii c in
  65 <= n <= 90 \/ 97 <= n <= 122 \/ n = 95.

Definition name_char (c : ascii) : Prop :=
  let n := nat_of_ascii c in
  65 <= n <= 90 \/ 97 <= n <= 122 \/ 48 <= n <= 57 \/ n = 95 \/ n = 46 \/ n = 45.

Inductive all_name_chars : string -> Prop :=
| all_name_chars_nil : all_name_chars EmptyString
| all_name_chars_cons c rest :
    name_char c -> all_name_chars rest -> all_name_chars (String c rest).

Definition matches_identifier_pattern (s : string) : Prop :=
  exists c rest, s = String c rest /\ name_start c /\ all_name_chars rest.

Definition head_class : Js.CharClass :=
  [Js.CRange "A" "Z"; Js.CRange "a" "z"; Js.CChar "_"]%char.

Definition tail_class : Js.CharClass :=
  [Js.CRange "A" "Z"; Js.CRange "a" "z"; Js.CRange "0" "9";
   Js.CChar "_"; Js.CChar "."; Js.CChar "-"]%char.

Lemma in_head_class c : Js.in_class head_class c = true <-> name_start c.
Proof.
  unfold Js.in_class, head_class, name_start; cbn.
  rewrite !orb_true_iff, !andb_true_iff, !Nat.leb_le, Nat.eqb_eq.
  intuition discriminate.
Qed.

Lemma in_tail_class c : Js.in_class tail_class c = true <-> name_char c.
Proof.
  unfold Js.in_class, tail_class, name_char; cbn.
  rewrite !orb_true_iff, !andb_true_iff, !Nat.leb_le, !Nat.eqb_eq.
  intuition discriminate.
Qed.

(** The greedy star followed by [$]: it succeeds exactly when the whole
    rest of the input lies in the class. *)
Lemma star_to_end (b : bool) (s : string) :
  is_Some (Js.match_here [Js.AClassStar tail_class; Js.AssertEnd] b s) <-> all_name_chars s.
Proof.
  revert b. induction s as [|c s IH]; intros b.
  - cbn. split; [constructor | eauto].
  - change (Js.match_here [Js.AClassStar tail_class; Js.AssertEnd] b (String c s))
      with (if Js.in_class tail_class c then
              match Js.match_here [Js.AClassStar tail_class; Js.AssertEnd] false s with
              | Some n => Some (S n)
              | None => None
              end
            else None).
    destruct (Js.in_class tail_class c) eqn:Hc.
    + apply in_tail_class in Hc. specialize (IH false).
      destruct (Js.match_here _ false s).
      * split; [intros _; constructor; [done | apply IH; eauto] | eauto].
      * split; [intros [? ?]; done |].
        inversion 1; subst. apply IH in H3 as [? ?]. done.
    + split; [intros [? ?]; done |].
      inversion 1; subst. apply in_tail_class in H2. congruence.
Qed.

Lemma match_at_start (s : string) :
  is_Some (Js.match_here DslText.IDENTIFIER_RE_source true s) <-> matches_identifier_pattern s.
Proof.
  destruct s as [|c s].
  - cbn. split; [intros [? ?]; done | intros (? & ? & ? & _); done].
  - change (Js.match_here DslText.IDENTIFIER_RE_source true (String c s))
      with (if Js.in_class head_class c then
              S <$> Js.match_here [Js.AClassStar tail_class; Js.AssertEnd] false s
            else None).
    destruct (Js.in_class head_class c) eqn:Hc.
    + apply in_head_class in Hc. rewrite fmap_is_Some, star_to_end.
      split; [intros ?; exists c, s; done |].
      intros (? & ? & [= <- <-] & _ & ?). done.
    + split; [intros [? ?]; done |].
      intros (? & ? & [= <- <-] & Hs & _). apply in_head_class in Hs. congruence.
Qed.

(** Past index 0 the anchor [^] rules every start index out. *)
Lemma search_past_start (i : nat) (s : string) :
  Js.search DslText.IDENTIFIER_RE_source false (S i) s = None.
Proof.
  revert i. induction s as [|c s IH]; intros i; cbn; [done | apply IH].
Qed.

Lemma search_identifier (s : string) :
  is_Some (Js.search DslText.IDENTIFIER_RE_source false 0 s) <-> matches_identifier_pattern s.
Proof.
  rewrite <- match_at_start.
  destruct s as [|c s]; unfold Js.search; fold Js.search.
  - change (0 =? 0) with true.
    destruct (Js.match_here _ true EmptyString); split; intros [? ?]; done || eauto.
  - change (0 =? 0) with true. rewrite search_past_start.
    destruct (Js.match_here _ true (String c s)); split; intros [? ?]; done || eauto.
Qed.

#[global] Instance matches_identifier_pattern_dec (s : string) :
  Decision (matches_identifier_pattern s).
Proof.
  destruct (decide (is_Some (Js.search DslText.IDENTIFIER_RE_source false 0 s)));
    [left | right]; by rewrite <- search_identifier.
Defined.

End IdentifierPattern.

(** ** The printer neither reads nor changes the module state *)

Section Stateless.

Import DslText.

Definition σ0 : ModuleState := {| IDENTIFIER_RE_lastIndex := 0 |}.

(** The value a computation delivers from the initial module state. *)
Definition value_of {A : Type} (m : M A) : A := (m σ0).1.

(** A computation that delivers the same value from every module state and
    leaves the state as it found it. *)
Definition stateless {A : Type} (m : M A) : Prop :=
  forall σ, m σ = (value_of m, σ).

Lemma stateless_ret {A : Type} (a : A) : stateless (ret a).
Proof. done. Qed.

Lemma value_of_ret {A : Type} (a : A) : value_of (ret a) = a.
Proof. done. Qed.

Lemma value_of_bind {A B : Type} (m : M A) (k : A -> M B) :
  stateless m -> value_of (bind m k) = value_of (k (value_of m)).
Proof. intros Hm. unfold value_of at 1, bind. by rewrite (Hm σ0). Qed.

Lemma stateless_bind {A B : Type} (m : M A) (k : A -> M B) :
  stateless m -> (forall a, stateless (k a)) -> stateless (bind m k).
Proof.
  intros Hm Hk σ. rewrite value_of_bind by done.
  unfold bind. rewrite (Hm σ). apply Hk.
Qed.

Lemma stateless_mapM {A B : Type} (f : A -> M B) (l : list A) :
  Forall (fun x => stateless (f x)) l -> stateless (mapM f l).
Proof.
  induction 1 as [|x l Hx _ IH]; [apply stateless_ret |].
  change (mapM f (x :: l))
    with (bind (f x) (fun y => bind (mapM f l) (fun ys => ret (y :: ys)))).
  apply stateless_bind; [done |]. intros y.
  apply stateless_bind; [done |]. intros ys. apply stateless_ret.
Qed.

Lemma value_of_mapM {A B : Type} (f : A -> M B) (l : list A) :
  Forall (fun x => stateless (f x)) l ->
  value_of (mapM f l) = (fun x => value_of (f x)) <$> l.
Proof.
  induction 1 as [|x l Hx Hl IH]; [done |].
  change (mapM f (x :: l))
    with (bind (f x) (fun y => bind (mapM f l) (fun ys => ret (y :: ys)))).
  rewrite value_of_bind by done.
  rewrite value_of_bind by by apply stateless_mapM.
  by rewrite value_of_ret, IH.
Qed.

(** [IDENTIFIER_RE] carries neither the [g] nor the [y] flag: [test] starts
    at index 0 whatever [lastIndex] holds, and does not write it. *)
Lemma IDENTIFIER_RE_test (σ : ModuleState) (value : string) :
  Js.RegExp_test (IDENTIFIER_RE σ) value
  = (bool_decide (is_Some (Js.search IDENTIFIER_RE_source false 0 value)), IDENTIFIER_RE σ).
Proof.
  unfold Js.RegExp_test; cbn [Js.global Js.sticky Js.source IDENTIFIER_RE orb].
  change (String.length value <? 0) with false. cbn [Js.string_drop].
  by destruct (Js.search IDENTIFIER_RE_source false 0 value).
Qed.

Lemma isIdentifier_run (value : string) (σ : ModuleState) :
  isIdentifier value σ
  = (bool_decide (matches_identifier_pattern value)
     && negb (bool_decide (value ∈ RESERVED_WORDS)), σ).
Proof.
  unfold isIdentifier. rewrite IDENTIFIER_RE_test. destruct σ as [i]. cbn.
  f_equal. f_equal. apply bool_decide_ext, search_identifier.
Qed.

Lemma stateless_isIdentifier (value : string) : stateless (isIdentifier value).
Proof. intros σ. unfold value_of. by rewrite !isIdentifier_run. Qed.

Lemma stateless_formatIdentifier (value : string) : stateless (formatIdentifier value).
Proof.
  apply stateless_bind; [apply stateless_isIdentifier |].
  intros []; apply stateless_ret.
Qed.

Lemma stateless_formatKey (value : string) : stateless (formatKey value).
Proof. apply stateless_formatIdentifier. Qed.

End Stateless.

Create HintDb stateless discriminated.

#[global] Hint Resolve stateless_ret stateless_isIdentifier stateless_formatIdentifier
  stateless_formatKey : stateless.

(** Peel a monadic term: a bind, a return, or a branch on data. *)
Ltac stateless_step :=
  match goal with
  | |- stateless (DslText.bind _ _) => apply stateless_bind; [| intros ?]
  | |- stateless (DslText.ret _) => apply stateless_ret
  | |- stateless (if ?b then _ else _) => destruct b
  | |- stateless (match ?x with Some _ => _ | None => _ end) => destruct x
  | |- stateless (DslText.mapM _ _) => apply stateless_mapM
  | |- _ => solve [eauto with stateless]
  end.

Section StatelessPrinter.

Import DslText.

Variable String_of_number : Q -> string.

Lemma stateless_formatArray_body (fv : JsonValue -> nat -> M string) values indentLevel :
  Forall (fun value => forall i, stateless (fv value i)) values ->
  stateless (formatArray_body fv values indentLevel).
Proof.
  intros Hvalues. unfold formatArray_body.
  repeat stateless_step.
  - eapply Forall_impl; [exact Hvalues |]. intros value Hvalue. apply Hvalue.
  - eapply Forall_impl; [exact Hvalues |]. intros value Hvalue. cbn beta.
    repeat stateless_step.
Qed.

Lemma stateless_formatObject_body (fv : JsonValue -> nat -> M string) input indentLevel :
  Forall (fun entry : string * JsonValue => forall i, stateless (fv entry.2 i)) input ->
  stateless (formatObject_body fv input indentLevel).
Proof.
  intros Hentries. unfold formatObject_body, Object_entries.
  repeat stateless_step.
  - eapply Forall_impl; [exact Hentries |]. intros entry Hentry. cbn beta.
    repeat stateless_step.
  - eapply Forall_impl; [exact Hentries |]. intros entry Hentry. cbn beta.
    repeat stateless_step.
Qed.

Lemma stateless_formatValue value :
  forall indentLevel, stateless (formatValue String_of_number value indentLevel).
Proof.
  induction value as [| s | n | b | values IH | entries IH] using JsonValue_ind;
    intros indentLevel; cbn [formatValue].
  - apply stateless_ret.
  - repeat stateless_step.
  - apply stateless_ret.
  - apply stateless_ret.
  - by apply stateless_formatArray_body.
  - by apply stateless_formatObject_body.
Qed.

Lemma stateless_formatArray values indentLevel :
  stateless (formatArray String_of_number values indentLevel).
Proof.
  apply stateless_formatArray_body, Forall_forall.
  intros value _ i. apply stateless_formatValue.
Qed.

Lemma stateless_formatObject input indentLevel :
  stateless (formatObject String_of_number input indentLevel).
Proof.
  apply stateless_formatObject_body, Forall_forall.
  intros entry _ i. apply stateless_formatValue.
Qed.

#[local] Hint Resolve stateless_formatValue stateless_formatArray stateless_formatObject
  : stateless.

Lemma stateless_pushOptionalObjectBlock lines label value indentLevel :
  stateless (pushOptionalObjectBlock String_of_number lines label value indentLevel).
Proof. unfold pushOptionalObjectBlock. repeat stateless_step. Qed.

#[local] Hint Resolve stateless_pushOptionalObjectBlock : stateless.

Lemma stateless_push_action lines action :
  stateless (push_action String_of_number lines action).
Proof. unfold push_action. repeat stateless_step. Qed.

Lemma stateless_push_node lines node :
  stateless (push_node String_of_number lines node).
Proof. unfold push_node. repeat stateless_step. Qed.

Lemma stateless_push_binding lines binding :
  stateless (push_binding String_of_number lines binding).
Proof. unfold push_binding. repeat stateless_step. Qed.

Lemma stateless_for_of {A : Type} (body : list string -> A -> M (list string)) items :
  (forall lines item, stateless (body lines item)) ->
  forall lines, stateless (for_of body items lines).
Proof.
  intros Hbody. induction items as [|item rest IH]; intros lines.
  - apply stateless_ret.
  - change (for_of body (item :: rest) lines)
      with (bind (body lines item) (fun lines => for_of body rest lines)).
    apply stateless_bind; [apply Hbody | apply IH].
Qed.

Lemma stateless_serialize_lines document :
  stateless (serialize_lines String_of_number document).
Proof.
  unfold serialize_lines.
  repeat first
    [ apply stateless_for_of;
      [ first [ apply stateless_push_action | apply stateless_push_node
              | apply stateless_push_binding ] ]
    | stateless_step ].
Qed.

Lemma stateless_serializeDuiDslDocument document :
  stateless (serializeDuiDslDocument String_of_number document).
Proof.
  unfold serializeDuiDslDocument.
  apply stateless_bind; [apply stateless_serialize_lines | intros; apply stateless_ret].
Qed.

End StatelessPrinter.

#[global] Hint Resolve stateless_formatValue stateless_formatArray stateless_formatObject
  stateless_pushOptionalObjectBlock stateless_push_action stateless_push_node
  stateless_push_binding stateless_serialize_lines : stateless.

(** ** Determinism of the printer *)

Section Determinism.

Import DslText.

Variable String_of_number : Q -> string.

(** C2. The pretty-printer is deterministic: whatever the module state
    (the [lastIndex] of [IDENTIFIER_RE]) two calls start from, they return
    the same text for the same document; in particular a second call, run
    from the state the first one left, repeats the text of the first. *)
Theorem serializeDuiDslDocument_deterministic
    (document : DuiDslDocument) (σ1 σ2 : ModuleState) :
  (serializeDuiDslDocument String_of_number document σ1).1
  = (serializeDuiDslDocument String_of_number document σ2).1
  /\ (serializeDuiDslDocument String_of_number document
        (serializeDuiDslDocument String_of_number document σ1).2).1
     = (serializeDuiDslDocument String_of_number document σ1).1.
Proof.
  pose proof (stateless_serializeDuiDslDocument String_of_number document) as H.
  by rewrite !H.
Qed.

End Determinism.

(** ** Quoting of string values *)

Section Quoting.

Import DslText.

Variable String_of_number : Q -> string.

Definition reserved_word (s : string) : Prop :=
  s = "true" \/ s = "false" \/ s = "null".

Lemma RESERVED_WORDS_has (s : string) : s ∈ RESERVED_WORDS <-> reserved_word s.
Proof.
  unfold RESERVED_WORDS, reserved_word.
  rewrite !elem_of_union, !elem_of_singleton. tauto.
Qed.

Lemma string_length_app (s1 s2 : string) :
  String.length (s1 +:+ s2) = String.length s1 + String.length s2.
Proof. induction s1 as [|c s1 IH]; simpl; [done | by f_equal]. Qed.

Lemma JSON_escape_length (c : ascii) : 1 <= String.length (Js.JSON_escape c).
Proof.
  unfold Js.JSON_escape.
  repeat match goal with |- context [if ?b then _ else _] => destruct b end;
    unfold Js.backslash, Js.dquote; simpl; lia.
Qed.

Lemma JSON_escape_all_length (s : string) :
  String.length s <= String.length (Js.JSON_escape_all s).
Proof.
  induction s as [|c s IH]; cbn [Js.JSON_escape_all String.length]; [lia |].
  rewrite string_length_app. pose proof (JSON_escape_length c). lia.
Qed.

(** A JSON string literal is never the string it quotes. *)
Lemma JSON_stringify_quotes (s : string) : Js.JSON_stringify s <> s.
Proof.
  intros H. apply (f_equal String.length) in H. revert H.
  unfold Js.JSON_stringify. rewrite !string_length_app.
  pose proof (JSON_escape_all_length s). cbn. lia.
Qed.

(** C10. A string value is printed bare exactly when it matches
    [^[A-Za-z_][A-Za-z0-9_.-]*$] and is none of [true], [false], [null];
    any other string is printed as its JSON string literal, which differs
    from the string itself by its quotes. *)
Theorem formatValue_string_quoting (s : string) (indentLevel : nat) (σ : ModuleState) :
  let printed := (formatValue String_of_number (JString s) indentLevel σ).1 in
  (matches_identifier_pattern s /\ ~ reserved_word s /\ printed = s)
  \/ (~ (matches_identifier_pattern s /\ ~ reserved_word s)
      /\ printed = Js.dquote +:+ Js.JSON_escape_all s +:+ Js.dquote
      /\ printed <> s).
Proof.
  cbn [formatValue]. unfold bind. rewrite isIdentifier_run.
  destruct (decide (matches_identifier_pattern s)) as [Hm | Hm];
    destruct (decide (s ∈ RESERVED_WORDS)) as [Hr | Hr];
    rewrite ?(bool_decide_eq_true_2 _ Hm), ?(bool_decide_eq_false_2 _ Hm),
      ?(bool_decide_eq_true_2 _ Hr), ?(bool_decide_eq_false_2 _ Hr);
    cbn; rewrite RESERVED_WORDS_has in Hr.
  - right. split; [tauto |]. split; [done | apply JSON_stringify_quotes].
  - left. done.
  - right. split; [tauto |]. split; [done | apply JSON_stringify_quotes].
  - right. split; [tauto |]. split; [done | apply JSON_stringify_quotes].
Qed.

End Quoting.

(** ** The order of the blocks the printer emits *)

(** The blocks of the sugar syntax, each opened by a line that carries its
    keyword one indentation step in. *)
Inductive BlockKind :=
| surface_meta_block
| meta_block
| theme_block
| layout_constraints_block
| state_block
| action_block
| node_block
| binding_block.

Fixpoint starts_with (keyword line : string) : bool :=
  match keyword with
  | EmptyString => true
  | String a keyword' =>
      match line with
      | EmptyString => false
      | String b line' => Ascii.eqb a b && starts_with keyword' line'
      end
  end.

Definition block_of_line (line : string) : option BlockKind :=
  if starts_with "  surface_meta " line then Some surface_meta_block
  else if starts_with "  meta " line then Some meta_block
  else if starts_with "  theme " line then Some theme_block
  else if starts_with "  layout_constraints " line then Some layout_constraints_block
  else if starts_with "  state " line then Some state_block
  else if starts_with "  action " line then Some action_block
  else if starts_with "  node " line then Some node_block
  else if starts_with "  binding " line then Some binding_block
  else None.

(** The blocks a printed document opens, in the order of their lines. *)
Definition blocks (lines : list string) : list BlockKind := omap block_of_line lines.

(** The place of a block in the grammar of the architecture document,
    [surface ident { meta theme state? node+ binding* action* }]; the grammar
    names neither [surface_meta] nor [layout_constraints]. *)
Definition grammar_rank (k : BlockKind) : option nat :=
  match k with
  | meta_block => Some 0
  | theme_block => Some 1
  | state_block => Some 2
  | node_block => Some 3
  | binding_block => Some 4
  | action_block => Some 5
  | surface_meta_block | layout_constraints_block => None
  end.

Fixpoint nondecreasing (ranks : list nat) : bool :=
  match ranks with
  | a :: (b :: _) as rest => (a <=? b) && nondecreasing rest
  | _ => true
  end.

(** The blocks the grammar names come in the grammar's order. *)
Definition in_grammar_order (bs : list BlockKind) : bool :=
  nondecreasing (omap grammar_rank bs).

(** The order the printer follows. *)
Definition printed_block_order (document : DuiDslDocument) : list BlockKind :=
  [surface_meta_block; meta_block; theme_block]
  ++ (if length (layout_constraints document) =? 0 then [] else [layout_constraints_block])
  ++ (if length (locals (state document)) =? 0 then [] else [state_block])
  ++ replicate (length (actions document)) action_block
  ++ replicate (length (nodes document)) node_block
  ++ replicate (length (bindings document)) binding_block.

Lemma blocks_app (lines1 lines2 : list string) :
  blocks (lines1 ++ lines2) = blocks lines1 ++ blocks lines2.
Proof. apply omap_app. Qed.

Lemma blocks_snoc_inner (lines : list string) (line : string) :
  block_of_line line = None -> blocks (lines ++ [line]) = blocks lines.
Proof. intros H. rewrite blocks_app. cbn. rewrite H. apply app_nil_r. Qed.

Lemma blocks_snoc_block (lines : list string) (line : string) (k : BlockKind) :
  block_of_line line = Some k -> blocks (lines ++ [line]) = blocks lines ++ [k].
Proof. intros H. rewrite blocks_app. cbn. by rewrite H. Qed.

(** Rewrite the value a monadic term delivers, one bind or branch at a
    time. *)
Ltac value_step :=
  first
    [ rewrite value_of_bind by (repeat stateless_step)
    | rewrite value_of_ret
    | rewrite blocks_snoc_inner by reflexivity
    | match goal with
      | |- context [value_of (if ?b then _ else _)] => destruct b
      | |- context [value_of (match ?x with Some _ => _ | None => _ end)] => destruct x
      end ].

Section BlockOrder.

Import DslText.

Variable String_of_number : Q -> string.

Lemma value_of_pushOptionalObjectBlock lines label value indentLevel :
  value_of (pushOptionalObjectBlock String_of_number lines label value indentLevel)
  = lines ++
    (if length (Object_keys value) =? 0 then []
     else [Js.String_repeat INDENT indentLevel +:+ label +:+ " "
           +:+ value_of (formatObject String_of_number value indentLevel)]).
Proof.
  unfold pushOptionalObjectBlock.
  destruct (length (Object_keys value) =? 0).
  - by rewrite value_of_ret, app_nil_r.
  - by rewrite value_of_bind, value_of_ret by eauto with stateless.
Qed.

(** A block pushed two steps in opens none of the blocks of the surface. *)
Lemma blocks_pushOptionalObjectBlock_inner lines label value :
  blocks (value_of (pushOptionalObjectBlock String_of_number lines label value 2))
  = blocks lines.
Proof.
  rewrite value_of_pushOptionalObjectBlock.
  destruct (length (Object_keys value) =? 0); [by rewrite app_nil_r |].
  by apply blocks_snoc_inner.
Qed.

Lemma blocks_push_action lines action :
  blocks (value_of (push_action String_of_number lines action))
  = blocks lines ++ [action_block].
Proof.
  unfold push_action. repeat value_step.
  rewrite blocks_pushOptionalObjectBlock_inner.
  repeat value_step.
  rewrite (blocks_snoc_block _ _ action_block) by reflexivity.
  by repeat value_step.
Qed.

Lemma blocks_push_node lines node :
  blocks (value_of (push_node String_of_number lines node))
  = blocks lines ++ [node_block].
Proof.
  unfold push_node.
  repeat first [ rewrite blocks_pushOptionalObjectBlock_inner | value_step ].
  all: rewrite (blocks_snoc_block _ _ node_block) by reflexivity.
  all: by repeat value_step.
Qed.

Lemma blocks_push_binding lines binding :
  blocks (value_of (push_binding String_of_number lines binding))
  = blocks lines ++ [binding_block].
Proof.
  unfold push_binding.
  repeat first [ rewrite blocks_pushOptionalObjectBlock_inner | value_step ].
  rewrite (blocks_snoc_block _ _ binding_block) by reflexivity.
  by repeat value_step.
Qed.

Lemma blocks_for_of {A : Type} (body : list string -> A -> M (list string))
    (k : BlockKind) (items : list A) :
  (forall lines item, stateless (body lines item)) ->
  (forall lines item, blocks (value_of (body lines item)) = blocks lines ++ [k]) ->
  forall lines,
    blocks (value_of (for_of body items lines))
    = blocks lines ++ replicate (length items) k.
Proof.
  intros Hstateless Hbody. induction items as [|item rest IH]; intros lines.
  - cbn. by rewrite app_nil_r.
  - change (for_of body (item :: rest) lines)
      with (bind (body lines item) (fun lines => for_of body rest lines)).
    rewrite value_of_bind by done. rewrite IH, Hbody. cbn. by rewrite <- app_assoc.
Qed.

Lemma blocks_serialize_lines document :
  blocks (value_of (serialize_lines String_of_number document))
  = printed_block_order document.
Proof.
  unfold serialize_lines, printed_block_order.
  rewrite !value_of_bind by
    (repeat first [ apply stateless_for_of; intros | stateless_step ]).
  rewrite value_of_ret, blocks_snoc_inner by reflexivity.
  rewrite (blocks_for_of _ binding_block), (blocks_for_of _ node_block),
    (blocks_for_of _ action_block)
    by (intros; first [ apply stateless_push_binding | apply blocks_push_binding
                      | apply stateless_push_node | apply blocks_push_node
                      | apply stateless_push_action | apply blocks_push_action ]).
  rewrite !value_of_pushOptionalObjectBlock, !blocks_app.
  unfold Object_keys. rewrite !length_fmap.
  rewrite <- !app_assoc. f_equal; [| f_equal].
  - destruct (length (tokens (theme document)) =? 0);
      by rewrite !value_of_bind, value_of_ret by eauto with stateless.
  - by destruct (length (layout_constraints document) =? 0).
  - f_equal. by destruct (length (locals (state document)) =? 0).
Qed.

(** C3 (as the code has it). The lines the printer pushes open the blocks
    in this order: [surface_meta], [meta], [theme], [layout_constraints] if
    there are any, [state] if there are locals, then every [action], then
    every [node], then every [binding]; the text is those lines joined by
    line feeds. *)
Theorem serializeDuiDslDocument_block_order (document : DuiDslDocument) (σ : ModuleState) :
  let lines := (serialize_lines String_of_number document σ).1 in
  blocks lines = printed_block_order document
  /\ (serializeDuiDslDocument String_of_number document σ).1
     = Js.Array_join Js.newline lines +:+ Js.newline.
Proof.
  cbn zeta. rewrite (stateless_serialize_lines String_of_number document σ). cbn [fst].
  split; [apply blocks_serialize_lines |].
  unfold serializeDuiDslDocument, bind.
  by rewrite (stateless_serialize_lines String_of_number document σ).
Qed.

End BlockOrder.

(** ** What the printed text keeps of a document *)

(** A small dashboard document in the shape of the README example. *)
Definition sample_action : DuiDslAction :=
  {| action_id := "act_open_lesson";
     action_type := "nav.open_route";
     params := [("route", JString "/lesson")] |}.

Definition sample_root : DuiDslNode :=
  {| node_id := "root";
     node_type := "layout.page";
     props := [];
     style := [];
     layout := [];
     a11y := [];
     visible_when := None;
     enabled_when := None;
     children := ["course_progress"];
     slots := [];
     on := [] |}.

Definition sample_widget : DuiDslNode :=
  {| node_id := "course_progress";
     node_type := "data.kpi_card";
     props := [("title", JString "Progress"); ("zone", JString "header");
               ("capability_id", JString "math.progress_overview");
               ("protected", JBoolean true)];
     style := [];
     layout := [];
     a11y := [];
     visible_when := None;
     enabled_when := None;
     children := [];
     slots := [];
     on := [("click", "act_open_lesson")] |}.

Definition sample_document (created : string) : DuiDslDocument :=
  {| dsl_version := "1.0";
     surface := {| surface_id := "math_lms.dashboard";
                   surface_title := "Dashboard";
                   surface_route := "/" |};
     meta := {| document_id := "doc-math-dashboard";
                revision := 1;
                created_at := created;
                created_by := "seed" |};
     theme := {| profile := minimal; density := compact;
                 tokens := [("accent", "#111111")] |};
     state := {| locals := [] |};
     nodes := [sample_root; sample_widget];
     bindings := [];
     actions := [sample_action];
     layout_constraints := [] |}.

(** The text of a document, printed from the initial module state. *)
Definition print (document : DuiDslDocument) : string :=
  value_of (DslText.serializeDuiDslDocument Js.String_of_integer document).

(** A node as far as the printer tells it apart: an empty [visible_when] or
    [enabled_when] prints like an absent one. *)
Definition printed_condition (cond : option JsObject) : option JsObject :=
  match cond with
  | Some [] => None
  | _ => cond
  end.

Definition printed_node (node : DuiDslNode) : DuiDslNode :=
  {| node_id := node_id node;
     node_type := node_type node;
     props := props node;
     style := style node;
     layout := layout node;
     a11y := a11y node;
     visible_when := printed_condition (visible_when node);
     enabled_when := printed_condition (enabled_when node);
     children := children node;
     slots := slots node;
     on := on node |}.

(** A document as far as the printer tells it apart: [dsl_version] and
    [meta.created_at] are never printed. *)
Definition printed_part (document : DuiDslDocument) : DuiDslDocument :=
  {| dsl_version := EmptyString;
     surface := surface document;
     meta := {| document_id := document_id (meta document);
                revision := revision (meta document);
                created_at := EmptyString;
                created_by := created_by (meta document) |};
     theme := theme document;
     state := state document;
     nodes := printed_node <$> nodes document;
     bindings := bindings document;
     actions := actions document;
     layout_constraints := layout_constraints document |}.

Section RoundTrip.

Import DslText.

Variable String_of_number : Q -> string.

Lemma push_node_printed_node lines node :
  push_node String_of_number lines (printed_node node)
  = push_node String_of_number lines node.
Proof.
  unfold push_node, printed_node; cbn.
  by destruct (visible_when node) as [[|]|], (enabled_when node) as [[|]|].
Qed.

Lemma for_of_push_node_printed (items : list DuiDslNode) (lines : list string) σ :
  for_of (push_node String_of_number) (printed_node <$> items) lines σ
  = for_of (push_node String_of_number) items lines σ.
Proof.
  revert lines σ. induction items as [|node rest IH]; intros lines σ; [done |].
  change (bind (push_node String_of_number lines (printed_node node))
            (fun lines => for_of (push_node String_of_number) (printed_node <$> rest) lines) σ
          = bind (push_node String_of_number lines node)
              (fun lines => for_of (push_node String_of_number) rest lines) σ).
  rewrite push_node_printed_node. unfold bind.
  destruct (push_node String_of_number lines node σ) as [lines' σ']. apply IH.
Qed.

Lemma value_of_for_of_push_node_printed (items : list DuiDslNode) (lines : list string) :
  value_of (for_of (push_node String_of_number) (printed_node <$> items) lines)
  = value_of (for_of (push_node String_of_number) items lines).
Proof. unfold value_of. by rewrite for_of_push_node_printed. Qed.

(** The text depends only on the printed part of a document: whatever
    [dsl_version] and [meta.created_at] hold, and whether a condition is
    absent or empty, the text is the same. *)
Lemma serializeDuiDslDocument_printed_part (document : DuiDslDocument) (σ : ModuleState) :
  serializeDuiDslDocument String_of_number (printed_part document) σ
  = serializeDuiDslDocument String_of_number document σ.
Proof.
  rewrite !(stateless_serializeDuiDslDocument String_of_number _ σ). f_equal.
  unfold serializeDuiDslDocument.
  rewrite !value_of_bind by eauto with stateless. f_equal.
  unfold serialize_lines, printed_part; cbn.
  rewrite !value_of_bind by
    (repeat first [ apply stateless_for_of; intros | stateless_step ]).
  by rewrite value_of_for_of_push_node_printed.
Qed.

End RoundTrip.

(** C1 (as stated) fails: two documents that differ only in
    [meta.created_at] print to the same text, so no parser gives each of
    them back from its own text. *)
Lemma roundtrip_loses_created_at :
  ~ exists parse : string -> option DuiDslDocument,
      parse (print (sample_document "2026-02-08T10:00:00Z"))
        = Some (sample_document "2026-02-08T10:00:00Z")
      /\ parse (print (sample_document "2026-03-01T09:30:00Z"))
        = Some (sample_document "2026-03-01T09:30:00Z").
Proof.
  intros (parse & Ha & Hb).
  assert (print (sample_document "2026-02-08T10:00:00Z")
          = print (sample_document "2026-03-01T09:30:00Z")) as Heq
    by (vm_compute; reflexivity).
  rewrite Heq, Hb in Ha. discriminate Ha.
Qed.

(** C3 (as stated) fails: the sample document has nodes and an action, and
    its action block is printed before its node blocks. *)
Lemma action_block_precedes_nodes :
  1 <= length (nodes (sample_document "2026-02-08T10:00:00Z"))
  /\ blocks (DslText.serialize_lines Js.String_of_integer
               (sample_document "2026-02-08T10:00:00Z") σ0).1
     = [surface_meta_block; meta_block; theme_block; action_block; node_block; node_block]
  /\ in_grammar_order
       (blocks (DslText.serialize_lines Js.String_of_integer
                  (sample_document "2026-02-08T10:00:00Z") σ0).1)
     = false.
Proof. vm_compute. split; [lia | done]. Qed.

(** ** The dashboard renderer *)

Section Columns.

Import Dashboard.

Local Open Scope Q_scope.

Definition manifest_with (constraints : JsObject)
    (widgets : list WidgetConfig) (sections : list SectionConfig) : UiManifest :=
  {| manifest_id := "manifest-1";
     m_revision := 1;
     m_created_at := "2026-02-08T10:00:00Z";
     m_theme := {| tc_profile := profile_default; tc_density := comfortable; tc_tokens := [] |};
     m_widgets := widgets;
     m_sections := sections;
     m_layout_constraints := constraints;
     m_metadata := [] |}.

(** C6 (as stated) fails: with [max_columns] 5, inside 1..6, the renderer
    uses 4 columns. *)
Lemma five_columns_render_as_four :
  1 <= 5 /\ 5 <= 6
  /\ zone_columns (DashboardView (manifest_with [("max_columns", JNumber 5)] [] [])) == 4
  /\ ~ zone_columns (DashboardView (manifest_with [("max_columns", JNumber 5)] [] [])) == 5.
Proof. vm_compute. repeat split; discriminate. Qed.

(** C6 (as the code has it). For a numeric [max_columns] n with
    1 <= n <= 6 the renderer uses n columns when n is at most 4, and 4
    columns when n is larger. *)
Theorem maxColumns_capped_at_four (manifest : UiManifest) (n : Q) :
  Object_get (m_layout_constraints manifest) "max_columns" = Some (JNumber n) ->
  1 <= n -> n <= 6 ->
  (n <= 4 /\ zone_columns (DashboardView manifest) == n)
  \/ (4 < n /\ zone_columns (DashboardView manifest) == 4).
Proof.
  intros Hget Hlo _. unfold DashboardView, maxColumns; cbn [zone_columns].
  rewrite Hget. destruct (Qlt_le_dec 4 n) as [Hgt | Hle].
  - right. split; [done |].
    rewrite (Q.min_l 4 n) by by apply Qlt_le_weak.
    by apply Q.max_r.
  - left. split; [done |].
    rewrite (Q.min_r 4 n) by done.
    by apply Q.max_r.
Qed.

Lemma maxColumns_capped_at_four_witness :
  Object_get (m_layout_constraints (manifest_with [("max_columns", JNumber 3)] [] []))
    "max_columns" = Some (JNumber 3)
  /\ 1 <= 3 /\ 3 <= 6
  /\ ((3 <= 4
       /\ zone_columns (DashboardView (manifest_with [("max_columns", JNumber 3)] [] [])) == 3)
      \/ (4 < 3
          /\ zone_columns (DashboardView (manifest_with [("max_columns", JNumber 3)] [] [])) == 4)).
Proof.
  split; [reflexivity |]. split; [discriminate |]. split; [discriminate |].
  apply (maxColumns_capped_at_four (manifest_with [("max_columns", JNumber 3)] [] []) 3);
    [reflexivity | discriminate | discriminate].
Defined.

End Columns.

Section Sections.

Import Dashboard.

(** The map built from the widgets of a zone holds, under an id, a widget
    of the list that carries the id. *)
Lemma new_Map_lookup_Some (widgets : list WidgetConfig) (id : string) (w : WidgetConfig) :
  new_Map widgets !! id = Some w -> w ∈ widgets /\ w_id w = id.
Proof.
  unfold new_Map. induction widgets as [|x widgets IH] using rev_ind; [done |].
  rewrite foldl_snoc. destruct (decide (w_id x = id)) as [<- | Hne].
  - rewrite lookup_insert_eq. intros [= <-]. split; [set_solver | done].
  - rewrite lookup_insert_ne by done. intros [? ?]%IH. split; [set_solver | done].
Qed.

Lemma new_Map_lookup_None (widgets : list WidgetConfig) (id : string) :
  new_Map widgets !! id = None <-> id ∉ w_id <$> widgets.
Proof.
  unfold new_Map. induction widgets as [|x widgets IH] using rev_ind.
  - cbn. split; [intros _; apply not_elem_of_nil | done].
  - rewrite foldl_snoc, fmap_app, not_elem_of_app. cbn.
    destruct (decide (w_id x = id)) as [<- | Hne].
    + rewrite lookup_insert_eq. split; [done | intros [_ Hx]]. set_solver.
    + rewrite lookup_insert_ne, IH by done. set_solver.
Qed.

Lemma section_children_ids (widgets : list WidgetConfig) (section : SectionConfig) :
  w_id <$> section_children (new_Map widgets) section
  = filter (fun id => id ∈ w_id <$> widgets) (s_child_widget_ids section).
Proof.
  unfold section_children.
  induction (s_child_widget_ids section) as [|id ids IH]; [done |].
  cbn [omap list_omap]. rewrite filter_cons.
  destruct (new_Map widgets !! id) as [w |] eqn:Hw.
  - pose proof (new_Map_lookup_Some _ _ _ Hw) as [Hin <-].
    rewrite decide_True by by apply list_elem_of_fmap_2.
    cbn. by rewrite IH.
  - apply new_Map_lookup_None in Hw. by rewrite decide_False.
Qed.

Lemma section_children_elem (widgets : list WidgetConfig) (section : SectionConfig) w :
  w ∈ section_children (new_Map widgets) section -> w ∈ widgets.
Proof.
  unfold section_children. rewrite list_elem_of_omap.
  intros (id & _ & Hw). by apply new_Map_lookup_Some in Hw as [? _].
Qed.

Lemma elem_of_add_used (used : gset string) (children : list WidgetConfig) (id : string) :
  id ∈ add_used used children <-> id ∈ used \/ id ∈ w_id <$> children.
Proof.
  unfold add_used. revert used.
  induction children as [|w children IH]; intros used; cbn.
  - rewrite elem_of_nil. tauto.
  - rewrite IH, elem_of_cons. set_solver.
Qed.

Lemma section_blocks_fst widgetMap sections used :
  (section_blocks widgetMap sections used).1
  = (fun section =>
       {| sb_section := section; sb_children := section_children widgetMap section |})
    <$> sections.
Proof.
  revert used. induction sections as [|section rest IH]; intros used; [done |].
  cbn [section_blocks]. specialize (IH (add_used used (section_children widgetMap section))).
  destruct (section_blocks widgetMap rest _). cbn in *. by rewrite IH.
Qed.

Lemma section_blocks_snd widgetMap sections used (id : string) :
  id ∈ (section_blocks widgetMap sections used).2
  <-> id ∈ used
      \/ Exists (fun block => id ∈ w_id <$> sb_children block)
           (section_blocks widgetMap sections used).1.
Proof.
  revert used. induction sections as [|section rest IH]; intros used.
  - cbn. rewrite Exists_nil. tauto.
  - cbn [section_blocks].
    specialize (IH (add_used used (section_children widgetMap section))).
    destruct (section_blocks widgetMap rest _) as [blocks used']. cbn in *.
    rewrite IH, elem_of_add_used, Exists_cons. cbn. tauto.
Qed.

(** C8. In every zone, the section blocks are the sections of that zone;
    a block renders, in order, those of its [child_widget_ids] that are the
    id of a widget of the same zone, each as a widget of the manifest in
    that zone, and drops the others; the loose widgets are the widgets of
    the zone whose id no block renders, so no widget a block renders is
    among them. *)
Theorem render_zone_sections_and_loose (manifest : UiManifest) (zone : Zone) :
  let view := render_zone manifest zone in
  sb_section <$> zv_sectionBlocks view
  = filter (fun section => s_zone section = zone) (m_sections manifest)
  /\ Forall (fun block =>
        s_zone (sb_section block) = zone
        /\ w_id <$> sb_children block
           = filter (fun id =>
                       id ∈ w_id <$> filter (fun w => w_zone w = s_zone (sb_section block))
                                       (m_widgets manifest))
               (s_child_widget_ids (sb_section block))
        /\ Forall (fun w => w ∈ m_widgets manifest /\ w_zone w = s_zone (sb_section block))
             (sb_children block))
       (zv_sectionBlocks view)
  /\ zv_looseWidgets view
     = filter (fun w =>
                 Forall (fun block => w_id w ∉ w_id <$> sb_children block)
                   (zv_sectionBlocks view))
         (filter (fun w => w_zone w = zone) (m_widgets manifest))
  /\ Forall (fun block => Forall (fun w => w ∉ zv_looseWidgets view) (sb_children block))
       (zv_sectionBlocks view).
Proof.
  unfold render_zone.
  set (widgets := filter (fun w => w_zone w = zone) (m_widgets manifest)).
  set (sections := filter (fun section => s_zone section = zone) (m_sections manifest)).
  pose proof (section_blocks_fst (new_Map widgets) sections ∅) as Hfst.
  pose proof (section_blocks_snd (new_Map widgets) sections ∅) as Hsnd.
  destruct (section_blocks (new_Map widgets) sections ∅) as [blocks used].
  cbn [fst snd] in Hfst, Hsnd. cbn zeta. cbn [zv_sectionBlocks zv_looseWidgets].
  assert (Hloose : forall w, w_id w ∉ used
            <-> Forall (fun block => w_id w ∉ w_id <$> sb_children block) blocks).
  { intros w. rewrite Hsnd, Forall_Exists_neg. set_solver. }
  split; [| split; [| split]].
  - rewrite Hfst, <- list_fmap_compose. apply list_fmap_id.
  - rewrite Hfst. apply Forall_fmap, Forall_forall. intros section Hsection.
    apply list_elem_of_filter in Hsection as [Hzone _]. cbn.
    split; [done |]. rewrite Hzone. split; [apply section_children_ids |].
    apply Forall_forall. intros w Hw%section_children_elem.
    by apply list_elem_of_filter in Hw as [? ?].
  - by apply list_filter_iff.
  - apply Forall_forall. intros block Hblock. apply Forall_forall. intros w Hw Hin.
    apply list_elem_of_filter in Hin as [Hused _].
    apply Hloose in Hused. rewrite Forall_forall in Hused.
    apply (Hused block Hblock). by apply list_elem_of_fmap_2.
Qed.

End Sections.

(** ** The workbench: validation verdicts and the commit button *)

Section Commit.

Import Workbench.

Variable String_of_number : Q -> string.

#[local] Abbreviation step := (step String_of_number).
#[local] Abbreviation run := (run String_of_number).

(** The verdict of the validation result the workbench received last for
    the draft it holds now; [None] while that draft has no result. *)
Definition latest_verdict (s : AppState) (e : Event) (latest : option bool) : option bool :=
  match e, pending s with
  | IntentResolved response, Some AwaitIntent => Some (valid (ir_validation_result response))
  | ParseResolved response, Some AwaitParse => Some (valid (pr_validation_result response))
  | ValidateResolved response, Some AwaitValidate => Some (valid (vr_result response))
  | CommitResolved _, Some AwaitCommit => None
  | LoadCurrentResolved _ _, Some AwaitLoadCurrent => None
  | InitialLoadResolved _ _ _ _, _ =>
      match manifest s with
      | None => None
      | Some _ => latest
      end
  | _, _ => latest
  end.

(** Whether Clear Preview was pressed after that result arrived. *)
Definition cleared_since (s : AppState) (e : Event) (cleared : bool) : bool :=
  match e, pending s with
  | ClickClearPreview, _ => rendered s || cleared
  | IntentResolved _, Some AwaitIntent
  | ParseResolved _, Some AwaitParse
  | ValidateResolved _, Some AwaitValidate
  | CommitResolved _, Some AwaitCommit
  | LoadCurrentResolved _ _, Some AwaitLoadCurrent => false
  | InitialLoadResolved _ _ _ _, _ =>
      match manifest s with
      | None => false
      | Some _ => cleared
      end
  | _, _ => cleared
  end.

(** The workbench together with what its history says about the draft. *)
Record Tracked := {
  app : AppState;
  latest : option bool;
  cleared : bool;
}.

Definition track_step (t : Tracked) (e : Event) : Tracked :=
  {| app := step (app t) e;
     latest := latest_verdict (app t) e (latest t);
     cleared := cleared_since (app t) e (cleared t) |}.

Definition track (defaultPrompt : string) (events : list Event) : Tracked :=
  foldl track_step {| app := initial defaultPrompt; latest := None; cleared := false |} events.

Lemma setDslSource_serialized_eq (document : DuiDslDocument) (s : AppState) :
  setDslSource_serialized String_of_number document s
  = update s
      [setDslSource (DslText.serializeDuiDslDocument String_of_number document (dslText s)).1;
       setDslText (DslText.serializeDuiDslDocument String_of_number document (dslText s)).2].
Proof.
  unfold setDslSource_serialized.
  by destruct (DslText.serializeDuiDslDocument String_of_number document (dslText s)).
Qed.

(** What the state records is the latest verdict, unless Clear Preview has
    wiped it; and nothing is validated before the page is up. *)
Definition verdict_recorded (t : Tracked) : Prop :=
  dslValidationValid (app t) = (if cleared t then None else latest t)
  /\ (manifest (app t) = None -> latest t = None /\ pending (app t) = None).

(** Unfold one step of the workbench down to the state cells. *)
Ltac unfold_step :=
  unfold Workbench.step, click, handleGenerateDslFromPrompt, handleParseDslSource,
    handleValidateDslDocument, handleCommitDslDocument, handleLoadCurrentDsl,
    handleRevertManifest, start, finish, resetDslValidationState, applyDslValidationState,
    generate_disabled, parse_disabled, validate_disabled, commit_disabled, load_disabled,
    revert_disabled;
  rewrite ?setDslSource_serialized_eq.

Lemma verdict_recorded_step (t : Tracked) (e : Event) :
  verdict_recorded t -> verdict_recorded (track_step t e).
Proof.
  destruct t as [s l c]. unfold verdict_recorded, track_step; cbn [app latest cleared].
  intros [Hverdict Hloading].
  unfold latest_verdict, cleared_since. unfold_step.
  destruct (manifest s) as [m |] eqn:Hmanifest.
  - clear Hloading.
    destruct (rendered s), e, (pending s) as [[] |]; cbn;
      rewrite ?setDslSource_serialized_eq; cbn;
      repeat match goal with
        | |- context [if ?b then _ else _] => destruct b eqn:?; cbn
        | |- context [match ?x with Some _ => _ | None => _ end] => destruct x eqn:?; cbn
        end;
      (split; [ first [ done | by rewrite Hverdict ] | congruence ]).
  - destruct Hloading as [-> Hpending]; [done |]. rewrite Hpending.
    assert (rendered s = false) as -> by (unfold rendered; by rewrite Hmanifest).
    destruct e; cbn; rewrite ?Hmanifest, ?Hverdict, ?setDslSource_serialized_eq; cbn;
      (split; [ by destruct c | done ]).
Qed.

Lemma verdict_recorded_track (defaultPrompt : string) (events : list Event) :
  verdict_recorded (track defaultPrompt events).
Proof.
  unfold track. induction events as [|e events IH] using rev_ind.
  - by split.
  - rewrite foldl_snoc. by apply verdict_recorded_step.
Qed.

(** What a click on Commit DSL sends, from the state cells. *)
Lemma click_commit_sent (s : AppState) :
  sent (step s ClickCommitDsl)
  = match dslDraft s with
    | Some draft =>
        if rendered s && negb (commit_disabled s)
        then sent s ++ [dsl_commit_request draft "poc-user"]
        else sent s
    | None => sent s
    end.
Proof.
  unfold Workbench.step, click, handleCommitDslDocument, start.
  destruct (pending s), (rendered s && negb (commit_disabled s)), (dslDraft s); done.
Qed.

(** Every path but Clear Preview keeps the verdict with its draft: as long
    as Clear Preview has not been pressed since the latest validation
    result for the draft arrived, a click on Commit DSL sends nothing when
    that result has [valid == false], and when it has [valid == true],
    whatever its warnings, sends the commit request for the draft as soon
    as the page is up, no request is in flight and the source is not
    locally edited. *)
Theorem commit_follows_latest_verdict (defaultPrompt : string) (events : list Event) :
  let t := track defaultPrompt events in
  cleared t = false ->
  sent (step (app t) ClickCommitDsl)
  = match latest t, dslDraft (app t) with
    | Some false, _ => sent (app t)
    | _, Some draft =>
        if rendered (app t) && negb (busy (app t)) && negb (dslSourceDirty (app t))
        then sent (app t) ++ [dsl_commit_request draft "poc-user"]
        else sent (app t)
    | _, None => sent (app t)
    end.
Proof.
  cbn zeta. intros Hcleared.
  destruct (verdict_recorded_track defaultPrompt events) as [Hverdict _].
  rewrite Hcleared in Hverdict.
  rewrite click_commit_sent. unfold commit_disabled. rewrite Hverdict.
  set (s := app (track defaultPrompt events)).
  destruct (latest (track defaultPrompt events)) as [[] |],
    (dslDraft s) as [draft |], (rendered s), (busy s), (dslSourceDirty s); done.
Qed.

Lemma click_commit_enabled (s : AppState) (draft : DuiDslDocument) :
  rendered s = true -> commit_disabled s = false -> dslDraft s = Some draft ->
  step s ClickCommitDsl = start AwaitCommit [dsl_commit_request draft "poc-user"] s.
Proof.
  intros Hrendered Hdisabled Hdraft.
  unfold Workbench.step, click, handleCommitDslDocument.
  rewrite Hrendered, Hdisabled, Hdraft. by destruct (pending s).
Qed.

(** C9. On the rendered page, with no request in flight and a draft in
    hand: Commit DSL is disabled exactly when the recorded verdict is
    [false] or the source is locally edited, and a click on the enabled
    button sends the commit request for the draft.  Loading the current
    document, and a commit, each leave the verdict at [null] and the button
    enabled; the next click commits the document they delivered, with no
    validate request in between. *)
Theorem commit_allowed_with_unknown_verdict
    (s : AppState) (draft : DuiDslDocument)
    (currentDsl : DuiDslDocument) (response : DuiDslCommitResponse)
    (manifestHistory : list UiManifest) (dslHistory : list DuiDslDocument) :
  rendered s = true ->
  busy s = false ->
  dslDraft s = Some draft ->
  (commit_disabled s = true
     <-> dslValidationValid s = Some false \/ dslSourceDirty s = true)
  /\ sent (step s ClickCommitDsl)
     = (if commit_disabled s then sent s
        else sent s ++ [dsl_commit_request draft "poc-user"])
  /\ (let s' := run s [ClickLoadCurrentDsl; LoadCurrentResolved currentDsl dslHistory] in
      dslValidationValid s' = None
      /\ commit_disabled s' = false
      /\ sent (step s' ClickCommitDsl)
         = sent s ++ [dsl_current_request; dsl_revisions_request;
                      dsl_commit_request currentDsl "poc-user"])
  /\ (let s' := run s [ClickCommitDsl; CommitResolved response;
                       CommitHistoryResolved manifestHistory dslHistory] in
      commit_disabled s = true
      \/ (dslValidationValid s' = None
          /\ commit_disabled s' = false
          /\ sent (step s' ClickCommitDsl)
             = sent s ++ [dsl_commit_request draft "poc-user";
                          manifest_revisions_request; dsl_revisions_request;
                          dsl_commit_request (cr_document response) "poc-user"])).
Proof.
  intros Hrendered Hbusy Hdraft.
  split; [| split; [| split]].
  - unfold commit_disabled. rewrite Hbusy, Hdraft. cbn.
    destruct (dslValidationValid s) as [[] |], (dslSourceDirty s); cbn; naive_solver.
  - rewrite click_commit_sent, Hdraft, Hrendered. by destruct (commit_disabled s).
  - cbn zeta. unfold Workbench.run; cbn [foldl]. rewrite !click_commit_sent.
    unfold_step. rewrite Hrendered, Hbusy. cbn.
    rewrite setDslSource_serialized_eq. cbn.
    unfold rendered in *. cbn. rewrite Hrendered. cbn.
    by rewrite <- app_assoc.
  - cbn zeta. unfold Workbench.run; cbn [foldl]. rewrite !click_commit_sent.
    destruct (commit_disabled s) eqn:Hdisabled; [by left | right].
    rewrite (click_commit_enabled s draft) by done.
    unfold_step. cbn. rewrite setDslSource_serialized_eq. cbn.
    unfold rendered in *. cbn.
    destruct (manifest s); [| done]. rewrite Hrendered. cbn.
    by rewrite <- !app_assoc.
Qed.

End Commit.

(** *** A session of the workbench *)

Definition sample_manifest : UiManifest := manifest_with [] [] [].

Definition sample_issue (sev : DuiIssueSeverity) : DuiDslValidationIssue :=
  {| severity := sev;
     code := "unknown_node_type";
     message := "node type is not in the catalog";
     path := "nodes[1].type" |}.

(** A planner answer the validator rejected. *)
Definition rejected_intent : Workbench.DuiDslIntentResponse :=
  {| Workbench.ir_document := sample_document "2026-03-01T09:30:00Z";
     Workbench.ir_validation_result :=
       {| valid := false; errors := [sample_issue severity_error]; warnings := []; stats := [] |};
     Workbench.ir_preview_manifest := None;
     Workbench.ir_warnings := [] |}.

(** A planner answer the validator accepted with a warning. *)
Definition warned_intent : Workbench.DuiDslIntentResponse :=
  {| Workbench.ir_document := sample_document "2026-03-01T09:30:00Z";
     Workbench.ir_validation_result :=
       {| valid := true; errors := []; warnings := [sample_issue severity_warning]; stats := [] |};
     Workbench.ir_preview_manifest := Some sample_manifest;
     Workbench.ir_warnings := [] |}.

(** The page comes up with the current document loaded. *)
Definition page_up : list Workbench.Event :=
  [ Workbench.InitialLoadResolved sample_manifest [sample_manifest]
      (sample_document "2026-02-08T10:00:00Z") [sample_document "2026-02-08T10:00:00Z"];
    Workbench.LessonResolved ].

(** C4. The button's test [dslValidationValid === false] blocks the commit
    of a rejected draft, but Clear Preview forgets the verdict and keeps the
    draft: the planner's draft is rejected by the validator, Clear Preview
    is pressed, and Commit DSL then sends the commit request for that very
    draft, whose latest validation result has [valid == false].  The other
    two resets of the verdict, after a commit and after Load Current,
    install a new draft with it. *)
Lemma clear_preview_reenables_commit :
  let t := track Js.String_of_integer "make it compact"
             (page_up ++ [ Workbench.ClickGenerateDsl;
                           Workbench.IntentResolved rejected_intent;
                           Workbench.ClickClearPreview;
                           Workbench.ClickCommitDsl ]) in
  latest t = Some false
  /\ Workbench.dslDraft (app t) = Some (sample_document "2026-03-01T09:30:00Z")
  /\ Workbench.sent (app t)
     = [ Workbench.dsl_intent_request "make it compact" extended;
         Workbench.dsl_commit_request (sample_document "2026-03-01T09:30:00Z") "poc-user" ].
Proof. vm_compute. done. Qed.

Lemma commit_follows_latest_verdict_witness :
  let t := track Js.String_of_integer "make it compact"
             (page_up ++ [ Workbench.ClickGenerateDsl;
                           Workbench.IntentResolved warned_intent ]) in
  cleared t = false
  /\ Workbench.sent (Workbench.step Js.String_of_integer (app t) Workbench.ClickCommitDsl)
     = Workbench.sent (app t)
       ++ [Workbench.dsl_commit_request (sample_document "2026-03-01T09:30:00Z") "poc-user"].
Proof.
  cbn zeta. split; [vm_compute; reflexivity |].
  rewrite (commit_follows_latest_verdict Js.String_of_integer "make it compact"
             (page_up ++ [ Workbench.ClickGenerateDsl;
                           Workbench.IntentResolved warned_intent ]))
    by (vm_compute; reflexivity).
  vm_compute. reflexivity.
Defined.

Lemma commit_allowed_with_unknown_verdict_witness :
  let s := Workbench.run Js.String_of_integer (Workbench.initial "make it compact") page_up in
  Workbench.rendered s = true
  /\ Workbench.busy s = false
  /\ Workbench.dslDraft s = Some (sample_document "2026-02-08T10:00:00Z")
  /\ Workbench.dslValidationValid s = None
  /\ Workbench.sent (Workbench.step Js.String_of_integer s Workbench.ClickCommitDsl)
     = [Workbench.dsl_commit_request (sample_document "2026-02-08T10:00:00Z") "poc-user"].
Proof.
  cbn zeta.
  split; [vm_compute; reflexivity |]. split; [vm_compute; reflexivity |].
  split; [vm_compute; reflexivity |]. split; [vm_compute; reflexivity |].
  destruct (commit_allowed_with_unknown_verdict Js.String_of_integer
              (Workbench.run Js.String_of_integer (Workbench.initial "make it compact") page_up)
              (sample_document "2026-02-08T10:00:00Z")
              (sample_document "2026-03-01T09:30:00Z")
              {| Workbench.cr_document := sample_document "2026-03-01T09:30:00Z";
                 Workbench.cr_manifest := sample_manifest |}
              [sample_manifest] [sample_document "2026-03-01T09:30:00Z"])
    as (_ & Hsent & _);
    [vm_compute; reflexivity | vm_compute; reflexivity | vm_compute; reflexivity |].
  rewrite Hsent. vm_compute. reflexivity.
Defined.

(** ** The revision store *)

Section Revisions.

Import RevisionEngine.

Lemma content_with_revision (n : nat) (d : DuiDslDocument) :
  content (with_revision n d) = content d.
Proof. done. Qed.

Lemma well_formed_empty : well_formed {| arena := ∅; current := ∅ |}.
Proof.
  split; cbn.
  - intros sid n revision H. by rewrite lookup_empty in H.
  - intros sid N H. by rewrite lookup_empty in H.
Qed.

(** A commit keeps every stored revision and the numbering discipline. *)
Lemma commit_well_formed store surface_id document now :
  well_formed store -> well_formed (commit store surface_id document now).2.
Proof.
  intros [Harena Hcurrent]. unfold commit.
  set (N := default 0 (current store !! surface_id)).
  split; cbn [snd arena current].
  - intros sid n revision Hlook.
    destruct (decide ((surface_id, S N) = (sid, n))) as [[= <- <-] | Hne].
    + exists (S N). rewrite lookup_insert_eq. split; [done | lia].
    + rewrite lookup_insert_ne in Hlook by done.
      apply Harena in Hlook as (N' & HN' & Hle).
      destruct (decide (surface_id = sid)) as [<- | Hsid].
      * exists (S N). rewrite lookup_insert_eq. split; [done |].
        subst N. rewrite HN'. cbn. lia.
      * exists N'. by rewrite lookup_insert_ne.
  - intros sid N' HN'.
    destruct (decide (surface_id = sid)) as [<- | Hsid].
    + rewrite lookup_insert_eq in HN'. injection HN' as <-.
      by rewrite lookup_insert_eq.
    + rewrite lookup_insert_ne in HN' by done.
      rewrite lookup_insert_ne by congruence. by apply Hcurrent.
Qed.

Lemma commit_keeps_history store surface_id document now sid n revision :
  well_formed store ->
  get_revision store sid n = Some revision ->
  get_revision (commit store surface_id document now).2 sid n = Some revision.
Proof.
  intros [Harena _] Hget. unfold get_revision in *. unfold commit; cbn [snd arena].
  rewrite lookup_insert_ne; [done |].
  intros Heq. injection Heq as Hsid Hn. subst sid.
  apply Harena in Hget as (N & HN & Hle).
  rewrite HN in Hn. cbn in Hn. lia.
Qed.

(** C7, against the store as the specification describes it. In a store
    where a surface is at revision N, reverting to a stored revision t <= N
    succeeds: it stores a new revision N+1, which becomes current and whose
    document content is that of revision t, and every revision stored
    before, those between t and N among them, reads back unchanged. *)
Theorem revert_appends_revision
    (store : RevisionStore) (surface_id : string) (N t : nat) (target : Revision)
    (now : string) :
  well_formed store ->
  current store !! surface_id = Some N ->
  get_revision store surface_id t = Some target ->
  t <= N ->
  exists new store',
    revert store surface_id t now = Some (new, store')
    /\ current store' !! surface_id = Some (S N)
    /\ get_revision store' surface_id (S N) = Some new
    /\ get_revision store surface_id (S N) = None
    /\ content (rev_document new) = content (rev_document target)
    /\ (forall sid n revision,
          get_revision store sid n = Some revision ->
          get_revision store' sid n = Some revision)
    /\ well_formed store'.
Proof.
  intros Hwf Hcurrent Htarget _.
  unfold revert. unfold get_revision in Htarget. rewrite Htarget. cbn.
  eexists _, _. split; [reflexivity |].
  unfold commit. rewrite Hcurrent. cbn [default arena current].
  split; [apply lookup_insert_eq |].
  split; [apply lookup_insert_eq |].
  split.
  { unfold get_revision. destruct (arena store !! (surface_id, S N)) eqn:Hnext; [| done].
    destruct Hwf as [Harena _]. apply Harena in Hnext as (N' & HN' & Hle).
    rewrite Hcurrent in HN'. injection HN' as <-. lia. }
  split; [apply content_with_revision |].
  split.
  - intros sid n revision Hget.
    pose proof (commit_keeps_history store surface_id (rev_document target) now
                  sid n revision Hwf Hget) as Hkept.
    unfold commit in Hkept. by rewrite Hcurrent in Hkept.
  - pose proof (commit_well_formed store surface_id (rev_document target) now Hwf) as Hwf'.
    unfold commit in Hwf'. by rewrite Hcurrent in Hwf'.
Qed.

End Revisions.

(** A surface with seven committed revisions. *)
Definition seven_days : list string :=
  ["2026-02-01"; "2026-02-02"; "2026-02-03"; "2026-02-04";
   "2026-02-05"; "2026-02-06"; "2026-02-07"].

Definition commit_all (surface_id : string) (store : RevisionEngine.RevisionStore)
    (days : list string) : RevisionEngine.RevisionStore :=
  foldl (fun store day =>
           (RevisionEngine.commit store surface_id (sample_document day) day).2)
    store days.

Definition seven_revisions : RevisionEngine.RevisionStore :=
  commit_all "math_lms.dashboard"
    {| RevisionEngine.arena := ∅; RevisionEngine.current := ∅ |} seven_days.

Lemma commit_all_well_formed surface_id store days :
  RevisionEngine.well_formed store ->
  RevisionEngine.well_formed (commit_all surface_id store days).
Proof.
  revert store. induction days as [|day days IH]; intros store Hwf; [done |].
  apply IH. by apply commit_well_formed.
Qed.

Lemma revert_appends_revision_witness :
  RevisionEngine.well_formed seven_revisions
  /\ RevisionEngine.current seven_revisions !! "math_lms.dashboard" = Some 7
  /\ RevisionEngine.get_revision seven_revisions "math_lms.dashboard" 3
     = Some {| RevisionEngine.rev_document :=
                 RevisionEngine.with_revision 3 (sample_document "2026-02-03");
               RevisionEngine.rev_compiled_manifest_hash := None;
               RevisionEngine.rev_status := RevisionEngine.committed;
               RevisionEngine.rev_created_at := "2026-02-03" |}
  /\ 3 <= 7
  /\ exists new store',
       RevisionEngine.revert seven_revisions "math_lms.dashboard" 3 "2026-02-08"
         = Some (new, store')
       /\ RevisionEngine.current store' !! "math_lms.dashboard" = Some 8
       /\ RevisionEngine.get_revision store' "math_lms.dashboard" 8 = Some new
       /\ RevisionEngine.get_revision seven_revisions "math_lms.dashboard" 8 = None
       /\ RevisionEngine.content (RevisionEngine.rev_document new)
          = RevisionEngine.content
              (RevisionEngine.with_revision 3 (sample_document "2026-02-03"))
       /\ (forall sid n revision,
             RevisionEngine.get_revision seven_revisions sid n = Some revision ->
             RevisionEngine.get_revision store' sid n = Some revision)
       /\ RevisionEngine.well_formed store'.
Proof.
  assert (RevisionEngine.well_formed seven_revisions) as Hwf
    by apply commit_all_well_formed, well_formed_empty.
  split; [exact Hwf |]. split; [vm_compute; reflexivity |].
  split; [vm_compute; reflexivity |]. split; [lia |].
  apply (revert_appends_revision seven_revisions "math_lms.dashboard" 7 3
           {| RevisionEngine.rev_document :=
                RevisionEngine.with_revision 3 (sample_document "2026-02-03");
              RevisionEngine.rev_compiled_manifest_hash := None;
              RevisionEngine.rev_status := RevisionEngine.committed;
              RevisionEngine.rev_created_at := "2026-02-03" |}
           "2026-02-08" Hwf);
    [vm_compute; reflexivity | vm_compute; reflexivity | lia].
Defined.

(** ** Patch application *)

Section Patches.

Import RevisionEngine.

Variable PatchOp : Type.
Variable apply_op : DuiDslDocument -> PatchOp -> DuiDslDocument + PatchReason.
Variable validate : DuiDslDocument -> bool.

(** Every operation of the batch applies, one after the other. *)
Inductive applies_all : DuiDslDocument -> list PatchOp -> DuiDslDocument -> Prop :=
| applies_all_nil d : applies_all d [] d
| applies_all_cons d op d' ops d'' :
    apply_op d op = inl d' -> applies_all d' ops d'' -> applies_all d (op :: ops) d''.

(** The operation at [index] is the first that does not apply. *)
Definition first_failure (d : DuiDslDocument) (ops : list PatchOp)
    (index : nat) (reason : PatchReason) : Prop :=
  exists before op after d',
    ops = before ++ op :: after /\ length before = index
    /\ applies_all d before d' /\ apply_op d' op = inr reason.

Lemma apply_ops_outcome (d : DuiDslDocument) (ops : list PatchOp) (start : nat) :
  match apply_ops PatchOp apply_op d ops start with
  | inl d' => applies_all d ops d'
  | inr (PatchError index reason) =>
      start <= index /\ first_failure d ops (index - start) reason
  | inr ConcurrencyConflict => False
  end.
Proof.
  revert d start. induction ops as [|op ops IH]; intros d start; cbn.
  - constructor.
  - destruct (apply_op d op) as [d' | reason] eqn:Hop.
    + specialize (IH d' (S start)).
      destruct (apply_ops PatchOp apply_op d' ops (S start)) as [d'' | [index reason |]].
      * by econstructor.
      * destruct IH as (Hle & before & op' & after & d'' & -> & Hlen & Hall & Hfail).
        split; [lia |]. exists (op :: before), op', after, d''.
        split; [done |]. split; [cbn; lia |]. split; [by econstructor | done].
      * done.
    + split; [lia |]. exists [], op, ops, d.
      split; [done |]. split; [cbn; lia |]. split; [constructor | done].
Qed.

(** C5, against the engine as the specification describes it. A batch
    applied at the current revision either goes through, every operation
    applied in order and the result accepted by the Validator, or fails
    with a [PatchError], at the first operation that does not apply or,
    after the last one, because the Validator rejects the result; the
    stored document is the same after the call as before. *)
Theorem apply_is_atomic (stored : SurfaceState) (ops : list PatchOp) (expected : nat) :
  expected = current_revision stored ->
  (apply PatchOp apply_op validate stored ops expected).2 = stored
  /\ ((exists result,
         (apply PatchOp apply_op validate stored ops expected).1 = inl result
         /\ applies_all (current_document stored) ops result
         /\ validate result = true)
      \/ (exists index reason,
            (apply PatchOp apply_op validate stored ops expected).1
              = inr (PatchError index reason)
            /\ (first_failure (current_document stored) ops index reason
                \/ (index = length ops /\ reason = ValidationFailed
                    /\ exists result,
                         applies_all (current_document stored) ops result
                         /\ validate result = false)))).
Proof.
  intros ->. unfold apply. rewrite Nat.eqb_refl. cbn [negb].
  pose proof (apply_ops_outcome (current_document stored) ops 0) as Houtcome.
  destruct (apply_ops PatchOp apply_op (current_document stored) ops 0)
    as [result | [index reason |]]; [| | done].
  - destruct (validate result) eqn:Hvalid; (split; [done |]).
    + left. by exists result.
    + right. exists (length ops), ValidationFailed. split; [done |].
      right. split; [done |]. split; [done |]. by exists result.
  - split; [done |]. right. exists index, reason. split; [done |]. left.
    destruct Houtcome as [_ Hfail]. by rewrite Nat.sub_0_r in Hfail.
Qed.

End Patches.

(** *** A sample engine *)

(** Two of the patch operations, with the failures the specification names
    for them: a reference that does not resolve, and a protected node (here
    a node whose props carry [protected: true]). *)
Inductive SamplePatchOp :=
| delete_node (id : string)
| set_theme_profile (p : ThemeProfile).

Definition node_protected (node : DuiDslNode) : bool :=
  match Dashboard.Object_get (props node) "protected" with
  | Some (JBoolean true) => true
  | _ => false
  end.

Definition with_nodes (d : DuiDslDocument) (ns : list DuiDslNode) : DuiDslDocument :=
  {| dsl_version := dsl_version d; surface := surface d; meta := meta d;
     theme := theme d; state := state d; nodes := ns; bindings := bindings d;
     actions := actions d; layout_constraints := layout_constraints d |}.

Definition with_profile (d : DuiDslDocument) (p : ThemeProfile) : DuiDslDocument :=
  {| dsl_version := dsl_version d; surface := surface d; meta := meta d;
     theme := {| profile := p; density := density (theme d); tokens := tokens (theme d) |};
     state := state d; nodes := nodes d; bindings := bindings d;
     actions := actions d; layout_constraints := layout_constraints d |}.

Definition sample_apply_op (d : DuiDslDocument) (op : SamplePatchOp)
  : DuiDslDocument + RevisionEngine.PatchReason :=
  match op with
  | delete_node id =>
      match list_find (fun node => node_id node = id) (nodes d) with
      | None => inr RevisionEngine.UnresolvedReference
      | Some (_, node) =>
          if node_protected node then inr RevisionEngine.ProtectedNode
          else inl (with_nodes d (filter (fun node => node_id node <> id) (nodes d)))
      end
  | set_theme_profile p => inl (with_profile d p)
  end.

(** The structural rule that every child reference resolves. *)
Definition sample_validate (d : DuiDslDocument) : bool :=
  forallb (fun node =>
             forallb (fun child => bool_decide (child ∈ node_id <$> nodes d)) (children node))
    (nodes d).

Definition sample_stored : RevisionEngine.SurfaceState :=
  {| RevisionEngine.current_document := sample_document "2026-02-08T10:00:00Z";
     RevisionEngine.current_revision := 1 |}.

Lemma apply_is_atomic_witness :
  1 = RevisionEngine.current_revision sample_stored
  /\ (RevisionEngine.apply SamplePatchOp sample_apply_op sample_validate sample_stored
        [set_theme_profile liquid_glass; delete_node "course_progress"] 1).2
     = sample_stored
  /\ (RevisionEngine.apply SamplePatchOp sample_apply_op sample_validate sample_stored
        [set_theme_profile liquid_glass; delete_node "course_progress"] 1).1
     = inr (RevisionEngine.PatchError 1 RevisionEngine.ProtectedNode).
Proof.
  split; [reflexivity |].
  destruct (apply_is_atomic SamplePatchOp sample_apply_op sample_validate sample_stored
              [set_theme_profile liquid_glass; delete_node "course_progress"] 1 eq_refl)
    as [Hstored _].
  split; [exact Hstored | vm_compute; reflexivity].
Defined.

(** * Further properties of the sources *)

(** ** Printed strings *)

Section PrintedStrings.

Import DslText.

Variable String_of_number : Q -> string.

(** No code unit of the text is a control character (below 32); a line
    feed is one. *)
Inductive control_free : string -> Prop :=
| control_free_nil : control_free EmptyString
| control_free_cons c rest :
    32 <= nat_of_ascii c -> control_free rest -> control_free (String c rest).

Lemma control_free_app (s1 s2 : string) :
  control_free s1 -> control_free s2 -> control_free (s1 +:+ s2).
Proof. induction 1; intros; simpl; [done | constructor; auto]. Qed.

Lemma JSON_escape_control_free (c : ascii) : control_free (Js.JSON_escape c).
Proof.
  destruct c as [[] [] [] [] [] [] [] []]; vm_compute;
    repeat first [ apply control_free_nil
                 | apply control_free_cons; [vm_compute; lia |] ].
Qed.

Lemma JSON_escape_all_control_free (s : string) : control_free (Js.JSON_escape_all s).
Proof.
  induction s as [|c s IH]; [constructor |].
  apply control_free_app; [apply JSON_escape_control_free | done].
Qed.

Lemma JSON_stringify_control_free (s : string) : control_free (Js.JSON_stringify s).
Proof.
  unfold Js.JSON_stringify.
  apply control_free_app; [repeat constructor; vm_compute; lia |].
  apply control_free_app; [apply JSON_escape_all_control_free |].
  repeat constructor; vm_compute; lia.
Qed.

Lemma all_name_chars_control_free (s : string) : all_name_chars s -> control_free s.
Proof.
  induction 1 as [|c rest Hc _ IH]; constructor; [| done].
  unfold name_char in Hc. lia.
Qed.

Lemma identifier_control_free (s : string) : matches_identifier_pattern s -> control_free s.
Proof.
  intros (c & rest & -> & Hc & Hrest). constructor.
  - unfold name_start in Hc. lia.
  - by apply all_name_chars_control_free.
Qed.

(** What [formatValue] returns for a string, and with it [formatKey] and
    [formatIdentifier]. *)
Definition printed_string (s : string) : string :=
  value_of (formatIdentifier s).

Lemma printed_string_eq (s : string) :
  printed_string s
  = if bool_decide (matches_identifier_pattern s) && negb (bool_decide (s ∈ RESERVED_WORDS))
    then s else Js.JSON_stringify s.
Proof.
  unfold printed_string, value_of, formatIdentifier, bind. rewrite isIdentifier_run.
  by destruct (_ && _).
Qed.

Lemma formatValue_string_run (s : string) (indentLevel : nat) (σ : ModuleState) :
  formatValue String_of_number (JString s) indentLevel σ = (printed_string s, σ).
Proof.
  rewrite printed_string_eq. cbn [formatValue]. unfold bind.
  rewrite isIdentifier_run. by destruct (_ && _).
Qed.

Lemma formatKey_run (s : string) (σ : ModuleState) :
  formatKey s σ = (printed_string s, σ).
Proof. apply stateless_formatKey. Qed.

Lemma formatIdentifier_run (s : string) (σ : ModuleState) :
  formatIdentifier s σ = (printed_string s, σ).
Proof. apply stateless_formatIdentifier. Qed.

Lemma printed_string_control_free (s : string) : control_free (printed_string s).
Proof.
  rewrite printed_string_eq.
  destruct (bool_decide (matches_identifier_pattern s)) eqn:Hm; cbn [andb].
  - apply bool_decide_eq_true in Hm.
    destruct (negb _); [by apply identifier_control_free | apply JSON_stringify_control_free].
  - apply JSON_stringify_control_free.
Qed.

(** X1. Whatever a string value, an object key or an identifier holds, its
    printed form carries no control character: a line feed, a tab or any
    other code unit below 32 in the value is escaped, so the value cannot
    break the line it is printed on. *)
Theorem printed_strings_have_no_control_characters
    (s : string) (indentLevel : nat) (σ : ModuleState) :
  control_free (formatValue String_of_number (JString s) indentLevel σ).1
  /\ control_free (formatKey s σ).1
  /\ control_free (formatIdentifier s σ).1.
Proof.
  rewrite formatValue_string_run, formatKey_run, formatIdentifier_run.
  repeat split; apply printed_string_control_free.
Qed.

End PrintedStrings.

(** *** Reading a printed string back *)

Definition hex_value (c : ascii) : option nat :=
  let n := nat_of_ascii c in
  if (48 <=? n) && (n <=? 57) then Some (n - 48)
  else if (97 <=? n) && (n <=? 102) then Some (n - 87)
  else None.

(** The code unit a two-character escape stands for. *)
Definition escape_tag (t : ascii) : option ascii :=
  let n := nat_of_ascii t in
  if n =? 98 then Some (ascii_of_nat 8)
  else if n =? 116 then Some (ascii_of_nat 9)
  else if n =? 110 then Some (ascii_of_nat 10)
  else if n =? 102 then Some (ascii_of_nat 12)
  else if n =? 114 then Some (ascii_of_nat 13)
  else if n =? 34 then Some (ascii_of_nat 34)
  else if n =? 92 then Some (ascii_of_nat 92)
  else None.

Definition cons_result (c : ascii) (r : option (string * string)) : option (string * string) :=
  match r with
  | Some (body, rest) => Some (String c body, rest)
  | None => None
  end.

(** Reads the characters of a JSON string literal after its opening quote,
    up to the closing quote; returns the string and the text that follows. *)
Fixpoint read_string_body (text : string) : option (string * string) :=
  match text with
  | EmptyString => None
  | String c rest =>
      if nat_of_ascii c =? 34 then Some (EmptyString, rest)
      else if nat_of_ascii c =? 92 then
        match rest with
        | EmptyString => None
        | String t rest' =>
            match escape_tag t with
            | Some d => cons_result d (read_string_body rest')
            | None =>
                if nat_of_ascii t =? 117 then
                  match rest' with
                  | String z1 (String z2 (String h1 (String h2 rest''))) =>
                      if (nat_of_ascii z1 =? 48) && (nat_of_ascii z2 =? 48) then
                        match hex_value h1, hex_value h2 with
                        | Some a, Some b =>
                            cons_result (ascii_of_nat (16 * a + b)) (read_string_body rest'')
                        | _, _ => None
                        end
                      else None
                  | _ => None
                  end
                else None
            end
        end
      else if nat_of_ascii c <? 32 then None
      else cons_result c (read_string_body rest)
  end.

(** Reads a printed string back: a literal by the JSON grammar, anything
    else as it stands. *)
Definition read_printed_string (text : string) : option string :=
  match text with
  | String c rest =>
      if nat_of_ascii c =? 34 then
        match read_string_body rest with
        | Some (s, EmptyString) => Some s
        | _ => None
        end
      else Some text
  | EmptyString => Some text
  end.

Section ReadBack.

Import DslText.

Lemma string_app_assoc (s1 s2 s3 : string) :
  s1 +:+ (s2 +:+ s3) = (s1 +:+ s2) +:+ s3.
Proof.
  induction s1 as [|c s1 IH]; [done |].
  change (String c (s1 +:+ (s2 +:+ s3)) = String c ((s1 +:+ s2) +:+ s3)).
  by rewrite IH.
Qed.

Lemma read_string_body_escape (c : ascii) (text : string) :
  read_string_body (Js.JSON_escape c +:+ text) = cons_result c (read_string_body text).
Proof. destruct c as [[] [] [] [] [] [] [] []]; reflexivity. Qed.

Lemma read_string_body_escape_all (s rest : string) :
  read_string_body (Js.JSON_escape_all s +:+ Js.dquote +:+ rest) = Some (s, rest).
Proof.
  induction s as [|c s IH]; [done |].
  cbn [Js.JSON_escape_all].
  replace ((Js.JSON_escape c +:+ Js.JSON_escape_all s) +:+ Js.dquote +:+ rest)
    with (Js.JSON_escape c +:+ (Js.JSON_escape_all s +:+ Js.dquote +:+ rest)).
  - by rewrite read_string_body_escape, IH.
  - apply string_app_assoc.
Qed.

Lemma read_printed_string_stringify (s : string) :
  read_printed_string (Js.JSON_stringify s) = Some s.
Proof.
  unfold Js.JSON_stringify.
  change (Js.dquote +:+ Js.JSON_escape_all s +:+ Js.dquote)
    with (String "034"%char (Js.JSON_escape_all s +:+ Js.dquote +:+ EmptyString)).
  cbn [read_printed_string]. change (nat_of_ascii "034" =? 34) with true. cbn match.
  by rewrite read_string_body_escape_all.
Qed.

Lemma read_printed_string_identifier (s : string) :
  matches_identifier_pattern s -> read_printed_string s = Some s.
Proof.
  intros (c & rest & -> & Hc & _). cbn [read_printed_string].
  unfold name_start in Hc. destruct (nat_of_ascii c =? 34) eqn:Heq; [| done].
  apply Nat.eqb_eq in Heq. lia.
Qed.

Lemma read_printed_string_printed (s : string) :
  read_printed_string (printed_string s) = Some s.
Proof.
  rewrite printed_string_eq.
  destruct (bool_decide (matches_identifier_pattern s)) eqn:Hm; cbn [andb].
  - apply bool_decide_eq_true in Hm.
    destruct (negb _); [by apply read_printed_string_identifier
                       | apply read_printed_string_stringify].
  - apply read_printed_string_stringify.
Qed.

End ReadBack.

Section DistinctStrings.

Import DslText.

Variable String_of_number : Q -> string.

(** X2. Two string values that print to the same text are the same
    string, at whatever indentation and from whatever module state they are
    printed: quoting loses nothing, and a bare identifier is never taken for
    a quoted string. *)
Theorem printed_strings_are_distinct
    (s1 s2 : string) (i1 i2 : nat) (σ1 σ2 : ModuleState) :
  (formatValue String_of_number (JString s1) i1 σ1).1
  = (formatValue String_of_number (JString s2) i2 σ2).1 ->
  s1 = s2.
Proof.
  rewrite !formatValue_string_run. cbn [fst]. intros Heq.
  apply (f_equal read_printed_string) in Heq.
  rewrite !read_printed_string_printed in Heq. congruence.
Qed.

End DistinctStrings.

Lemma printed_strings_are_distinct_witness :
  (DslText.formatValue Js.String_of_integer (JString "null") 0 σ0).1
  = (DslText.formatValue Js.String_of_integer (JString "null") 3
       {| DslText.IDENTIFIER_RE_lastIndex := 2 |}).1
  /\ "null" = "null".
Proof.
  split; [vm_compute; reflexivity |].
  apply (printed_strings_are_distinct Js.String_of_integer "null" "null" 0 3 σ0
           {| DslText.IDENTIFIER_RE_lastIndex := 2 |}).
  vm_compute; reflexivity.
Defined.

(** ** More on the dashboard renderer *)

Section DashboardBounds.

Import Dashboard.

Local Open Scope Q_scope.

(** X3. Whatever the manifest holds under [max_columns], the renderer uses
    between 1 and 4 columns; without a numeric [max_columns] it uses 2. *)
Theorem maxColumns_between_one_and_four (manifest : UiManifest) :
  1 <= zone_columns (DashboardView manifest) <= 4
  /\ ((exists n, Object_get (m_layout_constraints manifest) "max_columns" = Some (JNumber n))
      \/ zone_columns (DashboardView manifest) = 2).
Proof.
  unfold DashboardView, maxColumns. cbn [zone_columns].
  destruct (Object_get (m_layout_constraints manifest) "max_columns") as [[| | n | | |] |];
    try (split; [split; discriminate | by right]).
  split; [| left; by exists n]. split.
  - apply Q.le_max_l.
  - apply Q.max_lub; [discriminate | apply Q.le_min_l].
Qed.

End DashboardBounds.

Section DashboardWidgets.

Import Dashboard.

Lemma section_blocks_empty widgetMap (used : gset string) :
  section_blocks widgetMap [] used = ([], used).
Proof. done. Qed.

(** X4. A zone shows the "No widgets" note exactly when the manifest has
    neither a widget nor a section in that zone; a zone whose sections
    resolve none of their children shows the empty sections and no note. *)
Theorem no_widgets_note_iff (manifest : UiManifest) (zone : Zone) :
  zv_no_widgets_note (render_zone manifest zone) = true
  <-> filter (fun w => w_zone w = zone) (m_widgets manifest) = []
      /\ filter (fun section => s_zone section = zone) (m_sections manifest) = [].
Proof.
  unfold render_zone.
  set (widgets := filter (fun w => w_zone w = zone) (m_widgets manifest)).
  set (sections := filter (fun section => s_zone section = zone) (m_sections manifest)).
  pose proof (section_blocks_fst (new_Map widgets) sections ∅) as Hfst.
  pose proof (section_blocks_snd (new_Map widgets) sections ∅) as Hsnd.
  destruct (section_blocks (new_Map widgets) sections ∅) as [blocks used].
  cbn [fst snd] in Hfst, Hsnd. cbn [zv_no_widgets_note].
  rewrite andb_true_iff, !Nat.eqb_eq, !length_zero_iff_nil.
  split.
  - intros [Hloose Hblocks]. rewrite Hblocks in Hfst.
    symmetry in Hfst. apply fmap_nil_inv in Hfst. split; [| done].
    assert (used = ∅) as ->.
    { apply set_eq. intros id. rewrite Hsnd, Hblocks, Exists_nil. set_solver. }
    apply elem_of_nil_inv. intros w.
    apply (filter_nil_not_elem_of _ _ _ Hloose). set_solver.
  - intros [Hwidgets Hsections]. rewrite Hwidgets, Hsections in *.
    by rewrite Hfst.
Qed.

Lemma fmap_inj_on_NoDup {A B : Type} (f : A -> B) (l : list A) (x y : A) :
  NoDup (f <$> l) -> x ∈ l -> y ∈ l -> f x = f y -> x = y.
Proof.
  induction l as [|a l IH]; [by rewrite elem_of_nil |].
  rewrite fmap_cons, NoDup_cons, !elem_of_cons.
  intros [Ha Hl] [-> | Hx] [-> | Hy] Hf; [done | | | by apply IH].
  - destruct Ha. rewrite Hf. by apply list_elem_of_fmap_2.
  - destruct Ha. rewrite <- Hf. by apply list_elem_of_fmap_2.
Qed.

(** X5. When the widgets of a zone carry distinct ids, none of them is
    lost: each is rendered inside a section block of its zone or as a loose
    widget of that zone. *)
Theorem every_widget_is_rendered (manifest : UiManifest) (w : WidgetConfig) :
  NoDup (w_id <$> filter (fun w' => w_zone w' = w_zone w) (m_widgets manifest)) ->
  w ∈ m_widgets manifest ->
  w ∈ zv_looseWidgets (render_zone manifest (w_zone w))
  \/ Exists (fun block => w ∈ sb_children block)
       (zv_sectionBlocks (render_zone manifest (w_zone w))).
Proof.
  intros Hnodup Hw. unfold render_zone.
  set (zone := w_zone w) in *.
  set (widgets := filter (fun w' => w_zone w' = zone) (m_widgets manifest)) in *.
  set (sections := filter (fun section => s_zone section = zone) (m_sections manifest)).
  pose proof (section_blocks_fst (new_Map widgets) sections ∅) as Hfst.
  pose proof (section_blocks_snd (new_Map widgets) sections ∅) as Hsnd.
  destruct (section_blocks (new_Map widgets) sections ∅) as [blocks used].
  cbn [fst snd] in Hfst, Hsnd. cbn [zv_looseWidgets zv_sectionBlocks].
  assert (w ∈ widgets) as Hzone by by apply list_elem_of_filter.
  destruct (decide (w_id w ∈ used)) as [Hused | Hfree].
  - right. apply Hsnd in Hused as [Hused | Hused]; [set_solver |].
    apply Exists_exists in Hused as (block & Hblock & Hid).
    apply Exists_exists. exists block. split; [done |].
    apply list_elem_of_fmap in Hid as (child & Hid & Hchild).
    assert (child ∈ widgets) as Hchild_zone.
    { rewrite Hfst in Hblock. apply list_elem_of_fmap in Hblock as (section & -> & _).
      by apply section_children_elem in Hchild. }
    by rewrite (fmap_inj_on_NoDup w_id widgets w child Hnodup Hzone Hchild_zone Hid).
  - left. by apply list_elem_of_filter.
Qed.

End DashboardWidgets.

Definition sample_widget_in (id : string) (zone : Zone) : WidgetConfig :=
  {| w_id := id;
     w_title := "Progress";
     w_kind := kpi;
     w_zone := zone;
     w_capability_id := "math.progress_overview";
     w_protected := false;
     w_template_id := None;
     w_props := [] |}.

Definition sample_section : SectionConfig :=
  {| s_id := "practice";
     s_title := "Practice";
     s_zone := content;
     s_child_widget_ids := ["practice_queue"; "missing"];
     s_layout := [] |}.

Definition sample_dashboard : UiManifest :=
  manifest_with []
    [sample_widget_in "course_progress" header;
     sample_widget_in "practice_queue" content;
     sample_widget_in "learning_path" content]
    [sample_section].

Lemma every_widget_is_rendered_witness :
  NoDup (w_id <$> filter (fun w' => w_zone w' = w_zone (sample_widget_in "practice_queue" content))
                    (m_widgets sample_dashboard))
  /\ sample_widget_in "practice_queue" content ∈ m_widgets sample_dashboard
  /\ (sample_widget_in "practice_queue" content
        ∈ Dashboard.zv_looseWidgets (Dashboard.render_zone sample_dashboard content)
      \/ Exists (fun block => sample_widget_in "practice_queue" content
                               ∈ Dashboard.sb_children block)
           (Dashboard.zv_sectionBlocks (Dashboard.render_zone sample_dashboard content))).
Proof.
  assert (NoDup (w_id <$> filter (fun w' => w_zone w' = content) (m_widgets sample_dashboard)))
    as Hnodup by (apply (bool_decide_unpack _); vm_compute; reflexivity).
  assert (sample_widget_in "practice_queue" content ∈ m_widgets sample_dashboard)
    as Hin by (apply elem_of_cons; right; apply elem_of_cons; by left).
  split; [exact Hnodup |]. split; [exact Hin |].
  exact (every_widget_is_rendered sample_dashboard
           (sample_widget_in "practice_queue" content) Hnodup Hin).
Defined.

(** ** More on the workbench *)

(** Unfold one step of the workbench down to the state cells. *)
Ltac unfold_workbench :=
  unfold Workbench.step, Workbench.click, Workbench.handleGenerateDslFromPrompt,
    Workbench.handleParseDslSource, Workbench.handleValidateDslDocument,
    Workbench.handleCommitDslDocument, Workbench.handleLoadCurrentDsl,
    Workbench.handleRevertManifest, Workbench.start, Workbench.finish,
    Workbench.resetDslValidationState, Workbench.applyDslValidationState,
    Workbench.generate_disabled, Workbench.parse_disabled, Workbench.validate_disabled,
    Workbench.commit_disabled, Workbench.load_disabled, Workbench.revert_disabled.

(** Split on every test a step still branches on. *)
Ltac split_step :=
  repeat match goal with
    | |- context [if ?b then _ else _] => destruct b eqn:?; cbn
    | |- context [match ?x with Some _ => _ | None => _ end] => destruct x eqn:?; cbn
    end.

Section WorkbenchInvariants.

Import Workbench.

Variable String_of_number : Q -> string.

#[local] Abbreviation step := (step String_of_number).
#[local] Abbreviation run := (run String_of_number).

Lemma busy_tracks_pending_step (s : AppState) (e : Event) :
  busy s = bool_decide (is_Some (pending s)) ->
  busy (step s e) = bool_decide (is_Some (pending (step s e))).
Proof.
  intros Hbusy. unfold_workbench.
  destruct e; destruct (pending s) as [[] |] eqn:Hpending; cbn;
    rewrite ?setDslSource_serialized_eq; cbn; split_step;
    rewrite ?Hpending; first [ done | by rewrite Hbusy ].
Qed.

(** Over a session the [busy] flag is up exactly while a handler is
    suspended at an [await]. *)
Lemma busy_tracks_pending (defaultPrompt : string) (events : list Event) :
  busy (run (initial defaultPrompt) events)
  = bool_decide (is_Some (pending (run (initial defaultPrompt) events))).
Proof.
  unfold Workbench.run. induction events as [|e events IH] using rev_ind; [done |].
  rewrite foldl_snoc. by apply busy_tracks_pending_step.
Qed.

(** The buttons whose handler sends a request. *)
Definition request_button (e : Event) : bool :=
  match e with
  | ClickGenerateDsl | ClickParseSource | ClickValidateDsl
  | ClickCommitDsl | ClickLoadCurrentDsl | ClickRevert => true
  | _ => false
  end.

(** X6. Requests never overlap: at every moment of a session at which a
    handler is suspended on a request, each of the six buttons that would
    start another handler is disabled by the [busy] flag, so that a click
    on it changes nothing and sends nothing. *)
Theorem requests_never_overlap
    (defaultPrompt : string) (events : list Event) (e : Event) :
  is_Some (pending (run (initial defaultPrompt) events)) ->
  request_button e = true ->
  generate_disabled (run (initial defaultPrompt) events) = true
  /\ parse_disabled (run (initial defaultPrompt) events) = true
  /\ validate_disabled (run (initial defaultPrompt) events) = true
  /\ commit_disabled (run (initial defaultPrompt) events) = true
  /\ load_disabled (run (initial defaultPrompt) events) = true
  /\ revert_disabled (run (initial defaultPrompt) events) = true
  /\ step (run (initial defaultPrompt) events) e = run (initial defaultPrompt) events.
Proof.
  intros Hpending Hbutton.
  pose proof (busy_tracks_pending defaultPrompt events) as Hbusy.
  rewrite bool_decide_eq_true_2 in Hbusy by done.
  set (s := run (initial defaultPrompt) events) in *.
  unfold generate_disabled, parse_disabled, validate_disabled, commit_disabled,
    load_disabled, revert_disabled.
  rewrite Hbusy. cbn [orb]. repeat (split; [done |]).
  destruct e; try discriminate Hbutton; unfold Workbench.step, click;
    unfold generate_disabled, parse_disabled, validate_disabled, commit_disabled,
      load_disabled, revert_disabled;
    rewrite Hbusy; cbn [orb negb]; rewrite andb_false_r;
    by destruct (pending s) as [[] |].
Qed.

(** The DSL documents the server has delivered in the course of a session,
    whichever way: as the current document, as a planner's draft, as the
    parse of a source text, or as the outcome of a commit. *)
Definition delivered_by (e : Event) : list DuiDslDocument :=
  match e with
  | InitialLoadResolved _ _ currentDsl _ => [currentDsl]
  | IntentResolved response => [ir_document response]
  | ParseResolved response => [pr_document response]
  | CommitResolved response => [cr_document response]
  | LoadCurrentResolved currentDsl _ => [currentDsl]
  | _ => []
  end.

Definition delivered (events : list Event) : list DuiDslDocument :=
  events ≫= delivered_by.

(** What a request submits comes from the server. *)
Definition submits_delivered (docs : list DuiDslDocument) (request : Request) : Prop :=
  match request with
  | dsl_validate_request document => document ∈ docs
  | dsl_commit_request document approved_by => document ∈ docs /\ approved_by = "poc-user"
  | _ => True
  end.

Definition only_delivered (docs : list DuiDslDocument) (s : AppState) : Prop :=
  (forall draft, dslDraft s = Some draft -> draft ∈ docs)
  /\ Forall (submits_delivered docs) (sent s).

Lemma submits_delivered_mono docs docs' request :
  submits_delivered docs request -> submits_delivered (docs ++ docs') request.
Proof. destruct request; cbn; rewrite ?elem_of_app; tauto. Qed.

Lemma only_delivered_step (docs : list DuiDslDocument) (s : AppState) (e : Event) :
  only_delivered docs s -> only_delivered (docs ++ delivered_by e) (step s e).
Proof.
  intros [Hdraft Hsent].
  assert (Forall (submits_delivered (docs ++ delivered_by e)) (sent s)) as Hsent'.
  { eapply Forall_impl; [exact Hsent |]. intros. by apply submits_delivered_mono. }
  assert (forall draft, dslDraft s = Some draft -> draft ∈ docs ++ delivered_by e) as Hdraft'.
  { intros draft Hd. apply elem_of_app. left. by apply Hdraft. }
  clear Hdraft Hsent. unfold only_delivered. unfold_workbench.
  destruct e; destruct (pending s) as [[] |] eqn:Hpending; cbn in *;
    rewrite ?setDslSource_serialized_eq; cbn; split_step;
    (split;
     [ intros draft Hd;
       first [ by apply Hdraft' | by (apply Hdraft'; congruence)
             | by (injection Hd as <-; set_solver) ]
     | rewrite ?Forall_app, ?Forall_cons, ?Forall_nil; cbn; repeat split;
       first [ done | by (apply Hdraft'; congruence) ] ]).
Qed.

(** X7. Every document the workbench submits for validation or for commit
    is one the server delivered earlier in the session, and every commit is
    signed [poc-user]: the text in the editor is never submitted as a
    document, it only reaches the server through Parse Source. *)
Theorem only_delivered_documents_are_submitted
    (defaultPrompt : string) (events : list Event) :
  Forall (submits_delivered (delivered events))
    (sent (run (initial defaultPrompt) events)).
Proof.
  cut (only_delivered (delivered events) (run (initial defaultPrompt) events));
    [by intros [_ ?] |].
  unfold Workbench.run, delivered.
  induction events as [|e events IH] using rev_ind; [by split |].
  rewrite foldl_snoc, bind_app. cbn [mbind list_bind]. rewrite app_nil_r.
  by apply only_delivered_step.
Qed.

(** X8. A parse response settles the editor as clean whatever happened to
    the text meanwhile: when the source is edited while the parse request is
    in flight, the response installs the document parsed from the older
    text as the draft, leaves the newer text in the editor and lowers the
    locally-edited flag, so that Validate DSL is enabled, and Commit DSL
    too unless the response's verdict is [false]. *)
Theorem parse_response_marks_source_clean
    (s : AppState) (text : string) (response : DuiDslParseResponse) :
  rendered s = true ->
  pending s = Some AwaitParse ->
  let s' := run s [ChangeDslSource text; ParseResolved response] in
  dslSource s' = text
  /\ dslSourceDirty s' = false
  /\ dslDraft s' = Some (pr_document response)
  /\ validate_disabled s' = false
  /\ commit_disabled s' = negb (valid (pr_validation_result response)).
Proof.
  intros Hrendered Hpending. cbn zeta. unfold Workbench.run; cbn [foldl].
  unfold_workbench. rewrite Hrendered. cbn. rewrite Hpending. cbn.
  repeat split. by destruct (valid (pr_validation_result response)).
Qed.

End WorkbenchInvariants.

Lemma requests_never_overlap_witness :
  let events := page_up ++ [Workbench.ClickLoadCurrentDsl] in
  let s := Workbench.run Js.String_of_integer (Workbench.initial "make it compact") events in
  Workbench.pending s = Some Workbench.AwaitLoadCurrent
  /\ Workbench.commit_disabled s = true
  /\ Workbench.step Js.String_of_integer s Workbench.ClickCommitDsl = s.
Proof.
  cbn zeta. split; [vm_compute; reflexivity |].
  destruct (requests_never_overlap Js.String_of_integer "make it compact"
              (page_up ++ [Workbench.ClickLoadCurrentDsl]) Workbench.ClickCommitDsl)
    as (_ & _ & _ & Hcommit & _ & _ & Hstep);
    [vm_compute; eauto | reflexivity |].
  by split.
Defined.

Definition accepted_parse : Workbench.DuiDslParseResponse :=
  {| Workbench.pr_document := sample_document "2026-03-01T09:30:00Z";
     Workbench.pr_validation_result :=
       {| valid := true; errors := []; warnings := []; stats := [] |};
     Workbench.pr_compiled_manifest := Some sample_manifest |}.

Lemma parse_response_marks_source_clean_witness :
  let s := Workbench.run Js.String_of_integer (Workbench.initial "make it compact")
             (page_up ++ [Workbench.ClickParseSource]) in
  Workbench.rendered s = true
  /\ Workbench.pending s = Some Workbench.AwaitParse
  /\ Workbench.dslSourceDirty
       (Workbench.run Js.String_of_integer s
          [Workbench.ChangeDslSource "surface other {}"; Workbench.ParseResolved accepted_parse])
     = false
  /\ Workbench.commit_disabled
       (Workbench.run Js.String_of_integer s
          [Workbench.ChangeDslSource "surface other {}"; Workbench.ParseResolved accepted_parse])
     = false.
Proof.
  cbn zeta.
  split; [vm_compute; reflexivity |]. split; [vm_compute; reflexivity |].
  destruct (parse_response_marks_source_clean Js.String_of_integer
              (Workbench.run Js.String_of_integer (Workbench.initial "make it compact")
                 (page_up ++ [Workbench.ClickParseSource]))
              "surface other {}" accepted_parse)
    as (_ & Hclean & _ & _ & Hcommit);
    [vm_compute; reflexivity | vm_compute; reflexivity |].
  split; [exact Hclean | exact Hcommit].
Defined.

(** ** Theme tokens ([theme.ts]) *)

Module Theme.

Section ApplyTheme.

(** The inline style of the root element, a [CSSStyleDeclaration], and its
    [setProperty] method. *)
Variable Style : Type.
Variable setProperty : Style -> string -> string -> Style.

(** [Object.entries(theme.tokens).forEach(([name, value]) =>
      root.style.setProperty(`--ui-${name}`, value))] *)
Definition applyTheme (theme : ThemeConfig) (style : Style) : Style :=
  foldl (fun style entry => setProperty style ("--ui-" +:+ entry.1) entry.2)
    style (tc_tokens theme).

End ApplyTheme.

End Theme.

Section ThemeFacts.

Variable Style : Type.
Variable setProperty : Style -> string -> string -> Style.
Variable getPropertyValue : Style -> string -> string.

(** Setting one property leaves the others as they are. *)
Hypothesis setProperty_other :
  forall style property value other,
    other <> property ->
    getPropertyValue (setProperty style property value) other
    = getPropertyValue style other.

(** X9. Applying a theme writes the custom properties [--ui-<name>] of its
    own tokens and nothing else: every other property of the root style,
    a variable left by an earlier theme included, reads as before. *)
Theorem applyTheme_keeps_other_properties
    (theme : ThemeConfig) (style : Style) (property : string) :
  (forall name, name ∈ (tc_tokens theme).*1 -> property <> "--ui-" +:+ name) ->
  getPropertyValue (Theme.applyTheme Style setProperty theme style) property
  = getPropertyValue style property.
Proof.
  unfold Theme.applyTheme. generalize (tc_tokens theme) as tokens. intros tokens.
  revert style. induction tokens as [|[name value] tokens IH]; intros style Hother; [done |].
  cbn [foldl]. rewrite IH.
  - apply setProperty_other, Hother. cbn. apply elem_of_cons. by left.
  - intros name' Hname'. apply Hother. cbn. apply elem_of_cons. by right.
Qed.

End ThemeFacts.

(** A style as a finite map from property names to values. *)
Definition map_setProperty (style : gmap string string) (property value : string)
  : gmap string string :=
  <[property := value]> style.

Definition map_getPropertyValue (style : gmap string string) (property : string) : string :=
  default EmptyString (style !! property).

Lemma applyTheme_keeps_other_properties_witness :
  (forall style property value other,
      other <> property ->
      map_getPropertyValue (map_setProperty style property value) other
      = map_getPropertyValue style other)
  /\ (forall name,
        name ∈ (tc_tokens {| tc_profile := minimal; tc_density := compact;
                             tc_tokens := [("accent", "#111111")] |}).*1 ->
        "--ui-surface" <> "--ui-" +:+ name)
  /\ map_getPropertyValue
       (Theme.applyTheme (gmap string string) map_setProperty
          {| tc_profile := minimal; tc_density := compact;
             tc_tokens := [("accent", "#111111")] |}
          {[ "--ui-surface" := "#ffffff" ]})
       "--ui-surface"
     = "#ffffff".
Proof.
  assert (forall style property value other,
             other <> property ->
             map_getPropertyValue (map_setProperty style property value) other
             = map_getPropertyValue style other) as Hframe.
  { intros style property value other Hne.
    unfold map_getPropertyValue, map_setProperty. by rewrite lookup_insert_ne. }
  assert (forall name,
             name ∈ (tc_tokens {| tc_profile := minimal; tc_density := compact;
                                  tc_tokens := [("accent", "#111111")] |}).*1 ->
             "--ui-surface" <> "--ui-" +:+ name) as Hnames.
  { intros name Hname. cbn in Hname. apply list_elem_of_singleton in Hname as ->. done. }
  split; [exact Hframe |]. split; [exact Hnames |].
  rewrite (applyTheme_keeps_other_properties (gmap string string)
             map_setProperty map_getPropertyValue Hframe _ _ _ Hnames).
  reflexivity.
Defined.

(** ** The layout of printed values *)

(** One code unit of a text read against indentation level [n]: after a
    line feed, [owed] spaces must come before anything else. *)
Definition scan_char (n owed : nat) (c : ascii) : option nat :=
  match owed with
  | S k => if nat_of_ascii c =? 32 then Some k else None
  | O => if nat_of_ascii c =? 10 then Some (2 * n) else Some 0
  end.

Fixpoint scan (n owed : nat) (text : string) : option nat :=
  match text with
  | EmptyString => Some owed
  | String c rest => k ← scan_char n owed c; scan n k rest
  end.

(** Every line of the text after its first begins with [n] indentation
    steps, and the text does not end in the middle of an indentation. *)
Definition laid_out (n : nat) (text : string) : Prop := scan n 0 text = Some 0.

Section Layout.

Import DslText.

Lemma scan_app (n owed : nat) (a b : string) :
  scan n owed (a +:+ b) = k ← scan n owed a; scan n k b.
Proof.
  revert owed. induction a as [|c a IH]; intros owed; [done |].
  change (String c a +:+ b) with (String c (a +:+ b)). cbn [scan].
  destruct (scan_char n owed c) as [k |]; cbn; [apply IH | done].
Qed.

Lemma scan_control_free (n : nat) (text : string) :
  control_free text -> scan n 0 text = Some 0.
Proof.
  induction 1 as [|c rest Hc _ IH]; [done |]. cbn.
  destruct (nat_of_ascii c =? 10) eqn:Heq; [| done].
  apply Nat.eqb_eq in Heq. lia.
Qed.

Lemma scan_indent (n owed k : nat) :
  scan n owed (Js.String_repeat INDENT k) = Some (owed - 2 * k).
Proof.
  revert owed. induction k as [|k IH]; intros owed; cbn [Js.String_repeat].
  - cbn. f_equal. lia.
  - rewrite scan_app. destruct owed as [|[|owed]].
    + change (scan n 0 INDENT) with (Some 0). cbn [mbind option_bind].
      rewrite IH. f_equal.
    + change (scan n 1 INDENT) with (Some 0). cbn [mbind option_bind].
      rewrite IH. f_equal.
    + change (scan n (S (S owed)) INDENT) with (Some owed). cbn [mbind option_bind].
      rewrite IH. f_equal. lia.
Qed.

Lemma scan_mono (n m j k k' : nat) (text : string) :
  n <= m -> j <= k -> scan m k text = Some k' ->
  exists j', scan n j text = Some j' /\ j' <= k'.
Proof.
  intros Hnm. revert j k. induction text as [|c text IH]; intros j k Hjk; cbn.
  - intros [= <-]. by exists j.
  - destruct k as [|k]; cbn.
    + assert (j = 0) as -> by lia. cbn.
      destruct (nat_of_ascii c =? 10); cbn; apply IH; lia.
    + destruct (nat_of_ascii c =? 32) eqn:Hspace; cbn; [| done].
      destruct j as [|j]; cbn.
      * apply Nat.eqb_eq in Hspace.
        destruct (nat_of_ascii c =? 10) eqn:Hfeed; [apply Nat.eqb_eq in Hfeed; lia |].
        cbn. apply IH. lia.
      * rewrite Hspace. cbn. apply IH. lia.
Qed.

Lemma laid_out_mono (n m : nat) (text : string) :
  n <= m -> laid_out m text -> laid_out n text.
Proof.
  intros Hnm Hm. destruct (scan_mono n m 0 0 0 text Hnm (le_n 0) Hm) as (j & Hj & Hle).
  unfold laid_out. rewrite Hj. f_equal. lia.
Qed.

Lemma control_free_join (sep : string) (parts : list string) :
  control_free sep -> Forall control_free parts -> control_free (Js.Array_join sep parts).
Proof.
  intros Hsep. induction 1 as [|x parts Hx Hparts IH]; [constructor |].
  destruct parts as [|y parts]; [done |].
  change (control_free (x +:+ sep +:+ Js.Array_join sep (y :: parts))).
  by repeat apply control_free_app.
Qed.

(** Rows that each start a fresh line at level [n], joined by a comma and a
    line feed. *)
Lemma scan_rows (n : nat) (rows : list string) :
  rows <> [] ->
  Forall (fun row => scan n (2 * n) row = Some 0) rows ->
  scan n (2 * n) (Js.Array_join ("," +:+ Js.newline) rows) = Some 0.
Proof.
  intros Hne Hrows. induction Hrows as [|row rows Hrow Hrows IH]; [done |].
  destruct rows as [|row' rows]; [done |].
  change (scan n (2 * n)
            (row +:+ ("," +:+ Js.newline) +:+ Js.Array_join ("," +:+ Js.newline) (row' :: rows))
          = Some 0).
  rewrite scan_app, Hrow. cbn [mbind option_bind]. rewrite scan_app.
  change (scan n 0 ("," +:+ Js.newline)) with (Some (2 * n)). cbn [mbind option_bind].
  by apply IH.
Qed.

End Layout.

Section ValueLayout.

Import DslText.

Variable String_of_number : Q -> string.

(** The text of a value at an indentation level. *)
Definition text_of (value : JsonValue) (indentLevel : nat) : string :=
  value_of (formatValue String_of_number value indentLevel).

(** The one-line form of an array and of an object, whether or not it is
    the form that is printed. *)
Definition inline_array (values : list JsonValue) (indentLevel : nat) : string :=
  "[" +:+ Js.Array_join ", " ((fun value => text_of value indentLevel) <$> values) +:+ "]".

Definition inline_object (input : JsObject) (indentLevel : nat) : string :=
  "{ " +:+ Js.Array_join ", "
             ((fun entry : string * JsonValue =>
                 printed_string entry.1 +:+ ": " +:+ text_of entry.2 indentLevel) <$> input)
  +:+ " }".

Lemma formatValue_run (value : JsonValue) (indentLevel : nat) (σ : ModuleState) :
  formatValue String_of_number value indentLevel σ = (text_of value indentLevel, σ).
Proof. apply stateless_formatValue. Qed.

Lemma text_of_array (values : list JsonValue) (indentLevel : nat) :
  text_of (JArray values) indentLevel
  = if length values =? 0 then "[]"
    else if (String.length (inline_array values indentLevel) <=? 88)
            && forallb not_object_or_null values
    then inline_array values indentLevel
    else "[" +:+ Js.newline
         +:+ Js.Array_join ("," +:+ Js.newline)
               ((fun value => Js.String_repeat INDENT (indentLevel + 1)
                              +:+ text_of value (indentLevel + 1)) <$> values)
         +:+ Js.newline +:+ Js.String_repeat INDENT indentLevel +:+ "]".
Proof.
  unfold text_of at 1, inline_array. cbn [formatValue]. unfold formatArray_body.
  destruct (length values =? 0); [done |].
  rewrite value_of_bind by (repeat stateless_step; apply Forall_forall; eauto with stateless).
  rewrite value_of_mapM by (apply Forall_forall; eauto with stateless).
  fold (text_of). 
  destruct (_ && _); [done |].
  rewrite value_of_bind by
    (repeat stateless_step; apply Forall_forall; intros; repeat stateless_step).
  rewrite value_of_mapM by (apply Forall_forall; intros; repeat stateless_step).
  rewrite value_of_ret. do 4 f_equal. apply list_fmap_ext. intros _ value _.
  by rewrite value_of_bind, value_of_ret by eauto with stateless.
Qed.

Lemma text_of_object (input : JsObject) (indentLevel : nat) :
  text_of (JObject input) indentLevel
  = if length input =? 0 then "{}"
    else if (String.length (inline_object input indentLevel) <=? 100)
            && forallb (fun entry : string * JsonValue => not_object_or_null entry.2) input
    then inline_object input indentLevel
    else "{" +:+ Js.newline
         +:+ Js.Array_join ("," +:+ Js.newline)
               ((fun entry : string * JsonValue =>
                   Js.String_repeat INDENT (indentLevel + 1)
                   +:+ printed_string entry.1 +:+ ": "
                   +:+ text_of entry.2 (indentLevel + 1)) <$> input)
         +:+ Js.newline +:+ Js.String_repeat INDENT indentLevel +:+ "}".
Proof.
  unfold text_of at 1, inline_object. cbn [formatValue].
  unfold formatObject_body, Object_entries.
  destruct (length input =? 0); [done |].
  assert (forall i (entry : string * JsonValue),
             stateless (bind (formatKey entry.1)
                          (fun key => bind (formatValue String_of_number entry.2 i)
                                        (fun text => ret (key +:+ ": " +:+ text)))))
    as Hinline by (intros; repeat stateless_step).
  assert (forall i (entry : string * JsonValue),
             value_of (bind (formatKey entry.1)
                         (fun key => bind (formatValue String_of_number entry.2 i)
                                       (fun text => ret (key +:+ ": " +:+ text))))
             = printed_string entry.1 +:+ ": " +:+ text_of entry.2 i) as Hinline_value.
  { intros. by rewrite !value_of_bind, value_of_ret by eauto with stateless. }
  rewrite value_of_bind by (repeat stateless_step; apply Forall_forall; intros; apply Hinline).
  rewrite value_of_mapM by (apply Forall_forall; intros; apply Hinline).
  rewrite (list_fmap_ext _ (fun entry : string * JsonValue =>
             printed_string entry.1 +:+ ": " +:+ text_of entry.2 indentLevel) input)
    by (intros; apply Hinline_value).
  destruct (_ && _); [done |].
  rewrite value_of_bind by
    (repeat stateless_step; apply Forall_forall; intros; repeat stateless_step).
  rewrite value_of_mapM by (apply Forall_forall; intros; repeat stateless_step).
  rewrite value_of_ret. do 4 f_equal. apply list_fmap_ext. intros _ entry _.
  by rewrite !value_of_bind, value_of_ret by eauto with stateless.
Qed.

End ValueLayout.

Section LaidOutValues.

Import DslText.

Variable String_of_number : Q -> string.

(** [String(n)] spells a number with digits, a sign, a point, an exponent:
    no control character. *)
Hypothesis String_of_number_control_free :
  forall n, control_free (String_of_number n).

Lemma primitive_control_free (value : JsonValue) (indentLevel : nat) :
  not_object_or_null value = true -> control_free (text_of String_of_number value indentLevel).
Proof.
  destruct value as [| s | n | b | |]; try done; intros _;
    unfold text_of, value_of.
  - repeat constructor; vm_compute; lia.
  - rewrite formatValue_string_run. apply printed_string_control_free.
  - apply String_of_number_control_free.
  - destruct b; repeat constructor; vm_compute; lia.
Qed.

Lemma inline_array_control_free (values : list JsonValue) (indentLevel : nat) :
  forallb not_object_or_null values = true ->
  control_free (inline_array String_of_number values indentLevel).
Proof.
  intros Hprimitive. unfold inline_array.
  apply control_free_app; [repeat constructor; vm_compute; lia |].
  apply control_free_app; [| repeat constructor; vm_compute; lia].
  apply control_free_join; [repeat constructor; vm_compute; lia |].
  apply Forall_fmap, Forall_forall. intros value Hvalue.
  apply primitive_control_free.
  rewrite forallb_forall in Hprimitive. apply Hprimitive. by apply list_elem_of_In.
Qed.

Lemma inline_object_control_free (input : JsObject) (indentLevel : nat) :
  forallb (fun entry : string * JsonValue => not_object_or_null entry.2) input = true ->
  control_free (inline_object String_of_number input indentLevel).
Proof.
  intros Hprimitive. unfold inline_object.
  apply control_free_app; [repeat constructor; vm_compute; lia |].
  apply control_free_app; [| repeat constructor; vm_compute; lia].
  apply control_free_join; [repeat constructor; vm_compute; lia |].
  apply Forall_fmap, Forall_forall. intros entry Hentry. cbn beta.
  apply control_free_app; [apply printed_string_control_free |].
  apply control_free_app; [repeat constructor; vm_compute; lia |].
  apply primitive_control_free.
  rewrite forallb_forall in Hprimitive. apply (Hprimitive entry). by apply list_elem_of_In.
Qed.

(** The closing of a value broken across lines: a line feed, the indent of
    the value's own level, the bracket. *)
Lemma scan_closing (n : nat) (bracket : string) :
  control_free bracket ->
  scan n 0 (Js.newline +:+ Js.String_repeat INDENT n +:+ bracket) = Some 0.
Proof.
  intros Hbracket. rewrite scan_app.
  change (scan n 0 Js.newline) with (Some (2 * n)). cbn [mbind option_bind].
  rewrite scan_app, scan_indent. cbn [mbind option_bind].
  replace (2 * n - 2 * n) with 0 by lia. by apply scan_control_free.
Qed.

Lemma laid_out_broken (n : nat) (bracket_open bracket_close : string) (rows : list string) :
  bracket_open = "[" \/ bracket_open = "{" ->
  control_free bracket_close ->
  rows <> [] ->
  Forall (fun row => scan n (2 * n) row = Some 0) rows ->
  laid_out n (bracket_open +:+ Js.newline
              +:+ Js.Array_join ("," +:+ Js.newline) rows
              +:+ Js.newline +:+ Js.String_repeat INDENT n +:+ bracket_close).
Proof.
  intros Hopen Hclose Hne Hrows. unfold laid_out.
  rewrite scan_app.
  assert (scan n 0 bracket_open = Some 0) as -> by (by destruct Hopen as [-> | ->]).
  cbn [mbind option_bind]. rewrite scan_app.
  change (scan n 0 Js.newline) with (Some (2 * n)). cbn [mbind option_bind].
  rewrite scan_app, scan_rows by done. cbn [mbind option_bind].
  by apply scan_closing.
Qed.

Lemma laid_out_text_of (value : JsonValue) :
  forall indentLevel, laid_out indentLevel (text_of String_of_number value indentLevel).
Proof.
  induction value as [| s | n | b | values IH | entries IH] using JsonValue_ind;
    intros indentLevel;
    try (apply scan_control_free, primitive_control_free; done).
  - rewrite text_of_array.
    destruct (length values =? 0) eqn:Hlen; [done |].
    destruct (_ <=? 88) eqn:Hshort; cbn [andb];
      [destruct (forallb not_object_or_null values) eqn:Hprimitive;
       [by apply scan_control_free, inline_array_control_free |] |].
    all: apply laid_out_broken;
      [ by left | repeat constructor; vm_compute; lia
      | intros Hnil; apply fmap_nil_inv in Hnil; by subst
      | apply Forall_fmap; eapply Forall_impl; [exact IH |];
        intros value Hvalue; unfold compose; cbn beta in Hvalue |- *;
        rewrite scan_app, scan_indent; cbn [mbind option_bind];
        replace (2 * indentLevel - 2 * (indentLevel + 1)) with 0 by lia;
        apply (laid_out_mono indentLevel (indentLevel + 1)); [lia | apply Hvalue] ].
  - rewrite text_of_object.
    destruct (length entries =? 0) eqn:Hlen; [done |].
    destruct (_ <=? 100) eqn:Hshort; cbn [andb];
      [destruct (forallb _ entries) eqn:Hprimitive;
       [by apply scan_control_free, inline_object_control_free |] |].
    all: apply laid_out_broken;
      [ by right | repeat constructor; vm_compute; lia
      | intros Hnil; apply fmap_nil_inv in Hnil; by subst
      | apply Forall_fmap; eapply Forall_impl; [exact IH |];
        intros entry Hentry; unfold compose; cbn beta in Hentry |- *;
        rewrite scan_app, scan_indent; cbn [mbind option_bind];
        replace (2 * indentLevel - 2 * (indentLevel + 1)) with 0 by lia;
        rewrite scan_app, (scan_control_free _ _ (printed_string_control_free _));
        cbn [mbind option_bind]; rewrite scan_app;
        change (scan indentLevel 0 ": ") with (Some 0); cbn [mbind option_bind];
        apply (laid_out_mono indentLevel (indentLevel + 1)); [lia | apply Hentry] ].
Qed.

(** X10. Whatever the value, every line of its text after the first begins
    with the indentation of the level it is printed at: a value broken
    across lines keeps its rows one step further in and closes at its own
    level, and no string, key or number inside it starts a line of its
    own. *)
Theorem formatValue_lines_are_indented
    (value : JsonValue) (indentLevel : nat) (σ : ModuleState) :
  laid_out indentLevel (formatValue String_of_number value indentLevel σ).1.
Proof. rewrite formatValue_run. apply laid_out_text_of. Qed.

End LaidOutValues.

(** The decimal spelling of an integer has no control character, so the
    layout holds for documents whose numbers are integers. *)
Lemma string_of_uint_control_free (d : Decimal.uint) :
  control_free (NilEmpty.string_of_uint d).
Proof.
  induction d; cbn [NilEmpty.string_of_uint];
    first [apply control_free_nil | apply control_free_cons; [vm_compute; lia | done]].
Qed.

Lemma String_of_integer_control_free (n : Q) : control_free (Js.String_of_integer n).
Proof.
  unfold Js.String_of_integer.
  destruct (Z.to_int _) as [d | d]; cbn [NilZero.string_of_int NilZero.string_of_uint].
  - destruct d; try apply string_of_uint_control_free.
    repeat constructor; vm_compute; lia.
  - apply control_free_cons; [vm_compute; lia |].
    destruct d; try apply string_of_uint_control_free.
    repeat constructor; vm_compute; lia.
Qed.

Lemma formatValue_lines_are_indented_witness :
  (forall n, control_free (Js.String_of_integer n))
  /\ laid_out 1
       (DslText.formatValue Js.String_of_integer
          (JObject [("columns", JArray [JNumber 1; JObject [("line" +:+ Js.newline, JNull)]])])
          1 σ0).1.
Proof.
  split; [apply String_of_integer_control_free |].
  apply (formatValue_lines_are_indented Js.String_of_integer
           String_of_integer_control_free).
Defined.

(** ** The target of a revert *)

Section RevertTargets.

Import Workbench.

Variable String_of_number : Q -> string.

#[local] Abbreviation step := (step String_of_number).
#[local] Abbreviation run := (run String_of_number).

(** The revision histories the server has delivered. *)
Definition history_of (e : Event) : list (list UiManifest) :=
  match e with
  | InitialLoadResolved _ history _ _ => [history]
  | CommitHistoryResolved manifestHistory _ => [manifestHistory]
  | RevertHistoryResolved history => [history]
  | _ => []
  end.

Definition histories (events : list Event) : list (list UiManifest) :=
  events ≫= history_of.

(** A revert request names the revision number of the last but one entry
    of a delivered history, and that number is not 0. *)
Definition reverts_to_last_but_one
    (delivered_histories : list (list UiManifest)) (request : Request) : Prop :=
  match request with
  | revert_request target approved_by =>
      ~ (target == 0)%Q
      /\ approved_by = "poc-user"
      /\ exists history,
           history ∈ delivered_histories
           /\ 2 <= length history
           /\ m_revision <$> history !! (length history - 2) = Some target
  | _ => True
  end.

Definition reverts_within (delivered_histories : list (list UiManifest)) (s : AppState) : Prop :=
  (revisions s = [] \/ revisions s ∈ delivered_histories)
  /\ Forall (reverts_to_last_but_one delivered_histories) (sent s).

Lemma reverts_to_last_but_one_mono delivered_histories more request :
  reverts_to_last_but_one delivered_histories request ->
  reverts_to_last_but_one (delivered_histories ++ more) request.
Proof.
  destruct request; cbn; try done.
  intros (Hnonzero & Happroved & history & Hin & Hlen & Htarget).
  repeat split; try done. exists history. rewrite elem_of_app. tauto.
Qed.

Lemma olderRevision_target (delivered_histories : list (list UiManifest))
    (s : AppState) (target : Q) :
  revisions s = [] \/ revisions s ∈ delivered_histories ->
  no_olderRevision s = false ->
  olderRevision s = Some target ->
  reverts_to_last_but_one delivered_histories (revert_request target "poc-user").
Proof.
  unfold no_olderRevision. intros Hrevisions Hfalsy Holder. rewrite Holder in Hfalsy.
  unfold olderRevision in Holder.
  destruct (manifest s); [| done].
  destruct (length (revisions s) <? 2) eqn:Hlen; [done |].
  apply Nat.ltb_ge in Hlen. cbn. split; [| split; [done |]].
  - intros Hzero. apply Qeq_bool_iff in Hzero. congruence.
  - exists (revisions s). destruct Hrevisions as [Hnil | Hin]; [| done].
    rewrite Hnil in Hlen. cbn in Hlen. lia.
Qed.

Lemma reverts_within_step (delivered_histories : list (list UiManifest))
    (s : AppState) (e : Event) :
  reverts_within delivered_histories s ->
  reverts_within (delivered_histories ++ history_of e) (step s e).
Proof.
  intros [Hrevisions Hsent].
  assert (Forall (reverts_to_last_but_one (delivered_histories ++ history_of e)) (sent s))
    as Hsent'.
  { eapply Forall_impl; [exact Hsent |]. intros. by apply reverts_to_last_but_one_mono. }
  assert (revisions s = [] \/ revisions s ∈ delivered_histories ++ history_of e)
    as Hrevisions'.
  { destruct Hrevisions; [by left | right; apply elem_of_app; by left]. }
  assert (forall target, no_olderRevision s = false -> olderRevision s = Some target ->
            reverts_to_last_but_one (delivered_histories ++ history_of e)
              (revert_request target "poc-user")) as Htarget.
  { intros target. by apply olderRevision_target. }
  clear Hrevisions Hsent. unfold reverts_within. unfold_workbench.
  destruct e; destruct (pending s) as [[] |] eqn:Hpending; cbn in *;
    rewrite ?setDslSource_serialized_eq; cbn; split_step;
    (split;
     [ first [ done | right; set_solver ]
     | rewrite ?Forall_app, ?Forall_cons, ?Forall_nil;
       first [ done | by repeat split | by (repeat split; try done; apply Htarget) ] ]).
Qed.

(** X11. Every revert request the workbench sends names the revision number
    of the last but one entry of a history the server delivered, is signed
    [poc-user], and never names revision 0: a last but one entry numbered 0
    counts as no older revision at all. *)
Theorem revert_targets_last_but_one (defaultPrompt : string) (events : list Event) :
  Forall (reverts_to_last_but_one (histories events))
    (sent (run (initial defaultPrompt) events)).
Proof.
  cut (reverts_within (histories events) (run (initial defaultPrompt) events));
    [by intros [_ ?] |].
  unfold Workbench.run, histories.
  induction events as [|e events IH] using rev_ind; [by split; [left |] |].
  rewrite foldl_snoc, bind_app. cbn [mbind list_bind]. rewrite app_nil_r.
  by apply reverts_within_step.
Qed.

End RevertTargets.

(** ** Arrays and objects printed on one line *)

Fixpoint has_line_feed (text : string) : bool :=
  match text with
  | EmptyString => false
  | String c rest => (nat_of_ascii c =? 10) || has_line_feed rest
  end.

(** The members of an array, the values of an object. *)
Definition members (value : JsonValue) : list JsonValue :=
  match value with
  | JArray values => values
  | JObject input => input.*2
  | _ => []
  end.

(** The widths [formatArray] and [formatObject] allow a one-line form. *)
Definition inline_limit (value : JsonValue) : option nat :=
  match value with
  | JArray _ => Some 88
  | JObject _ => Some 100
  | _ => None
  end.

Section OneLine.

Import DslText.

Variable String_of_number : Q -> string.

Lemma has_line_feed_app (a b : string) :
  has_line_feed (a +:+ b) = has_line_feed a || has_line_feed b.
Proof.
  induction a as [|c a IH]; [done |].
  change (String c a +:+ b) with (String c (a +:+ b)). cbn [has_line_feed].
  rewrite IH. by rewrite orb_assoc.
Qed.

Lemma broken_has_line_feed (bracket rest : string) :
  has_line_feed (bracket +:+ Js.newline +:+ rest) = true.
Proof.
  rewrite !has_line_feed_app. change (has_line_feed Js.newline) with true.
  by rewrite orb_true_r.
Qed.

(** X12. An array that [formatValue] prints without a line feed is at most
    88 characters wide, an object at most 100, and none of its members is
    an array or an object: a collection that is wider, or that holds a
    collection, is always broken into one row per member. *)
Theorem single_line_collections_are_narrow
    (value : JsonValue) (indentLevel limit : nat) (σ : ModuleState) :
  inline_limit value = Some limit ->
  has_line_feed (formatValue String_of_number value indentLevel σ).1 = false ->
  String.length (formatValue String_of_number value indentLevel σ).1 <= limit
  /\ Forall (fun member => not_object_or_null member = true) (members value).
Proof.
  rewrite formatValue_run. cbn [fst].
  destruct value as [| | | | values | input]; try done; intros [= <-].
  - rewrite text_of_array. cbn [members].
    destruct values as [|value values]; [by split; [cbn; lia |] |].
    cbn [length Nat.eqb].
    destruct (_ <=? 88) eqn:Hshort; cbn [andb];
      [destruct (forallb _ _) eqn:Hprimitive |];
      rewrite ?broken_has_line_feed; try done.
    intros _. split; [by apply Nat.leb_le |].
    apply Forall_forall. intros member Hmember.
    rewrite forallb_forall in Hprimitive. apply Hprimitive. by apply list_elem_of_In.
  - rewrite text_of_object. cbn [members].
    destruct input as [|entry input]; [by split; [cbn; lia |] |].
    cbn [length Nat.eqb].
    destruct (_ <=? 100) eqn:Hshort; cbn [andb];
      [destruct (forallb _ _) eqn:Hprimitive |];
      rewrite ?broken_has_line_feed; try done.
    intros _. split; [by apply Nat.leb_le |].
    apply Forall_fmap, Forall_forall. intros member Hmember.
    rewrite forallb_forall in Hprimitive. apply (Hprimitive member).
    by apply list_elem_of_In.
Qed.

End OneLine.

Lemma single_line_collections_are_narrow_witness :
  let value := JObject [("columns", JNumber 3); ("zone", JString "main")] in
  inline_limit value = Some 100
  /\ has_line_feed (DslText.formatValue Js.String_of_integer value 2 σ0).1 = false
  /\ String.length (DslText.formatValue Js.String_of_integer value 2 σ0).1 <= 100
  /\ Forall (fun member => DslText.not_object_or_null member = true) (members value).
Proof.
  cbn zeta. split; [reflexivity |]. split; [vm_compute; reflexivity |].
  apply (single_line_collections_are_narrow Js.String_of_integer
           (JObject [("columns", JNumber 3); ("zone", JString "main")]) 2 100 σ0);
    [reflexivity | vm_compute; reflexivity].
Defined.

(** ** The body of a printed document *)

(** One code unit of a document body: at the start of a line ([owed] is 2)
    comes a line feed, which leaves the line empty, or the first of two
    spaces; once the two spaces are read anything may follow up to the
    next line feed. *)
Definition body_char (owed : nat) (c : ascii) : option nat :=
  match owed with
  | S k =>
      if nat_of_ascii c =? 32 then Some k
      else if (k =? 1) && (nat_of_ascii c =? 10) then Some 2
      else None
  | O => if nat_of_ascii c =? 10 then Some 2 else Some 0
  end.

Fixpoint scan_body (owed : nat) (text : string) : option nat :=
  match text with
  | EmptyString => Some owed
  | String c rest => k ← body_char owed c; scan_body k rest
  end.

(** Every line of the text is empty or begins with two spaces, and every
    line is closed by a line feed. *)
Definition indented_lines (text : string) : Prop := scan_body 2 text = Some 2.

(** A line that may be pushed between the opening line of a document and
    its closing brace. *)
Definition body_line (line : string) : Prop :=
  scan_body 2 (line +:+ Js.newline) = Some 2.

(** The array [lines] once the opening line is pushed. *)
Definition opened_by (header : string) (lines : list string) : Prop :=
  exists body, lines = header :: body /\ Forall body_line body.

Definition join_lines (lines : list string) : string :=
  foldr (fun line rest => line +:+ Js.newline +:+ rest) EmptyString lines.

Section DocumentBody.

Import DslText.

Variable String_of_number : Q -> string.

Hypothesis String_of_number_control_free :
  forall n, control_free (String_of_number n).

Lemma scan_body_app (owed : nat) (a b : string) :
  scan_body owed (a +:+ b) = k ← scan_body owed a; scan_body k b.
Proof.
  revert owed. induction a as [|c a IH]; intros owed; [done |].
  change (String c a +:+ b) with (String c (a +:+ b)). cbn [scan_body].
  destruct (body_char owed c) as [k |]; cbn; [apply IH | done].
Qed.

Lemma scan_scan_body (owed k : nat) (text : string) :
  scan 1 owed text = Some k -> scan_body owed text = Some k.
Proof.
  revert owed. induction text as [|c text IH]; intros owed; [done |].
  cbn [scan scan_body]. destruct owed as [|owed]; cbn [scan_char body_char].
  - destruct (nat_of_ascii c =? 10); cbn; apply IH.
  - destruct (nat_of_ascii c =? 32); cbn; [apply IH | done].
Qed.

Lemma laid_out_app (n : nat) (a b : string) :
  laid_out n a -> laid_out n b -> laid_out n (a +:+ b).
Proof. unfold laid_out. intros Ha Hb. by rewrite scan_app, Ha. Qed.

Lemma body_line_empty : body_line EmptyString.
Proof. reflexivity. Qed.

Lemma body_line_indented (rest : string) :
  laid_out 1 rest -> body_line (INDENT +:+ rest).
Proof.
  intros Hrest. unfold body_line. rewrite !scan_body_app.
  change (scan_body 2 INDENT) with (Some 0). cbn [mbind option_bind].
  by rewrite (scan_scan_body 0 0 rest Hrest).
Qed.

Lemma opened_by_snoc (header : string) (lines : list string) (line : string) :
  opened_by header lines -> body_line line -> opened_by header (lines ++ [line]).
Proof.
  intros (body & -> & Hbody) Hline. exists (body ++ [line]). split; [done |].
  apply Forall_app. by split; [| constructor].
Qed.

Lemma laid_out_formatValue (value : JsonValue) (indentLevel : nat) :
  1 <= indentLevel -> laid_out 1 (value_of (formatValue String_of_number value indentLevel)).
Proof.
  intros Hlevel. apply (laid_out_mono 1 indentLevel); [done |].
  by apply laid_out_text_of.
Qed.

Lemma laid_out_formatObject (input : JsObject) (indentLevel : nat) :
  1 <= indentLevel -> laid_out 1 (value_of (formatObject String_of_number input indentLevel)).
Proof. apply (laid_out_formatValue (JObject input)). Qed.

Lemma laid_out_formatArray (values : list JsonValue) (indentLevel : nat) :
  1 <= indentLevel -> laid_out 1 (value_of (formatArray String_of_number values indentLevel)).
Proof. apply (laid_out_formatValue (JArray values)). Qed.

Lemma laid_out_formatIdentifier (value : string) :
  laid_out 1 (value_of (formatIdentifier value)).
Proof. apply scan_control_free, printed_string_control_free. Qed.

Lemma control_free_indent (k : nat) : control_free (Js.String_repeat INDENT k).
Proof.
  induction k as [|k IH]; [constructor |]. cbn [Js.String_repeat].
  apply control_free_app; [| done]. repeat constructor; vm_compute; lia.
Qed.

End DocumentBody.

(** The text of a pushed line is laid out at level 1, piece by piece. *)
Ltac laid_out_step :=
  match goal with
  | |- laid_out _ (_ +:+ _) => apply laid_out_app
  | |- laid_out _ (value_of (DslText.formatIdentifier _)) => apply laid_out_formatIdentifier
  | |- laid_out _ (value_of (DslText.formatValue _ _ _)) =>
      apply laid_out_formatValue; [assumption | lia]
  | |- laid_out _ (value_of (DslText.formatObject _ _ _)) =>
      apply laid_out_formatObject; [assumption | lia]
  | |- laid_out _ (value_of (DslText.formatArray _ _ _)) =>
      apply laid_out_formatArray; [assumption | lia]
  | |- laid_out _ (String _ _) =>
      apply scan_control_free; repeat constructor; vm_compute; lia
  | |- laid_out _ DslText.INDENT =>
      apply scan_control_free; repeat constructor; vm_compute; lia
  | |- laid_out _ _ => apply scan_control_free; auto using control_free_indent
  end.

Ltac body_line_step :=
  match goal with
  | |- body_line EmptyString => apply body_line_empty
  | |- body_line (DslText.INDENT +:+ _) => apply body_line_indented; repeat laid_out_step
  end.

(** The value of the next bind or branch of a computation on [lines]. *)
Ltac lines_step :=
  first
    [ rewrite value_of_bind by (repeat stateless_step)
    | rewrite value_of_ret
    | match goal with
      | |- context [value_of (if ?b then _ else _)] => destruct b
      | |- context [value_of (match ?x with Some _ => _ | None => _ end)] => destruct x
      end ].

Section DocumentLines.

Import DslText.

Variable String_of_number : Q -> string.

Hypothesis String_of_number_control_free :
  forall n, control_free (String_of_number n).

Variable header : string.

Lemma opened_by_pushOptionalObjectBlock lines label value indentLevel :
  1 <= indentLevel ->
  control_free label ->
  opened_by header lines ->
  opened_by header
    (value_of (pushOptionalObjectBlock String_of_number lines label value indentLevel)).
Proof.
  intros Hlevel Hlabel Hlines. rewrite value_of_pushOptionalObjectBlock.
  destruct (length (Object_keys value) =? 0); [by rewrite app_nil_r |].
  apply opened_by_snoc; [done |].
  destruct indentLevel as [|k]; [lia |]. cbn [Js.String_repeat].
  rewrite <- string_app_assoc. apply body_line_indented.
  apply laid_out_app; [apply scan_control_free, control_free_indent |].
  apply laid_out_app; [by apply scan_control_free |].
  apply laid_out_app; [done |].
  by apply laid_out_formatObject.
Qed.

Ltac opened_by_step :=
  match goal with
  | H : opened_by ?h ?lines |- opened_by ?h ?lines => exact H
  | |- opened_by _ (_ ++ [_]) => apply opened_by_snoc; [| body_line_step]
  | |- opened_by _ (value_of (pushOptionalObjectBlock _ _ _ _ _)) =>
      apply opened_by_pushOptionalObjectBlock;
      [lia | repeat constructor; vm_compute; lia |]
  | |- opened_by _ (value_of _) => lines_step
  end.

Lemma opened_by_push_action lines action :
  opened_by header lines ->
  opened_by header (value_of (push_action String_of_number lines action)).
Proof. intros Hlines. unfold push_action. repeat opened_by_step. Qed.

Lemma opened_by_push_node lines node :
  opened_by header lines ->
  opened_by header (value_of (push_node String_of_number lines node)).
Proof. intros Hlines. unfold push_node. repeat opened_by_step. Qed.

Lemma opened_by_push_binding lines binding :
  opened_by header lines ->
  opened_by header (value_of (push_binding String_of_number lines binding)).
Proof. intros Hlines. unfold push_binding. repeat opened_by_step. Qed.

Lemma opened_by_for_of {A : Type} (body : list string -> A -> M (list string))
    (items : list A) :
  (forall lines item, stateless (body lines item)) ->
  (forall lines item, opened_by header lines -> opened_by header (value_of (body lines item))) ->
  forall lines,
    opened_by header lines -> opened_by header (value_of (for_of body items lines)).
Proof.
  intros Hstateless Hbody. induction items as [|item rest IH]; intros lines Hlines; [done |].
  change (for_of body (item :: rest) lines)
    with (bind (body lines item) (fun lines => for_of body rest lines)).
  rewrite value_of_bind by done. by apply IH, Hbody.
Qed.

End DocumentLines.

Section DocumentText.

Import DslText.

Variable String_of_number : Q -> string.

Hypothesis String_of_number_control_free :
  forall n, control_free (String_of_number n).

Lemma opened_by_serialize_lines (document : DuiDslDocument) :
  exists lines,
    value_of (serialize_lines String_of_number document) = lines ++ ["}"]
    /\ opened_by
         ("surface " +:+ printed_string (surface_id (surface document)) +:+ " {") lines.
Proof.
  unfold serialize_lines.
  rewrite !value_of_bind by
    (repeat first [ apply stateless_for_of; intros | stateless_step ]).
  rewrite value_of_ret. eexists. split; [reflexivity |].
  repeat (apply opened_by_for_of;
          [ intros; first [ apply stateless_push_binding | apply stateless_push_node
                          | apply stateless_push_action ]
          | intros;
            first [ by apply opened_by_push_binding | by apply opened_by_push_node
                  | by apply opened_by_push_action ]
          | ]).
  do 2 (apply opened_by_pushOptionalObjectBlock;
        [done | lia | repeat constructor; vm_compute; lia |]).
  assert (opened_by
            ("surface " +:+ printed_string (surface_id (surface document)) +:+ " {")
            ([] ++ ["surface " +:+ value_of (formatIdentifier (surface_id (surface document)))
                    +:+ " {"])) as Hopened by (by exists []).
  destruct (length (Object_keys (tokens (theme document))) =? 0);
    repeat lines_step;
    (apply opened_by_snoc; [| body_line_step]);
    (apply opened_by_snoc; [| body_line_step]);
    (apply opened_by_snoc; [exact Hopened | body_line_step]).
Qed.

Lemma join_lines_closed (header : string) (body : list string) :
  Js.Array_join Js.newline (header :: body ++ ["}"])
  = header +:+ Js.newline +:+ join_lines body +:+ "}".
Proof.
  revert header. induction body as [|line body IH]; intros header; [done |].
  change (header +:+ Js.newline +:+ Js.Array_join Js.newline (line :: body ++ ["}"])
          = header +:+ Js.newline +:+ (line +:+ Js.newline +:+ join_lines body) +:+ "}").
  by rewrite IH, <- !string_app_assoc.
Qed.

Lemma join_lines_indented (body : list string) :
  Forall body_line body -> indented_lines (join_lines body).
Proof.
  unfold indented_lines. induction 1 as [|line body Hline _ IH]; [done |].
  cbn [join_lines foldr]. rewrite string_app_assoc, scan_body_app.
  unfold body_line in Hline. rewrite Hline. exact IH.
Qed.

(** X13. A printed document is its opening line [surface <id> {], a body,
    and a closing brace on a line of its own; every line of the body is
    empty or begins with two spaces, whatever the strings, keys and nested
    values of the document: the closing brace is the only line after the
    first that starts in the first column. *)
Theorem serializeDuiDslDocument_body_is_indented
    (document : DuiDslDocument) (σ : ModuleState) :
  exists body,
    (serializeDuiDslDocument String_of_number document σ).1
    = "surface " +:+ printed_string (surface_id (surface document)) +:+ " {" +:+ Js.newline
      +:+ body +:+ "}" +:+ Js.newline
    /\ indented_lines body.
Proof.
  rewrite (stateless_serializeDuiDslDocument String_of_number document σ). cbn [fst].
  unfold serializeDuiDslDocument.
  rewrite value_of_bind, value_of_ret by apply stateless_serialize_lines.
  destruct (opened_by_serialize_lines document) as (lines & -> & body & -> & Hbody).
  exists (join_lines body). split; [| by apply join_lines_indented].
  change ((?header :: body) ++ ["}"]) with (header :: body ++ ["}"]).
  rewrite join_lines_closed. by rewrite <- !string_app_assoc.
Qed.

End DocumentText.

Lemma serializeDuiDslDocument_body_is_indented_witness :
  (forall n, control_free (Js.String_of_integer n))
  /\ exists body,
       print (sample_document "2026-03-01T09:30:00Z")
       = "surface " +:+ printed_string "math_lms.dashboard" +:+ " {" +:+ Js.newline
         +:+ body +:+ "}" +:+ Js.newline
       /\ indented_lines body.
Proof.
  split; [apply String_of_integer_control_free |].
  apply (serializeDuiDslDocument_body_is_indented Js.String_of_integer
           String_of_integer_control_free (sample_document "2026-03-01T09:30:00Z") σ0).
Defined.

(** ** What the text tells of a document *)

(** *** Texts and what follows them *)

Lemma append_cons (c : ascii) (a b : string) : String c a +:+ b = String c (a +:+ b).
Proof. reflexivity. Qed.

Lemma append_nil (b : string) : EmptyString +:+ b = b.
Proof. reflexivity. Qed.

Lemma string_app_inv_head (s r1 r2 : string) : s +:+ r1 = s +:+ r2 -> r1 = r2.
Proof.
  induction s as [|c s IH]; [done |]. rewrite !append_cons. intros [= H]. by apply IH.
Qed.

(** The code units a bare word or a number is spelt with: letters, digits,
    [_], [.], [-] and [+]. *)
Definition token_char (c : ascii) : bool :=
  let n := nat_of_ascii c in
  ((65 <=? n) && (n <=? 90)) || ((97 <=? n) && (n <=? 122)) || ((48 <=? n) && (n <=? 57))
  || (n =? 95) || (n =? 46) || (n =? 45) || (n =? 43).

Fixpoint all_token_chars (word : string) : bool :=
  match word with
  | EmptyString => true
  | String c rest => token_char c && all_token_chars rest
  end.

(** The text that follows a word ends it: it is empty or begins with a
    code unit no word is spelt with. *)
Definition ends_word (rest : string) : bool :=
  match rest with
  | EmptyString => true
  | String c _ => negb (token_char c)
  end.

(** Reads the word a text begins with; returns it and the text left. *)
Fixpoint read_word (text : string) : string * string :=
  match text with
  | EmptyString => (EmptyString, EmptyString)
  | String c rest =>
      if token_char c then
        let (word, left) := read_word rest in (String c word, left)
      else (EmptyString, text)
  end.

Lemma read_word_app (word rest : string) :
  all_token_chars word = true -> ends_word rest = true ->
  read_word (word +:+ rest) = (word, rest).
Proof.
  intros Hword Hrest. induction word as [|c word IH].
  - rewrite append_nil. destruct rest as [|c rest]; [done |].
    cbn in Hrest. cbn [read_word]. by destruct (token_char c).
  - cbn in Hword. apply andb_true_iff in Hword as [Hc Hword].
    rewrite append_cons. cbn [read_word]. rewrite Hc, IH by done. done.
Qed.

Lemma word_inj (w1 w2 r1 r2 : string) :
  all_token_chars w1 = true -> all_token_chars w2 = true ->
  ends_word r1 = true -> ends_word r2 = true ->
  w1 +:+ r1 = w2 +:+ r2 -> w1 = w2 /\ r1 = r2.
Proof.
  intros Hw1 Hw2 Hr1 Hr2 Heq. apply (f_equal read_word) in Heq.
  rewrite !read_word_app in Heq by done. by injection Heq.
Qed.

Lemma name_char_token (c : ascii) : name_char c -> token_char c = true.
Proof.
  unfold name_char, token_char. cbn zeta. intros H.
  rewrite !orb_true_iff, !andb_true_iff, !Nat.leb_le, !Nat.eqb_eq. lia.
Qed.

Lemma all_name_chars_token (s : string) : all_name_chars s -> all_token_chars s = true.
Proof.
  induction 1 as [|c rest Hc _ IH]; [done |]. cbn. by rewrite name_char_token.
Qed.

Lemma identifier_token (s : string) :
  matches_identifier_pattern s -> all_token_chars s = true.
Proof.
  intros (c & rest & -> & Hc & Hrest). cbn.
  rewrite all_name_chars_token by done. rewrite name_char_token; [done |].
  unfold name_start, name_char in *. cbn zeta in *. lia.
Qed.

(** Reads a printed string and what follows it: a literal up to its
    closing quote, a bare word up to its end. *)
Definition read_string (text : string) : option (string * string) :=
  match text with
  | String c rest =>
      if nat_of_ascii c =? 34 then read_string_body rest else Some (read_word text)
  | EmptyString => None
  end.

Lemma read_string_printed (s rest : string) :
  ends_word rest = true -> read_string (printed_string s +:+ rest) = Some (s, rest).
Proof.
  intros Hrest. rewrite printed_string_eq.
  assert (read_string (Js.JSON_stringify s +:+ rest) = Some (s, rest)) as Hquoted.
  { unfold Js.JSON_stringify. rewrite <- !string_app_assoc.
    change (Js.dquote +:+ ?x) with (String "034"%char x).
    cbn [read_string]. change (nat_of_ascii "034" =? 34) with true. cbn match.
    apply read_string_body_escape_all. }
  destruct (bool_decide (matches_identifier_pattern s)) eqn:Hm; cbn [andb]; [| done].
  destruct (negb _); [| done].
  apply bool_decide_eq_true in Hm. pose proof (identifier_token s Hm) as Htoken.
  destruct Hm as (c & word & -> & Hc & _). rewrite append_cons. cbn [read_string].
  destruct (nat_of_ascii c =? 34) eqn:Hquote.
  { apply Nat.eqb_eq in Hquote. unfold name_start in Hc. cbn zeta in Hc. lia. }
  rewrite <- append_cons. by rewrite read_word_app.
Qed.

Lemma printed_string_inj (s1 s2 r1 r2 : string) :
  ends_word r1 = true -> ends_word r2 = true ->
  printed_string s1 +:+ r1 = printed_string s2 +:+ r2 -> s1 = s2 /\ r1 = r2.
Proof.
  intros Hr1 Hr2 Heq. apply (f_equal read_string) in Heq.
  rewrite !read_string_printed in Heq by done. by injection Heq.
Qed.

(** *** Numbers

    [String(n)] is not among the sources.  What the printer needs of it
    to keep numbers apart is stated of the numbers [number] admits: their
    texts begin with a digit or a minus sign, are spelt with the code units
    of a word, and differ for different numbers. *)

Definition number_text (text : string) : bool :=
  match text with
  | String c _ =>
      let n := nat_of_ascii c in
      (((48 <=? n) && (n <=? 57)) || (n =? 45)) && all_token_chars text
  | EmptyString => false
  end.

(** Every number inside a value is one that [number] admits. *)
Fixpoint numbers_in (number : Q -> bool) (value : JsonValue) : bool :=
  match value with
  | JNumber n => number n
  | JArray values => forallb (numbers_in number) values
  | JObject entries => forallb (fun entry => numbers_in number entry.2) entries
  | _ => true
  end.

(** What a text opens with: a word, a quote, a bracket, a brace, or
    something else. *)
Definition opening (text : string) : nat :=
  match text with
  | String c _ =>
      if token_char c then 0
      else if nat_of_ascii c =? 34 then 1
      else if nat_of_ascii c =? 91 then 2
      else if nat_of_ascii c =? 123 then 3
      else 4
  | EmptyString => 4
  end.

(** A string that is printed bare. *)
Definition bare (s : string) : bool :=
  bool_decide (matches_identifier_pattern s) && negb (bool_decide (s ∈ DslText.RESERVED_WORDS)).

(** The values printed as a word. *)
Definition word_value (value : JsonValue) : bool :=
  match value with
  | JNull | JBoolean _ | JNumber _ => true
  | JString s => bare s
  | JArray _ | JObject _ => false
  end.

Definition value_opening (value : JsonValue) : nat :=
  match value with
  | JArray _ => 2
  | JObject _ => 3
  | JString s => if bare s then 0 else 1
  | _ => 0
  end.

Lemma Array_join_cons (sep x : string) (l : list string) :
  Js.Array_join sep (x :: l)
  = match l with [] => x | _ => x +:+ sep +:+ Js.Array_join sep l end.
Proof. by destruct l. Qed.

Lemma Array_join_head (sep x : string) (l : list string) (r : string) :
  exists r', Js.Array_join sep (x :: l) +:+ r = x +:+ r'.
Proof.
  rewrite Array_join_cons. destruct l; [by eexists |].
  rewrite <- !string_app_assoc. by eexists.
Qed.

Lemma opening_app (text rest : string) :
  text <> EmptyString -> opening (text +:+ rest) = opening text.
Proof. by destruct text. Qed.

Lemma opening_word (word : string) :
  all_token_chars word = true -> word <> EmptyString -> opening word = 0.
Proof.
  destruct word as [|c word]; [done |]. cbn. intros H _.
  apply andb_true_iff in H as [-> _]. done.
Qed.

(** Joined texts tell their parts apart when each part ends where a word
    ends and the separator cannot be taken for the closing text. *)
Lemma Array_join_inj {A : Type} (f : A -> string) (sep close : string)
    (P : A -> Prop) (l1 l2 : list A) (r1 r2 : string) :
  Forall (fun a => forall b r1 r2, P b -> ends_word r1 = true -> ends_word r2 = true ->
                     f a +:+ r1 = f b +:+ r2 -> a = b /\ r1 = r2) l1 ->
  Forall P l2 ->
  (forall x, ends_word (sep +:+ x) = true) ->
  (forall x, ends_word (close +:+ x) = true) ->
  (forall x y, sep +:+ x = close +:+ y -> False) ->
  l1 <> [] -> l2 <> [] ->
  Js.Array_join sep (f <$> l1) +:+ close +:+ r1
  = Js.Array_join sep (f <$> l2) +:+ close +:+ r2 ->
  l1 = l2 /\ r1 = r2.
Proof.
  intros Hl1 Hl2 Hsep Hclose Hdiff. revert l2 Hl2.
  induction Hl1 as [|a l1 Ha Hl1 IH]; intros l2 Hl2 Hne1 Hne2; [done |].
  destruct l2 as [|b l2]; [done |].
  apply Forall_cons in Hl2 as [Hb Hl2].
  rewrite !fmap_cons, !Array_join_cons.
  destruct l1 as [|a' l1], l2 as [|b' l2]; cbn [fmap list_fmap];
    rewrite <- ?string_app_assoc; intros Heq.
  - apply Ha in Heq as [-> Heq]; [| done..].
    apply string_app_inv_head in Heq. by subst.
  - apply Ha in Heq as [_ Heq]; [| done..]. symmetry in Heq. by apply Hdiff in Heq.
  - apply Ha in Heq as [_ Heq]; [| done..]. by apply Hdiff in Heq.
  - apply Ha in Heq as [-> Heq]; [| done..].
    apply string_app_inv_head in Heq.
    destruct (IH (b' :: l2) Hl2) as [Hl Hr]; [done | done | done |].
    by rewrite Hl, Hr.
Qed.

Section ValuesApart.

Import DslText.

Variable String_of_number : Q -> string.
Variable number : Q -> bool.

Hypothesis String_of_number_text :
  forall n, number n = true -> number_text (String_of_number n) = true.

Hypothesis String_of_number_inj :
  forall n1 n2, number n1 = true -> number n2 = true ->
    String_of_number n1 = String_of_number n2 -> n1 = n2.

#[local] Abbreviation text := (text_of String_of_number).

Lemma text_of_string (s : string) (indentLevel : nat) :
  text (JString s) indentLevel = printed_string s.
Proof. unfold text_of, value_of. by rewrite formatValue_string_run. Qed.

Lemma bare_printed (s : string) : bare s = true -> printed_string s = s.
Proof. rewrite printed_string_eq. unfold bare. by intros ->. Qed.

Lemma quoted_printed (s : string) : bare s = false -> printed_string s = Js.JSON_stringify s.
Proof. rewrite printed_string_eq. unfold bare. by intros ->. Qed.

Lemma bare_word (s : string) :
  bare s = true -> all_token_chars s = true /\ s <> EmptyString /\ ~ reserved_word s.
Proof.
  unfold bare. intros H. apply andb_true_iff in H as [Hm Hr].
  apply bool_decide_eq_true in Hm. apply negb_true_iff, bool_decide_eq_false in Hr.
  split; [by apply identifier_token |]. split.
  - by destruct Hm as (? & ? & -> & _).
  - by rewrite <- RESERVED_WORDS_has.
Qed.

Lemma number_word (n : Q) :
  number n = true ->
  all_token_chars (String_of_number n) = true /\ String_of_number n <> EmptyString.
Proof.
  intros Hn. apply String_of_number_text in Hn. unfold number_text in Hn.
  destruct (String_of_number n) as [|c rest]; [done |].
  apply andb_true_iff in Hn as [_ Hn]. done.
Qed.

(** The text of a value printed as a word is a word. *)
Lemma word_value_text (value : JsonValue) (indentLevel : nat) :
  word_value value = true -> numbers_in number value = true ->
  all_token_chars (text value indentLevel) = true /\ text value indentLevel <> EmptyString.
Proof.
  destruct value as [| s | n | b | |]; cbn [word_value numbers_in]; try done; intros Hw Hn.
  - rewrite text_of_string, bare_printed by done. apply bare_word in Hw. tauto.
  - by apply number_word.
  - by destruct b.
Qed.

Lemma number_not_word (n : Q) (s : string) :
  number n = true -> String_of_number n = s ->
  (exists c rest, s = String c rest /\ name_start c) \/ reserved_word s -> False.
Proof.
  intros Hn Heq Hs. apply String_of_number_text in Hn. rewrite Heq in Hn.
  destruct Hs as [(c & rest & -> & Hc) | [-> | [-> | ->]]]; try done.
  cbn in Hn. unfold name_start in Hc. cbn zeta in Hc.
  apply andb_true_iff in Hn as [Hn _].
  rewrite orb_true_iff, andb_true_iff, !Nat.leb_le, Nat.eqb_eq in Hn. lia.
Qed.

(** Two values printed as the same word are the same value. *)
Lemma word_value_inj (v1 v2 : JsonValue) (i : nat) :
  word_value v1 = true -> word_value v2 = true ->
  numbers_in number v1 = true -> numbers_in number v2 = true ->
  text v1 i = text v2 i -> v1 = v2.
Proof.
  assert (forall s, bare s = true -> exists c rest, s = String c rest /\ name_start c)
    as Hstart.
  { intros s Hs. unfold bare in Hs. apply andb_true_iff in Hs as [Hm _].
    apply bool_decide_eq_true in Hm as (c & rest & -> & Hc & _). eauto. }
  destruct v1 as [| s1 | n1 | b1 | |], v2 as [| s2 | n2 | b2 | |];
    cbn [word_value numbers_in]; try done; intros Hw1 Hw2 Hn1 Hn2;
    rewrite ?text_of_string, ?(bare_printed _ Hw1), ?(bare_printed _ Hw2);
    change (text JNull i) with "null";
    change (text (JNumber ?n) i) with (String_of_number n);
    change (text (JBoolean ?b) i) with (Js.String_of_boolean b);
    intros Heq.
  - apply bare_word in Hw2 as (_ & _ & Hr). exfalso. apply Hr. right. right. done.
  - exfalso. symmetry in Heq. eapply number_not_word; [exact Hn2 | exact Heq |].
    right. right. right. done.
  - by destruct b2.
  - apply bare_word in Hw1 as (_ & _ & Hr). exfalso. apply Hr. right. right. done.
  - congruence.
  - exfalso. symmetry in Heq. eapply number_not_word; [exact Hn2 | exact Heq |].
    left. by apply Hstart.
  - apply bare_word in Hw1 as (_ & _ & Hr). exfalso. apply Hr.
    destruct b2; [left | right; left]; done.
  - exfalso. eapply number_not_word; [exact Hn1 | exact Heq |]. right. right. right. done.
  - exfalso. eapply number_not_word; [exact Hn1 | exact Heq |]. left. by apply Hstart.
  - f_equal. by apply String_of_number_inj.
  - exfalso. eapply number_not_word; [exact Hn1 | exact Heq |].
    destruct b2; [right; left | right; right; left]; done.
  - by destruct b1.
  - apply bare_word in Hw2 as (_ & _ & Hr). exfalso. apply Hr.
    destruct b1; [left | right; left]; done.
  - exfalso. symmetry in Heq. eapply number_not_word; [exact Hn2 | exact Heq |].
    destruct b1; [right; left | right; right; left]; done.
  - by destruct b1, b2.
Qed.

(** A value's text is never empty, and opens as its kind does. *)
Lemma text_opening (value : JsonValue) (indentLevel : nat) (rest : string) :
  numbers_in number value = true ->
  opening (text value indentLevel +:+ rest) = value_opening value.
Proof.
  intros Hn. destruct value as [| s | n | b | values | input].
  - done.
  - rewrite text_of_string. cbn [value_opening].
    destruct (bare s) eqn:Hs.
    + rewrite bare_printed by done. apply bare_word in Hs as (Hs & Hne & _).
      rewrite opening_app by done. by apply opening_word.
    + by rewrite quoted_printed.
  - change (text (JNumber n) indentLevel) with (String_of_number n).
    destruct (number_word n Hn) as [Hw Hne].
    rewrite opening_app by done. by apply opening_word.
  - by destruct b.
  - rewrite text_of_array. destruct (length values =? 0); [done |].
    by destruct (_ && _).
  - rewrite text_of_object. destruct (length input =? 0); [done |].
    by destruct (_ && _).
Qed.

Lemma value_opening_word (value : JsonValue) :
  value_opening value = 0 <-> word_value value = true.
Proof. destruct value as [| s | | | |]; cbn; try done. by destruct (bare s). Qed.

Lemma value_opening_lt (value : JsonValue) : value_opening value < 4.
Proof. destruct value as [| s | | | |]; cbn; try lia. destruct (bare s); lia. Qed.

End ValuesApart.

Section ValueTexts.

Import DslText.

Variable String_of_number : Q -> string.
Variable number : Q -> bool.

Hypothesis String_of_number_text :
  forall n, number n = true -> number_text (String_of_number n) = true.

Hypothesis String_of_number_inj :
  forall n1 n2, number n1 = true -> number n2 = true ->
    String_of_number n1 = String_of_number n2 -> n1 = n2.

#[local] Abbreviation text := (text_of String_of_number).

(** What it is for the text of [v1] to tell [v1] apart. *)
Definition told_apart (v1 : JsonValue) : Prop :=
  forall v2 i r1 r2,
    numbers_in number v2 = true ->
    ends_word r1 = true -> ends_word r2 = true ->
    text v1 i +:+ r1 = text v2 i +:+ r2 ->
    v1 = v2 /\ r1 = r2.

Lemma primitive_told_apart (v1 : JsonValue) :
  not_object_or_null v1 = true -> numbers_in number v1 = true -> told_apart v1.
Proof.
  intros Hprimitive Hn1 v2 i r1 r2 Hn2 Hr1 Hr2 Heq.
  pose proof (f_equal opening Heq) as Hopen.
  rewrite !(text_opening String_of_number number) in Hopen by done.
  destruct (word_value v1) eqn:Hw1.
  - apply value_opening_word in Hw1 as Ho1. rewrite Ho1 in Hopen.
    symmetry in Hopen. apply value_opening_word in Hopen as Hw2.
    destruct (word_value_text String_of_number number String_of_number_text
                v1 i Hw1 Hn1) as [Ht1 _].
    destruct (word_value_text String_of_number number String_of_number_text
                v2 i Hw2 Hn2) as [Ht2 _].
    destruct (word_inj _ _ _ _ Ht1 Ht2 Hr1 Hr2 Heq) as [Htext Hrest].
    split; [| done].
    by apply (word_value_inj String_of_number number String_of_number_text
                String_of_number_inj v1 v2 i).
  - destruct v1 as [| s1 | | | |]; try done. cbn in Hw1, Hopen. rewrite Hw1 in Hopen.
    destruct v2 as [| s2 | | | |]; try done.
    rewrite !text_of_string in Heq.
    apply printed_string_inj in Heq as [-> ->]; done.
Qed.

End ValueTexts.

Section CollectionTexts.

Import DslText.

Variable String_of_number : Q -> string.
Variable number : Q -> bool.

Hypothesis String_of_number_text :
  forall n, number n = true -> number_text (String_of_number n) = true.

Hypothesis String_of_number_inj :
  forall n1 n2, number n1 = true -> number n2 = true ->
    String_of_number n1 = String_of_number n2 -> n1 = n2.

#[local] Abbreviation text := (text_of String_of_number).
#[local] Abbreviation apart := (told_apart String_of_number number).

Lemma length_eqb_0 {A : Type} (l : list A) : (length l =? 0) = true -> l = [].
Proof. by destruct l. Qed.

Lemma length_eqb_0_false {A : Type} (l : list A) : (length l =? 0) = false -> l <> [].
Proof. by destruct l. Qed.

(** The first member of a list of texts opens the joined text. *)
Lemma opening_members (sep : string) (values : list JsonValue) (i : nat) (rest : string) :
  values <> [] -> forallb (numbers_in number) values = true ->
  opening (Js.Array_join sep ((fun value => text value i) <$> values) +:+ rest) < 4.
Proof.
  destruct values as [|value values]; [done |]. intros _ Hn.
  cbn in Hn. apply andb_true_iff in Hn as [Hn _]. rewrite fmap_cons.
  destruct (Array_join_head sep (text value i)
              ((fun value => text value i) <$> values) rest) as [r' ->].
  rewrite (text_opening String_of_number number) by done. apply value_opening_lt.
Qed.

Lemma forallb_true_Forall {A : Type} (f : A -> bool) (l : list A) :
  forallb f l = true -> Forall (fun x => f x = true) l.
Proof.
  induction l as [|x l IH]; [constructor |]. cbn. intros H.
  apply andb_true_iff in H as [Hx Hl]. constructor; auto.
Qed.

Lemma opening_differs (a b : string) : a = b -> opening a = 4 -> opening b < 4 -> False.
Proof. intros ->. lia. Qed.

Lemma array_told_apart (values : list JsonValue) :
  Forall apart values ->
  forallb (numbers_in number) values = true ->
  apart (JArray values).
Proof.
  intros IH Hn1 v2 i r1 r2 Hn2 Hr1 Hr2 Heq.
  pose proof (f_equal opening Heq) as Hopen.
  rewrite !(text_opening String_of_number number) in Hopen by done.
  destruct v2 as [| s2 | | | values2 |]; try done;
    [cbn in Hopen; by destruct (bare s2) |].
  clear Hopen. cbn [numbers_in] in Hn2.
  rewrite !text_of_array in Heq. unfold inline_array in Heq.
  destruct (length values =? 0) eqn:Hlen1, (length values2 =? 0) eqn:Hlen2.
  - apply length_eqb_0 in Hlen1, Hlen2. subst.
    apply (string_app_inv_head "[]") in Heq. by subst.
  - exfalso. apply length_eqb_0_false in Hlen2.
    destruct (_ && _); rewrite <- !string_app_assoc, !append_cons, !append_nil in Heq;
      injection Heq as Heq; [| done].
    eapply opening_differs; [exact Heq | reflexivity | by apply opening_members].
  - exfalso. apply length_eqb_0_false in Hlen1.
    destruct (_ && _); rewrite <- !string_app_assoc, !append_cons, !append_nil in Heq;
      injection Heq as Heq; [| done].
    eapply opening_differs; [symmetry; exact Heq | reflexivity | by apply opening_members].
  - apply length_eqb_0_false in Hlen1, Hlen2.
    destruct (_ && _) eqn:Hinline1 in Heq; destruct (_ && _) eqn:Hinline2 in Heq;
      rewrite <- !string_app_assoc in Heq;
      apply (string_app_inv_head "[") in Heq.
    + destruct (Array_join_inj (fun value => text value i) ", " "]"
                  (fun value => numbers_in number value = true)
                  values values2 r1 r2) as [-> ->];
        [ | by apply forallb_true_Forall | done | done
          | by (intros x y; rewrite !append_cons) | done | done | done | done ].
      eapply Forall_impl; [exact IH |]. intros v Hv b q1 q2 Hb Hq1 Hq2.
      by apply Hv.
    + exfalso.
      eapply opening_differs; [symmetry; exact Heq | reflexivity | by apply opening_members].
    + exfalso.
      eapply opening_differs; [exact Heq | reflexivity | by apply opening_members].
    + apply (string_app_inv_head Js.newline) in Heq.
      destruct (Array_join_inj
                  (fun value => Js.String_repeat INDENT (i + 1) +:+ text value (i + 1))
                  ("," +:+ Js.newline) (Js.newline +:+ Js.String_repeat INDENT i +:+ "]")
                  (fun value => numbers_in number value = true)
                  values values2 r1 r2) as [-> ->];
        [ | by apply forallb_true_Forall | done | done
          | by (intros x y; rewrite <- !string_app_assoc, !append_cons) | done | done
          | by rewrite <- ?string_app_assoc | done ].
      eapply Forall_impl; [exact IH |]. intros v Hv b q1 q2 Hb Hq1 Hq2.
      rewrite <- !string_app_assoc. intros Hrow.
      apply string_app_inv_head in Hrow. by apply Hv in Hrow.
Qed.

End CollectionTexts.

Section ObjectTexts.

Import DslText.

Variable String_of_number : Q -> string.
Variable number : Q -> bool.

Hypothesis String_of_number_text :
  forall n, number n = true -> number_text (String_of_number n) = true.

Hypothesis String_of_number_inj :
  forall n1 n2, number n1 = true -> number n2 = true ->
    String_of_number n1 = String_of_number n2 -> n1 = n2.

#[local] Abbreviation text := (text_of String_of_number).
#[local] Abbreviation apart := (told_apart String_of_number number).

(** A key and its value, told apart once the value is. *)
Lemma entry_told_apart (entry1 entry2 : string * JsonValue) (i : nat) (r1 r2 : string) :
  apart entry1.2 ->
  numbers_in number entry2.2 = true ->
  ends_word r1 = true -> ends_word r2 = true ->
  printed_string entry1.1 +:+ ": " +:+ text entry1.2 i +:+ r1
  = printed_string entry2.1 +:+ ": " +:+ text entry2.2 i +:+ r2 ->
  entry1 = entry2 /\ r1 = r2.
Proof.
  destruct entry1 as [k1 v1], entry2 as [k2 v2]. cbn [fst snd].
  intros Hv Hn2 Hr1 Hr2 Heq.
  apply printed_string_inj in Heq as [-> Heq]; [| done..].
  apply (string_app_inv_head ": ") in Heq.
  apply Hv in Heq as [-> ->]; done.
Qed.

Lemma object_told_apart (input : JsObject) :
  Forall (fun entry => apart entry.2) input ->
  forallb (fun entry => numbers_in number entry.2) input = true ->
  apart (JObject input).
Proof.
  intros IH Hn1 v2 i r1 r2 Hn2 Hr1 Hr2 Heq.
  pose proof (f_equal opening Heq) as Hopen.
  rewrite !(text_opening String_of_number number) in Hopen by done.
  destruct v2 as [| s2 | | | | input2]; try done;
    [cbn in Hopen; by destruct (bare s2) |].
  clear Hopen. cbn [numbers_in] in Hn2.
  rewrite !text_of_object in Heq. unfold inline_object in Heq.
  destruct (length input =? 0) eqn:Hlen1, (length input2 =? 0) eqn:Hlen2.
  - apply length_eqb_0 in Hlen1, Hlen2. subst.
    apply (string_app_inv_head "{}") in Heq. by subst.
  - exfalso. destruct (_ && _); by rewrite <- !string_app_assoc, !append_cons in Heq.
  - exfalso. destruct (_ && _); by rewrite <- !string_app_assoc, !append_cons in Heq.
  - apply length_eqb_0_false in Hlen1, Hlen2.
    destruct (_ && _) eqn:Hinline1 in Heq; destruct (_ && _) eqn:Hinline2 in Heq;
      rewrite <- !string_app_assoc in Heq.
    + apply (string_app_inv_head "{ ") in Heq.
      destruct (Array_join_inj
                  (fun entry : string * JsonValue =>
                     printed_string entry.1 +:+ ": " +:+ text entry.2 i)
                  ", " " }"
                  (fun entry : string * JsonValue => numbers_in number entry.2 = true)
                  input input2 r1 r2) as [-> ->];
        [ | by apply forallb_true_Forall | done | done
          | by (intros x y; rewrite !append_cons) | done | done
          | by rewrite <- ?string_app_assoc | done ].
      eapply Forall_impl; [exact IH |]. intros entry Hv entry2 q1 q2 Hb Hq1 Hq2.
      rewrite <- !string_app_assoc. by apply entry_told_apart.
    + exfalso. by rewrite !append_cons in Heq.
    + exfalso. by rewrite !append_cons in Heq.
    + apply (string_app_inv_head "{") in Heq.
      apply (string_app_inv_head Js.newline) in Heq.
      destruct (Array_join_inj
                  (fun entry : string * JsonValue =>
                     Js.String_repeat INDENT (i + 1) +:+ printed_string entry.1 +:+ ": "
                     +:+ text entry.2 (i + 1))
                  ("," +:+ Js.newline) (Js.newline +:+ Js.String_repeat INDENT i +:+ "}")
                  (fun entry : string * JsonValue => numbers_in number entry.2 = true)
                  input input2 r1 r2) as [-> ->];
        [ | by apply forallb_true_Forall | done | done
          | by (intros x y; rewrite <- !string_app_assoc, !append_cons) | done | done
          | by rewrite <- ?string_app_assoc | done ].
      eapply Forall_impl; [exact IH |]. intros entry Hv entry2 q1 q2 Hb Hq1 Hq2.
      rewrite <- !string_app_assoc. intros Hrow.
      apply string_app_inv_head in Hrow. by apply entry_told_apart in Hrow.
Qed.

(** Whatever follows them, the texts of two values at the same level are
    equal only if the values are. *)
Lemma value_told_apart (value : JsonValue) :
  numbers_in number value = true -> apart value.
Proof.
  induction value as [| s | n | b | values IH | input IH] using JsonValue_ind; intros Hn;
    try (by apply (primitive_told_apart String_of_number number)).
  - apply (array_told_apart String_of_number number); try done.
    cbn [numbers_in] in Hn. apply forallb_true_Forall in Hn.
    rewrite Forall_forall in IH, Hn. apply Forall_forall. intros v Hv. by apply IH, Hn.
  - apply object_told_apart; try done.
    cbn [numbers_in] in Hn. apply forallb_true_Forall in Hn.
    rewrite Forall_forall in IH, Hn. apply Forall_forall. intros v Hv. by apply IH, Hn.
Qed.

End ObjectTexts.

(** *** The lines of a printed document *)

(** A line that is printed when [present] holds. *)
Definition optional_line (present : bool) (prefix body : string) : list string :=
  if present then [prefix +:+ body] else [].

(** Whether a condition is printed, and as what object. *)
Definition condition_present (cond : option JsObject) : bool :=
  match cond with
  | Some c => negb (length (Object_keys c) =? 0)
  | None => false
  end.

Definition condition_object (cond : option JsObject) : JsObject := default [] cond.

(** The text of lines, each closed by a line feed, and of what follows. *)
Definition lines_text (lines : list string) (rest : string) : string :=
  foldr (fun line rest => line +:+ Js.newline +:+ rest) rest lines.

Section LinesOf.

Import DslText.

Variable String_of_number : Q -> string.

#[local] Abbreviation text := (text_of String_of_number).

(** What [pushOptionalObjectBlock] pushes. *)
Definition block_lines (label : string) (value : JsObject) (indentLevel : nat) : list string :=
  optional_line (negb (length (Object_keys value) =? 0))
    (Js.String_repeat INDENT indentLevel +:+ label +:+ " ")
    (text (JObject value) indentLevel).

Definition condition_lines (label : string) (cond : option JsObject) : list string :=
  optional_line (condition_present cond)
    (Js.String_repeat INDENT 2 +:+ label +:+ " ")
    (text (JObject (condition_object cond)) 2).

Definition action_lines (action : DuiDslAction) : list string :=
  [ EmptyString;
    INDENT +:+ "action " +:+ printed_string (action_id action) +:+ " {";
    INDENT +:+ INDENT +:+ "type: " +:+ printed_string (action_type action) ]
  ++ block_lines "params" (params action) 2
  ++ [INDENT +:+ "}"].

Definition node_lines (node : DuiDslNode) : list string :=
  [ EmptyString;
    INDENT +:+ "node " +:+ printed_string (node_id node) +:+ ": "
      +:+ printed_string (node_type node) +:+ " {" ]
  ++ block_lines "props" (props node) 2
  ++ block_lines "style" (style node) 2
  ++ block_lines "layout" (layout node) 2
  ++ block_lines "a11y" (a11y node) 2
  ++ condition_lines "visible_when" (visible_when node)
  ++ condition_lines "enabled_when" (enabled_when node)
  ++ optional_line (0 <? length (children node)) (INDENT +:+ INDENT +:+ "children: ")
       (text (JArray (JString <$> children node)) 2)
  ++ optional_line (0 <? length (Object_keys (slots node))) (INDENT +:+ INDENT +:+ "slots ")
       (text (JObject (slots_record (slots node))) 2)
  ++ optional_line (0 <? length (Object_keys (on node))) (INDENT +:+ INDENT +:+ "on ")
       (text (JObject (string_record (on node))) 2)
  ++ [INDENT +:+ "}"].

Definition binding_lines (binding : DuiDslBinding) : list string :=
  [ EmptyString;
    INDENT +:+ "binding " +:+ printed_string (binding_id binding) +:+ " {";
    INDENT +:+ INDENT +:+ "source: " +:+ printed_string (binding_source binding);
    INDENT +:+ INDENT +:+ "select: " +:+ printed_string (select binding) ]
  ++ block_lines "args" (args binding) 2
  ++ block_lines "cache" (cache binding) 2
  ++ [INDENT +:+ "}"].

Definition theme_line (theme : DuiDslTheme) : string :=
  INDENT +:+ "theme { profile: " +:+ printed_string (ThemeProfile_string (profile theme))
  +:+ " density: " +:+ printed_string (Density_string (density theme))
  +:+ (if length (Object_keys (tokens theme)) =? 0 then " }"
       else " tokens " +:+ text (JObject (string_record (tokens theme))) 1 +:+ " }").

Definition document_lines (document : DuiDslDocument) : list string :=
  [ "surface " +:+ printed_string (surface_id (surface document)) +:+ " {";
    INDENT +:+ "surface_meta { title: " +:+ printed_string (surface_title (surface document))
      +:+ ", route: " +:+ printed_string (surface_route (surface document)) +:+ " }";
    INDENT +:+ "meta { document_id: " +:+ printed_string (document_id (meta document))
      +:+ ", revision: " +:+ String_of_number (revision (meta document))
      +:+ ", created_by: " +:+ printed_string (created_by (meta document)) +:+ " }";
    theme_line (theme document) ]
  ++ block_lines "layout_constraints" (layout_constraints document) 1
  ++ block_lines "state" (locals (state document)) 1
  ++ (actions document ≫= action_lines)
  ++ (nodes document ≫= node_lines)
  ++ (bindings document ≫= binding_lines)
  ++ ["}"].

Lemma value_of_if {A : Type} (b : bool) (m1 m2 : M A) :
  value_of (if b then m1 else m2) = if b then value_of m1 else value_of m2.
Proof. by destruct b. Qed.

Lemma value_of_formatIdentifier (value : string) :
  value_of (formatIdentifier value) = printed_string value.
Proof. done. Qed.

Lemma value_of_formatValue_string (s : string) (indentLevel : nat) :
  value_of (formatValue String_of_number (JString s) indentLevel) = printed_string s.
Proof. unfold value_of. by rewrite formatValue_string_run. Qed.

Lemma value_of_block (lines : list string) (label : string) (value : JsObject)
    (indentLevel : nat) :
  value_of (pushOptionalObjectBlock String_of_number lines label value indentLevel)
  = lines ++ block_lines label value indentLevel.
Proof.
  rewrite value_of_pushOptionalObjectBlock. unfold block_lines, optional_line.
  destruct (length (Object_keys value) =? 0); [done |].
  cbn [negb]. by rewrite <- !string_app_assoc.
Qed.

Lemma value_of_condition (lines : list string) (label : string) (cond : option JsObject) :
  value_of (match cond with
            | Some c => pushOptionalObjectBlock String_of_number lines label c 2
            | None => ret lines
            end)
  = lines ++ condition_lines label cond.
Proof.
  destruct cond as [c |]; [apply value_of_block |].
  by rewrite value_of_ret, app_nil_r.
Qed.

Lemma value_of_optional (lines : list string) (present : bool)
    (line_of : string -> string) (prefix : string) (m : M string) :
  stateless m ->
  (forall body, line_of body = prefix +:+ body) ->
  value_of (if present then bind m (fun body => ret (lines ++ [line_of body]))
            else ret lines)
  = lines ++ optional_line present prefix (value_of m).
Proof.
  intros Hm Hline. destruct present; cbn [optional_line].
  - by rewrite value_of_bind, value_of_ret, Hline.
  - by rewrite value_of_ret, app_nil_r.
Qed.

Lemma value_of_push_action (lines : list string) (action : DuiDslAction) :
  value_of (push_action String_of_number lines action) = lines ++ action_lines action.
Proof.
  unfold push_action, action_lines.
  rewrite !value_of_bind by (repeat stateless_step).
  rewrite value_of_ret, value_of_block, value_of_formatIdentifier,
    value_of_formatValue_string.
  by rewrite <- !app_assoc.
Qed.

Lemma value_of_push_binding (lines : list string) (binding : DuiDslBinding) :
  value_of (push_binding String_of_number lines binding) = lines ++ binding_lines binding.
Proof.
  unfold push_binding, binding_lines.
  rewrite !value_of_bind by (repeat stateless_step).
  rewrite value_of_ret, !value_of_block, value_of_formatIdentifier,
    !value_of_formatValue_string.
  by rewrite <- !app_assoc.
Qed.

Lemma value_of_push_node (lines : list string) (node : DuiDslNode) :
  value_of (push_node String_of_number lines node) = lines ++ node_lines node.
Proof.
  unfold push_node, node_lines.
  rewrite !value_of_bind by (repeat stateless_step).
  rewrite value_of_ret.
  rewrite (value_of_optional _ _ _ (INDENT +:+ INDENT +:+ "on "))
    by (done || eauto with stateless).
  rewrite (value_of_optional _ _ _ (INDENT +:+ INDENT +:+ "slots "))
    by (done || eauto with stateless).
  rewrite (value_of_optional _ _ _ (INDENT +:+ INDENT +:+ "children: "))
    by (done || eauto with stateless).
  rewrite !value_of_condition, !value_of_block, !value_of_formatIdentifier.
  by rewrite <- !app_assoc.
Qed.

Lemma value_of_for_of {A : Type} (body : list string -> A -> M (list string))
    (lines_of : A -> list string) (items : list A) :
  (forall lines item, stateless (body lines item)) ->
  (forall lines item, value_of (body lines item) = lines ++ lines_of item) ->
  forall lines, value_of (for_of body items lines) = lines ++ (items ≫= lines_of).
Proof.
  intros Hstateless Hbody. induction items as [|item rest IH]; intros lines.
  - cbn. by rewrite app_nil_r.
  - change (for_of body (item :: rest) lines)
      with (bind (body lines item) (fun lines => for_of body rest lines)).
    rewrite value_of_bind by done. rewrite IH, Hbody. cbn. by rewrite <- app_assoc.
Qed.

Lemma value_of_serialize_lines (document : DuiDslDocument) :
  value_of (serialize_lines String_of_number document) = document_lines document.
Proof.
  unfold serialize_lines, document_lines.
  rewrite !value_of_bind by
    (repeat first [ apply stateless_for_of; intros | stateless_step ]).
  rewrite value_of_ret.
  rewrite (value_of_for_of _ binding_lines), (value_of_for_of _ node_lines),
    (value_of_for_of _ action_lines)
    by (intros; first [ apply stateless_push_binding | apply value_of_push_binding
                      | apply stateless_push_node | apply value_of_push_node
                      | apply stateless_push_action | apply value_of_push_action ]).
  rewrite !value_of_block, !value_of_formatIdentifier.
  rewrite <- !app_assoc. f_equal. unfold theme_line.
  destruct (length (Object_keys (tokens (theme document))) =? 0);
    rewrite !value_of_bind, value_of_ret by (repeat stateless_step);
    by rewrite !value_of_formatValue_string.
Qed.

Lemma lines_text_app (lines1 lines2 : list string) (rest : string) :
  lines_text (lines1 ++ lines2) rest = lines_text lines1 (lines_text lines2 rest).
Proof. apply foldr_app. Qed.

Lemma Array_join_lines (line : string) (lines : list string) :
  Js.Array_join Js.newline (line :: lines) +:+ Js.newline
  = lines_text (line :: lines) EmptyString.
Proof.
  revert line. induction lines as [|line' lines IH]; intros line; [done |].
  rewrite Array_join_cons. rewrite <- !string_app_assoc, IH. done.
Qed.

(** The text of a document is its lines, each closed by a line feed. *)
Lemma serializeDuiDslDocument_lines (document : DuiDslDocument) (σ : ModuleState) :
  (serializeDuiDslDocument String_of_number document σ).1
  = lines_text (document_lines document) EmptyString.
Proof.
  rewrite (stateless_serializeDuiDslDocument String_of_number document σ). cbn [fst].
  unfold serializeDuiDslDocument.
  rewrite value_of_bind, value_of_ret by apply stateless_serialize_lines.
  rewrite value_of_serialize_lines. apply Array_join_lines.
Qed.

End LinesOf.

(** *** Lines that may be absent *)

(** Two texts differ at a position both reach. *)
Fixpoint differ (a b : string) : bool :=
  match a, b with
  | String x a', String y b' => if Ascii.eqb x y then differ a' b' else true
  | _, _ => false
  end.

Lemma differ_starts_with (a b x : string) :
  differ a b = true -> starts_with a (b +:+ x) = false.
Proof.
  revert b. induction a as [|c a IH]; intros [|d b]; try done.
  cbn [differ]. rewrite append_cons. cbn [starts_with].
  destruct (Ascii.eqb c d); [cbn; apply IH | done].
Qed.

Lemma starts_with_app (k x : string) : starts_with k (k +:+ x) = true.
Proof.
  induction k as [|c k IH]; [done |]. rewrite append_cons. cbn [starts_with].
  by rewrite Ascii.eqb_refl, IH.
Qed.

Lemma starts_with_optional (k : string) (present : bool) (prefix body rest : string) :
  differ k prefix = true -> starts_with k rest = false ->
  starts_with k (lines_text (optional_line present prefix body) rest) = false.
Proof.
  intros Hk Hrest. destruct present; [| done]. cbn [optional_line lines_text foldr].
  rewrite <- !string_app_assoc. by apply differ_starts_with.
Qed.

(** Every block of a list opens with [k]; a text that does not, and
    differs from [k], is not the opening of the list either. *)
Lemma starts_with_blocks {A : Type} (lines_of : A -> list string) (k' k : string)
    (items : list A) (rest : string) :
  (forall item rest, exists x, lines_text (lines_of item) rest = k +:+ x) ->
  differ k' k = true -> starts_with k' rest = false ->
  starts_with k' (lines_text (items ≫= lines_of) rest) = false.
Proof.
  intros Hopen Hk Hrest. destruct items as [|item items]; [done |].
  cbn [mbind list_bind]. change (foldr _ _ _) with (items ≫= lines_of).
  rewrite lines_text_app.
  destruct (Hopen item (lines_text (items ≫= lines_of) rest)) as [x ->].
  by apply differ_starts_with.
Qed.

Section OptionalLines.

Import DslText.

Variable String_of_number : Q -> string.
Variable number : Q -> bool.

Hypothesis String_of_number_text :
  forall n, number n = true -> number_text (String_of_number n) = true.

Hypothesis String_of_number_inj :
  forall n1 n2, number n1 = true -> number n2 = true ->
    String_of_number n1 = String_of_number n2 -> n1 = n2.

#[local] Abbreviation text := (text_of String_of_number).

(** A value closed by the end of its line. *)
Lemma value_line_told_apart (v1 v2 : JsonValue) (i : nat) (r1 r2 : string) :
  numbers_in number v1 = true -> numbers_in number v2 = true ->
  text v1 i +:+ Js.newline +:+ r1 = text v2 i +:+ Js.newline +:+ r2 ->
  v1 = v2 /\ r1 = r2.
Proof.
  intros Hn1 Hn2 Heq.
  apply (value_told_apart String_of_number number) in Heq as [-> Heq]; try done.
  apply string_app_inv_head in Heq. by subst.
Qed.

Lemma optional_line_told_apart (prefix : string) (p1 p2 : bool) (v1 v2 : JsonValue)
    (i : nat) (r1 r2 : string) :
  numbers_in number v1 = true -> numbers_in number v2 = true ->
  starts_with prefix r1 = false -> starts_with prefix r2 = false ->
  lines_text (optional_line p1 prefix (text v1 i)) r1
  = lines_text (optional_line p2 prefix (text v2 i)) r2 ->
  p1 = p2 /\ (p1 = true -> v1 = v2) /\ r1 = r2.
Proof.
  intros Hn1 Hn2 Hr1 Hr2.
  destruct p1, p2; cbn [optional_line lines_text foldr];
    rewrite <- ?string_app_assoc; intros Heq.
  - apply string_app_inv_head in Heq.
    apply value_line_told_apart in Heq as [-> ->]; done.
  - rewrite <- Heq, starts_with_app in Hr2. done.
  - rewrite Heq, starts_with_app in Hr1. done.
  - done.
Qed.

End OptionalLines.

(** What the printer tells of a list of blocks, each told apart by its
    lines and opened by [k]. *)
Lemma blocks_told_apart {A B : Type} (lines_of : A -> list string) (told : A -> B)
    (k : string) (P : A -> Prop) (l1 l2 : list A) (r1 r2 : string) :
  (forall a b r1 r2, P a -> P b ->
     lines_text (lines_of a) r1 = lines_text (lines_of b) r2 ->
     told a = told b /\ r1 = r2) ->
  (forall item rest, exists x, lines_text (lines_of item) rest = k +:+ x) ->
  Forall P l1 -> Forall P l2 ->
  starts_with k r1 = false -> starts_with k r2 = false ->
  lines_text (l1 ≫= lines_of) r1 = lines_text (l2 ≫= lines_of) r2 ->
  told <$> l1 = told <$> l2 /\ r1 = r2.
Proof.
  intros Htold Hopen Hl1 Hl2 Hr1 Hr2. revert l2 Hl2.
  induction Hl1 as [|a l1 Ha Hl1 IH]; intros l2 Hl2; destruct Hl2 as [|b l2 Hb Hl2];
    cbn [mbind list_bind]; rewrite ?lines_text_app; intros Heq.
  - done.
  - exfalso. cbn [lines_text foldr] in Heq. fold (lines_text) in Heq.
    destruct (Hopen b (lines_text (l2 ≫= lines_of) r2)) as [x Hx].
    rewrite Hx in Heq. rewrite Heq, starts_with_app in Hr1. done.
  - exfalso. cbn [lines_text foldr] in Heq.
    destruct (Hopen a (lines_text (l1 ≫= lines_of) r1)) as [x Hx].
    rewrite Hx in Heq. rewrite <- Heq, starts_with_app in Hr2. done.
  - apply Htold in Heq as [Hab Heq]; [| done..].
    apply IH in Heq as [Hl Hr]; [| done]. cbn [fmap list_fmap]. by rewrite Hab, Hl.
Qed.

(** *** What an optional line tells of a field *)

Lemma block_told (o1 o2 : JsObject) :
  negb (length (Object_keys o1) =? 0) = negb (length (Object_keys o2) =? 0) ->
  (negb (length (Object_keys o1) =? 0) = true -> JObject o1 = JObject o2) ->
  o1 = o2.
Proof.
  destruct o1, o2; cbn; try done. intros _ H. specialize (H eq_refl). congruence.
Qed.

Lemma condition_told (c1 c2 : option JsObject) :
  condition_present c1 = condition_present c2 ->
  (condition_present c1 = true ->
   JObject (condition_object c1) = JObject (condition_object c2)) ->
  printed_condition c1 = printed_condition c2.
Proof.
  destruct c1 as [[|] |], c2 as [[|] |]; cbn; try done.
  intros _ H. specialize (H eq_refl). congruence.
Qed.

Lemma fmap_JString_inj (l1 l2 : list string) : JString <$> l1 = JString <$> l2 -> l1 = l2.
Proof.
  revert l2. induction l1 as [|x l1 IH]; intros [|y l2]; try done.
  cbn. intros [= -> H]. f_equal. by apply IH.
Qed.

Lemma children_told (c1 c2 : list string) :
  (0 <? length c1) = (0 <? length c2) ->
  ((0 <? length c1) = true -> JArray (JString <$> c1) = JArray (JString <$> c2)) ->
  c1 = c2.
Proof.
  destruct c1, c2; cbn [length]; try done.
  intros _ H. specialize (H eq_refl). apply fmap_JString_inj. congruence.
Qed.

Lemma string_record_inj (o1 o2 : list (string * string)) :
  string_record o1 = string_record o2 -> o1 = o2.
Proof.
  revert o2. induction o1 as [|[k1 v1] o1 IH]; intros [|[k2 v2] o2]; try done.
  cbn. intros [= -> -> H]. f_equal. by apply IH.
Qed.

Lemma slots_record_inj (o1 o2 : list (string * list string)) :
  slots_record o1 = slots_record o2 -> o1 = o2.
Proof.
  revert o2. induction o1 as [|[k1 v1] o1 IH]; intros [|[k2 v2] o2]; try done.
  cbn. unfold strings_value. intros [= -> Hv H]. apply fmap_JString_inj in Hv as ->.
  f_equal. by apply IH.
Qed.

Lemma on_told (o1 o2 : list (string * string)) :
  (0 <? length (Object_keys o1)) = (0 <? length (Object_keys o2)) ->
  ((0 <? length (Object_keys o1)) = true ->
   JObject (string_record o1) = JObject (string_record o2)) ->
  o1 = o2.
Proof.
  destruct o1, o2; cbn [length Object_keys fmap list_fmap]; try done.
  intros _ H. specialize (H eq_refl). apply string_record_inj. congruence.
Qed.

Lemma slots_told (o1 o2 : list (string * list string)) :
  (0 <? length (Object_keys o1)) = (0 <? length (Object_keys o2)) ->
  ((0 <? length (Object_keys o1)) = true ->
   JObject (slots_record o1) = JObject (slots_record o2)) ->
  o1 = o2.
Proof.
  destruct o1, o2; cbn [length Object_keys fmap list_fmap]; try done.
  intros _ H. specialize (H eq_refl). apply slots_record_inj. congruence.
Qed.

Lemma tokens_told (o1 o2 : list (string * string)) :
  (length (Object_keys o1) =? 0) = true -> (length (Object_keys o2) =? 0) = true ->
  o1 = o2.
Proof. by destruct o1, o2. Qed.

(** Strings hold no number. *)
Lemma numbers_in_strings (number : Q -> bool) (l : list string) :
  numbers_in number (JArray (JString <$> l)) = true.
Proof. cbn. induction l as [|x l IH]; [done | by cbn]. Qed.

Lemma numbers_in_string_record (number : Q -> bool) (o : list (string * string)) :
  numbers_in number (JObject (string_record o)) = true.
Proof. cbn. induction o as [|[k v] o IH]; [done | by cbn]. Qed.

Lemma numbers_in_slots_record (number : Q -> bool) (o : list (string * list string)) :
  numbers_in number (JObject (slots_record o)) = true.
Proof.
  change (forallb (fun entry => numbers_in number entry.2) (slots_record o) = true).
  induction o as [|[k v] o IH]; [done |].
  change (numbers_in number (JArray (JString <$> v))
          && forallb (fun entry => numbers_in number entry.2) (slots_record o) = true).
  by rewrite IH, numbers_in_strings.
Qed.

Lemma ThemeProfile_string_inj (p1 p2 : ThemeProfile) :
  ThemeProfile_string p1 = ThemeProfile_string p2 -> p1 = p2.
Proof. by destruct p1, p2. Qed.

Lemma Density_string_inj (d1 d2 : Density) :
  Density_string d1 = Density_string d2 -> d1 = d2.
Proof. by destruct d1, d2. Qed.

(** Every number of a node, of a document, is one that [number] admits. *)
Definition node_numbers (number : Q -> bool) (node : DuiDslNode) : bool :=
  numbers_in number (JObject (props node))
  && numbers_in number (JObject (style node))
  && numbers_in number (JObject (layout node))
  && numbers_in number (JObject (a11y node))
  && numbers_in number (JObject (condition_object (visible_when node)))
  && numbers_in number (JObject (condition_object (enabled_when node))).

Definition binding_numbers (number : Q -> bool) (binding : DuiDslBinding) : bool :=
  numbers_in number (JObject (args binding))
  && numbers_in number (JObject (cache binding)).

Definition document_numbers (number : Q -> bool) (document : DuiDslDocument) : bool :=
  number (revision (meta document))
  && numbers_in number (JObject (layout_constraints document))
  && numbers_in number (JObject (locals (state document)))
  && forallb (fun action => numbers_in number (JObject (params action))) (actions document)
  && forallb (node_numbers number) (nodes document)
  && forallb (binding_numbers number) (bindings document).

(** *** Blocks *)

Ltac not_starts :=
  repeat (apply starts_with_optional; [reflexivity |]); reflexivity.

Section BlocksApart.

Import DslText.

Variable String_of_number : Q -> string.
Variable number : Q -> bool.

Hypothesis String_of_number_text :
  forall n, number n = true -> number_text (String_of_number n) = true.

Hypothesis String_of_number_inj :
  forall n1 n2, number n1 = true -> number n2 = true ->
    String_of_number n1 = String_of_number n2 -> n1 = n2.

#[local] Abbreviation text := (text_of String_of_number).

Lemma action_lines_open (action : DuiDslAction) (rest : string) :
  exists x, lines_text (action_lines String_of_number action) rest = (Js.newline +:+ INDENT +:+ "action ") +:+ x.
Proof.
  unfold action_lines. rewrite !lines_text_app. cbn [lines_text foldr].
  rewrite <- !string_app_assoc. by eexists.
Qed.

Lemma action_told_apart (a1 a2 : DuiDslAction) (r1 r2 : string) :
  numbers_in number (JObject (params a1)) = true ->
  numbers_in number (JObject (params a2)) = true ->
  lines_text (action_lines String_of_number a1) r1
  = lines_text (action_lines String_of_number a2) r2 ->
  a1 = a2 /\ r1 = r2.
Proof.
  intros Hn1 Hn2. unfold action_lines, block_lines.
  rewrite !lines_text_app. cbn [lines_text foldr].
  rewrite <- !string_app_assoc, !append_nil. intros Heq.
  do 3 apply string_app_inv_head in Heq.
  apply printed_string_inj in Heq as [Hid Heq]; [| reflexivity..].
  do 5 apply string_app_inv_head in Heq.
  apply printed_string_inj in Heq as [Htype Heq]; [| reflexivity..].
  apply string_app_inv_head in Heq.
  apply (optional_line_told_apart String_of_number number) in Heq
    as (Hp & Hv & Heq); [| done | done | done | done | not_starts | not_starts].
  apply block_told in Hp; [| done].
  do 3 apply string_app_inv_head in Heq.
  split; [| done]. destruct a1, a2; cbn in *. by subst.
Qed.

Lemma binding_lines_open (binding : DuiDslBinding) (rest : string) :
  exists x, lines_text (binding_lines String_of_number binding) rest
            = (Js.newline +:+ INDENT +:+ "binding ") +:+ x.
Proof.
  unfold binding_lines. rewrite !lines_text_app. cbn [lines_text foldr].
  rewrite <- !string_app_assoc. by eexists.
Qed.

Lemma binding_told_apart (b1 b2 : DuiDslBinding) (r1 r2 : string) :
  binding_numbers number b1 = true ->
  binding_numbers number b2 = true ->
  lines_text (binding_lines String_of_number b1) r1
  = lines_text (binding_lines String_of_number b2) r2 ->
  b1 = b2 /\ r1 = r2.
Proof.
  unfold binding_numbers. rewrite !andb_true_iff. intros [Ha1 Hc1] [Ha2 Hc2].
  unfold binding_lines, block_lines.
  rewrite !lines_text_app. cbn [lines_text foldr].
  rewrite <- !string_app_assoc, !append_nil. intros Heq.
  do 3 apply string_app_inv_head in Heq.
  apply printed_string_inj in Heq as [Hid Heq]; [| reflexivity..].
  do 5 apply string_app_inv_head in Heq.
  apply printed_string_inj in Heq as [Hsource Heq]; [| reflexivity..].
  do 4 apply string_app_inv_head in Heq.
  apply printed_string_inj in Heq as [Hselect Heq]; [| reflexivity..].
  apply string_app_inv_head in Heq.
  apply (optional_line_told_apart String_of_number number) in Heq
    as (Hp & Hv & Heq); [| done | done | done | done | not_starts | not_starts].
  apply block_told in Hp as Hargs; [| done].
  apply (optional_line_told_apart String_of_number number) in Heq
    as (Hp' & Hv' & Heq); [| done | done | done | done | not_starts | not_starts].
  apply block_told in Hp' as Hcache; [| done].
  do 3 apply string_app_inv_head in Heq.
  split; [| done]. destruct b1, b2; cbn in *. by subst.
Qed.

Lemma node_lines_open (node : DuiDslNode) (rest : string) :
  exists x, lines_text (node_lines String_of_number node) rest
            = (Js.newline +:+ INDENT +:+ "node ") +:+ x.
Proof.
  unfold node_lines. rewrite !lines_text_app. cbn [lines_text foldr].
  rewrite <- !string_app_assoc. by eexists.
Qed.

Lemma node_told_apart (n1 n2 : DuiDslNode) (r1 r2 : string) :
  node_numbers number n1 = true ->
  node_numbers number n2 = true ->
  lines_text (node_lines String_of_number n1) r1
  = lines_text (node_lines String_of_number n2) r2 ->
  printed_node n1 = printed_node n2 /\ r1 = r2.
Proof.
  unfold node_numbers. rewrite !andb_true_iff.
  intros [[[[[Hp1 Hs1] Hl1] Ha1] Hv1] He1] [[[[[Hp2 Hs2] Hl2] Ha2] Hv2] He2].
  unfold node_lines, block_lines, condition_lines.
  rewrite !lines_text_app. cbn [lines_text foldr].
  rewrite <- !string_app_assoc, !append_nil. intros Heq.
  do 3 apply string_app_inv_head in Heq.
  apply printed_string_inj in Heq as [Hid Heq]; [| reflexivity..].
  apply string_app_inv_head in Heq.
  apply printed_string_inj in Heq as [Htype Heq]; [| reflexivity..].
  do 2 apply string_app_inv_head in Heq.
  apply (optional_line_told_apart String_of_number number) in Heq
    as (Hprops & Hprops' & Heq); [| done | done | done | done | not_starts | not_starts].
  apply block_told in Hprops; [| done].
  apply (optional_line_told_apart String_of_number number) in Heq
    as (Hstyle & Hstyle' & Heq); [| done | done | done | done | not_starts | not_starts].
  apply block_told in Hstyle; [| done].
  apply (optional_line_told_apart String_of_number number) in Heq
    as (Hlayout & Hlayout' & Heq); [| done | done | done | done | not_starts | not_starts].
  apply block_told in Hlayout; [| done].
  apply (optional_line_told_apart String_of_number number) in Heq
    as (Ha11y & Ha11y' & Heq); [| done | done | done | done | not_starts | not_starts].
  apply block_told in Ha11y; [| done].
  apply (optional_line_told_apart String_of_number number) in Heq
    as (Hvisible & Hvisible' & Heq); [| done | done | done | done | not_starts | not_starts].
  apply condition_told in Hvisible; [| done].
  apply (optional_line_told_apart String_of_number number) in Heq
    as (Henabled & Henabled' & Heq); [| done | done | done | done | not_starts | not_starts].
  apply condition_told in Henabled; [| done].
  apply (optional_line_told_apart String_of_number number) in Heq
    as (Hchildren & Hchildren' & Heq);
    [| done | done | apply numbers_in_strings | apply numbers_in_strings
     | not_starts | not_starts].
  apply children_told in Hchildren; [| done].
  apply (optional_line_told_apart String_of_number number) in Heq
    as (Hslots & Hslots' & Heq);
    [| done | done | apply numbers_in_slots_record | apply numbers_in_slots_record
     | not_starts | not_starts].
  apply slots_told in Hslots; [| done].
  apply (optional_line_told_apart String_of_number number) in Heq
    as (Hon & Hon' & Heq);
    [| done | done | apply numbers_in_string_record | apply numbers_in_string_record
     | not_starts | not_starts].
  apply on_told in Hon; [| done].
  do 3 apply string_app_inv_head in Heq.
  split; [| done]. unfold printed_node. congruence.
Qed.

End BlocksApart.

(** *** Documents *)

Section DocumentsApart.

Import DslText.

Variable String_of_number : Q -> string.
Variable number : Q -> bool.

Hypothesis String_of_number_text :
  forall n, number n = true -> number_text (String_of_number n) = true.

Hypothesis String_of_number_inj :
  forall n1 n2, number n1 = true -> number n2 = true ->
    String_of_number n1 = String_of_number n2 -> n1 = n2.

#[local] Abbreviation text := (text_of String_of_number).

Lemma number_told_apart (n1 n2 : Q) (r1 r2 : string) :
  number n1 = true -> number n2 = true ->
  ends_word r1 = true -> ends_word r2 = true ->
  String_of_number n1 +:+ r1 = String_of_number n2 +:+ r2 ->
  n1 = n2 /\ r1 = r2.
Proof.
  intros Hn1 Hn2 Hr1 Hr2 Heq.
  destruct (value_told_apart String_of_number number String_of_number_text
              String_of_number_inj (JNumber n1) Hn1 (JNumber n2) 0 r1 r2)
    as [Hn Hr]; try done.
  split; [congruence | done].
Qed.

Ltac not_starts_document :=
  repeat first
    [ apply starts_with_optional; [reflexivity |]
    | apply (starts_with_blocks (action_lines String_of_number) _
               (Js.newline +:+ INDENT +:+ "action "));
      [intros; apply action_lines_open | reflexivity |]
    | apply (starts_with_blocks (node_lines String_of_number) _
               (Js.newline +:+ INDENT +:+ "node "));
      [intros; apply node_lines_open | reflexivity |]
    | apply (starts_with_blocks (binding_lines String_of_number) _
               (Js.newline +:+ INDENT +:+ "binding "));
      [intros; apply binding_lines_open | reflexivity |] ];
  reflexivity.

(** Two documents with the same text have the same printed part. *)
Lemma document_lines_told_apart (d1 d2 : DuiDslDocument) :
  document_numbers number d1 = true ->
  document_numbers number d2 = true ->
  lines_text (document_lines String_of_number d1) EmptyString
  = lines_text (document_lines String_of_number d2) EmptyString ->
  printed_part d1 = printed_part d2.
Proof.
  unfold document_numbers. rewrite !andb_true_iff.
  intros [[[[[Hrev1 Hlc1] Hst1] Hac1] Hno1] Hbi1] [[[[[Hrev2 Hlc2] Hst2] Hac2] Hno2] Hbi2].
  apply forallb_true_Forall in Hac1, Hac2, Hno1, Hno2, Hbi1, Hbi2.
  unfold document_lines, theme_line, block_lines.
  rewrite !lines_text_app. cbn [lines_text foldr].
  destruct (length (Object_keys (tokens (theme d1))) =? 0) eqn:Htokens1;
    destruct (length (Object_keys (tokens (theme d2))) =? 0) eqn:Htokens2;
    rewrite <- !string_app_assoc; intros Heq.
  all: apply string_app_inv_head in Heq.
  all: apply printed_string_inj in Heq as [Hid Heq]; [| reflexivity..].
  all: do 4 apply string_app_inv_head in Heq.
  all: apply printed_string_inj in Heq as [Htitle Heq]; [| reflexivity..].
  all: apply string_app_inv_head in Heq.
  all: apply printed_string_inj in Heq as [Hroute Heq]; [| reflexivity..].
  all: do 4 apply string_app_inv_head in Heq.
  all: apply printed_string_inj in Heq as [Hdocument Heq]; [| reflexivity..].
  all: apply string_app_inv_head in Heq.
  all: apply number_told_apart in Heq as [Hrevision Heq]; [| done | done | reflexivity..].
  all: apply string_app_inv_head in Heq.
  all: apply printed_string_inj in Heq as [Hcreated Heq]; [| reflexivity..].
  all: do 4 apply string_app_inv_head in Heq.
  all: apply printed_string_inj in Heq as [Hprofile Heq]; [| reflexivity..].
  all: apply string_app_inv_head in Heq.
  all: apply printed_string_inj in Heq as [Hdensity Heq]; [| reflexivity..].
  all: apply ThemeProfile_string_inj in Hprofile; apply Density_string_inj in Hdensity.
  2, 3: exfalso; by rewrite !append_cons in Heq.
  all: assert (tokens (theme d1) = tokens (theme d2)
               /\ lines_text
                    (optional_line (negb (length (Object_keys (layout_constraints d1)) =? 0))
                       (Js.String_repeat INDENT 1 +:+ "layout_constraints" +:+ " ")
                       (text (JObject (layout_constraints d1)) 1))
                    (lines_text
                       (optional_line (negb (length (Object_keys (locals (state d1))) =? 0))
                          (Js.String_repeat INDENT 1 +:+ "state" +:+ " ")
                          (text (JObject (locals (state d1))) 1))
                       (lines_text (actions d1 ≫= action_lines String_of_number)
                          (lines_text (nodes d1 ≫= node_lines String_of_number)
                             (lines_text (bindings d1 ≫= binding_lines String_of_number)
                                ("}" +:+ Js.newline +:+ EmptyString)))))
                  = lines_text
                      (optional_line (negb (length (Object_keys (layout_constraints d2)) =? 0))
                         (Js.String_repeat INDENT 1 +:+ "layout_constraints" +:+ " ")
                         (text (JObject (layout_constraints d2)) 1))
                      (lines_text
                         (optional_line (negb (length (Object_keys (locals (state d2))) =? 0))
                            (Js.String_repeat INDENT 1 +:+ "state" +:+ " ")
                            (text (JObject (locals (state d2))) 1))
                         (lines_text (actions d2 ≫= action_lines String_of_number)
                            (lines_text (nodes d2 ≫= node_lines String_of_number)
                               (lines_text (bindings d2 ≫= binding_lines String_of_number)
                                  ("}" +:+ Js.newline +:+ EmptyString))))))
      as [Htokens Hbody].
  { do 2 apply string_app_inv_head in Heq. split; [by apply tokens_told | done]. }
  2: { apply string_app_inv_head in Heq.
       apply (value_told_apart String_of_number number) in Heq as [Htokens Heq];
         [| done | done | apply numbers_in_string_record
          | apply numbers_in_string_record | reflexivity..].
       do 2 apply string_app_inv_head in Heq.
       split; [apply string_record_inj; congruence | done]. }
  all: clear Heq Htokens1 Htokens2.
  all: apply (optional_line_told_apart String_of_number number) in Hbody
         as (Hlc & Hlc' & Hbody);
         [| done | done | done | done | not_starts_document | not_starts_document].
  all: apply block_told in Hlc; [| done].
  all: apply (optional_line_told_apart String_of_number number) in Hbody
         as (Hst & Hst' & Hbody);
         [| done | done | done | done | not_starts_document | not_starts_document].
  all: apply block_told in Hst; [| done].
  all: apply (blocks_told_apart (action_lines String_of_number) id
                (Js.newline +:+ INDENT +:+ "action ")
                (fun action => numbers_in number (JObject (params action)) = true))
         in Hbody as [Hactions Hbody];
         [ | intros a b q1 q2 Ha Hb Hab;
             by apply (action_told_apart String_of_number number) in Hab
           | intros; apply action_lines_open | done | done
           | not_starts_document | not_starts_document ].
  all: apply (blocks_told_apart (node_lines String_of_number) printed_node
                (Js.newline +:+ INDENT +:+ "node ") (fun node => node_numbers number node = true))
         in Hbody as [Hnodes Hbody];
         [ | intros a b q1 q2 Ha Hb Hab;
             by apply (node_told_apart String_of_number number) in Hab
           | intros; apply node_lines_open | done | done
           | not_starts_document | not_starts_document ].
  all: apply (blocks_told_apart (binding_lines String_of_number) id
                (Js.newline +:+ INDENT +:+ "binding ")
                (fun binding => binding_numbers number binding = true))
         in Hbody as [Hbindings _];
         [ | intros a b q1 q2 Ha Hb Hab;
             by apply (binding_told_apart String_of_number number) in Hab
           | intros; apply binding_lines_open | done | done
           | reflexivity | reflexivity ].
  all: rewrite !list_fmap_id in Hactions; rewrite !list_fmap_id in Hbindings.
  all: unfold printed_part; rewrite Hnodes, Hactions, Hbindings, Hlc;
       destruct d1 as [v1 [] [] [] [] ns1 bs1 as1 lc1], d2 as [v2 [] [] [] [] ns2 bs2 as2 lc2];
       cbn in *; congruence.
Qed.

End DocumentsApart.

Section TextAndPrintedPart.

Import DslText.

Variable String_of_number : Q -> string.
Variable number : Q -> bool.

Hypothesis String_of_number_text :
  forall n, number n = true -> number_text (String_of_number n) = true.

Hypothesis String_of_number_inj :
  forall n1 n2, number n1 = true -> number n2 = true ->
    String_of_number n1 = String_of_number n2 -> n1 = n2.

(** C1 (as the code has it). The text of a document tells its printed
    part and nothing more: two documents print to the same text exactly
    when they agree on everything but [dsl_version], [meta.created_at] and
    the difference between an absent and an empty [visible_when] or
    [enabled_when].  So a parser can give back from [print(d)] the printed
    part of [d], whatever the strings, keys and nested values of [d], and
    no parser can give back more.  [String(n)] is assumed to spell the
    numbers of the two documents as number tokens, different numbers
    differently. *)
Theorem serializeDuiDslDocument_tells_printed_part
    (d1 d2 : DuiDslDocument) (σ1 σ2 : ModuleState) :
  document_numbers number d1 = true ->
  document_numbers number d2 = true ->
  (serializeDuiDslDocument String_of_number d1 σ1).1
  = (serializeDuiDslDocument String_of_number d2 σ2).1
  <-> printed_part d1 = printed_part d2.
Proof.
  intros Hn1 Hn2. split.
  - rewrite !serializeDuiDslDocument_lines.
    by apply (document_lines_told_apart String_of_number number).
  - intros Hpart.
    rewrite <- (serializeDuiDslDocument_printed_part String_of_number d1 σ1).
    rewrite <- (serializeDuiDslDocument_printed_part String_of_number d2 σ2).
    rewrite !serializeDuiDslDocument_lines. by rewrite Hpart.
Qed.

End TextAndPrintedPart.

(** The numbers [String_of_integer] spells as [String] does: the integers,
    each as the fraction with denominator 1. *)
Definition integral (n : Q) : bool := Pos.eqb (Qden n) 1.

Lemma string_of_uint_token (d : Decimal.uint) :
  all_token_chars (NilEmpty.string_of_uint d) = true.
Proof. induction d; cbn [NilEmpty.string_of_uint all_token_chars]; by rewrite ?IHd. Qed.

Lemma string_of_uint_number_text (d : Decimal.uint) :
  d <> Decimal.Nil -> number_text (NilZero.string_of_uint d) = true.
Proof.
  destruct d; try done; intros _;
    cbn [NilZero.string_of_uint NilEmpty.string_of_uint number_text all_token_chars];
    by rewrite string_of_uint_token.
Qed.

Lemma to_int_not_nil (z : Z) :
  Z.to_int z <> Decimal.Pos Decimal.Nil /\ Z.to_int z <> Decimal.Neg Decimal.Nil.
Proof.
  destruct z as [| p | p]; cbn; split; try done; intros [= H];
    by apply DecimalPos.Unsigned.to_uint_nonnil in H.
Qed.

Lemma String_of_integer_number_text (n : Q) :
  integral n = true -> number_text (Js.String_of_integer n) = true.
Proof.
  intros _. unfold Js.String_of_integer.
  destruct (to_int_not_nil (Qnum n / Z.pos (Qden n))) as [Hpos Hneg].
  destruct (Z.to_int _) as [d | d]; cbn [NilZero.string_of_int].
  - apply string_of_uint_number_text. congruence.
  - assert (d <> Decimal.Nil) as Hd by congruence.
    destruct d; try done;
      cbn [NilZero.string_of_uint NilEmpty.string_of_uint number_text all_token_chars];
      by rewrite string_of_uint_token.
Qed.

Lemma String_of_integer_inj (n1 n2 : Q) :
  integral n1 = true -> integral n2 = true ->
  Js.String_of_integer n1 = Js.String_of_integer n2 -> n1 = n2.
Proof.
  unfold integral, Js.String_of_integer. destruct n1 as [z1 p1], n2 as [z2 p2].
  cbn [Qden Qnum]. intros ->%Pos.eqb_eq ->%Pos.eqb_eq. rewrite !Z.div_1_r. intros Heq.
  apply (f_equal NilZero.int_of_string) in Heq.
  destruct (to_int_not_nil z1), (to_int_not_nil z2).
  rewrite !NilZero.isi in Heq by done.
  injection Heq as Heq. apply DecimalZ.to_int_inj in Heq. by subst.
Qed.

Lemma serializeDuiDslDocument_tells_printed_part_witness :
  document_numbers integral (sample_document "2026-02-08T10:00:00Z") = true
  /\ document_numbers integral (sample_document "2026-03-01T09:30:00Z") = true
  /\ (print (sample_document "2026-02-08T10:00:00Z")
      = print (sample_document "2026-03-01T09:30:00Z")
      <-> printed_part (sample_document "2026-02-08T10:00:00Z")
          = printed_part (sample_document "2026-03-01T09:30:00Z")).
Proof.
  split; [vm_compute; reflexivity |]. split; [vm_compute; reflexivity |].
  apply (serializeDuiDslDocument_tells_printed_part Js.String_of_integer integral
           String_of_integer_number_text String_of_integer_inj
           (sample_document "2026-02-08T10:00:00Z")
           (sample_document "2026-03-01T09:30:00Z") σ0 σ0);
    vm_compute; reflexivity.
Defined.
